(** * Colour augmenters of imgaug (augmenters/color.py): a shallow embedding

    The development follows [additionalPackage/imgaug/imgaug/augmenters/color.py]:
    the colourspace converter ([change_colorspace_], [change_colorspaces_]),
    the hue/saturation engine ([AddToHueAndSaturation] and its lookup tables,
    the projections of [WithHueAndSaturation]) and the colour quantizers
    ([_AbstractColorQuantization], [quantize_colors_kmeans],
    [quantize_colors_uniform]).

    Conventions.
    - A Python function that can raise returns [result A]; [assert c, msg]
      is [assert_ c msg].
    - NumPy arrays of rank 2 and 3 are nested lists of integers together with
      the name of their dtype.
    - Floating-point arithmetic is IEEE binary64 (the kernel's primitive
      floats); binary32 results are obtained by rounding the binary64 result
      of the same operation to 24 bits (innocuous double rounding for
      [+], [*], [/]).
    - OpenCV, the random number generator and the parts of imgaug that live in
      other modules are fields of the class [Externals].
    - Arrays are values.  Where the code writes into the arrays of its
      caller (the colourspace converter converts in place), the array
      objects live in a store and the lists hold references to them
      ([Store]). *)

From Stdlib Require Import ZArith List String Bool Lia Floats Uint63.
From stdpp Require Import base option list gmap strings.

Local Open Scope string_scope.
Local Open Scope list_scope.
Local Open Scope Z_scope.

(** ** Exceptions and results *)

Inductive exn : Type :=
| AssertionError (msg : string)
| KeyError
| IndexError
| ValueError
| TypeError.

Inductive result (A : Type) : Type :=
| Ok (a : A)
| Raise (e : exn).
Arguments Ok {A} a.
Arguments Raise {A} e.

#[global] Instance result_ret : MRet result := fun A a => Ok a.
#[global] Instance result_bind : MBind result := fun A B f m =>
  match m with
  | Ok a => f a
  | Raise e => Raise e
  end.
#[global] Instance result_fmap : FMap result := fun A B f m =>
  match m with
  | Ok a => Ok (f a)
  | Raise e => Raise e
  end.

(** [assert cond, msg] *)
Definition assert_ (cond : bool) (msg : string) : result unit :=
  if cond then Ok tt else Raise (AssertionError msg).

Definition is_Ok {A} (r : result A) : bool :=
  match r with Ok _ => true | Raise _ => false end.

(** [d[key]] on a dict: [KeyError] when the key is absent. *)
Definition dict_get `{Countable K} {V} (d : gmap K V) (key : K) : result V :=
  match d !! key with
  | Some v => Ok v
  | None => Raise KeyError
  end.

(** [l[i]] on a Python list or along the first axis of an array: negative
    indices count from the end, anything outside raises [IndexError]. *)
Definition py_index {A} (l : list A) (i : Z) : result A :=
  let n := Z.of_nat (length l) in
  let j := if i <? 0 then i + n else i in
  if (0 <=? j) && (j <? n)
  then match l !! Z.to_nat j with Some a => Ok a | None => Raise IndexError end
  else Raise IndexError.

(** [range(a, b)] *)
Definition py_range (a b : Z) : list Z :=
  map (fun k => a + Z.of_nat k) (seq 0 (Z.to_nat (b - a))).

(** ** Arrays *)

(** An array of rank 2, shape [(H, W)], or of rank 3, shape [(H, W, C)],
    carrying the name of its dtype.  The images handled by this module have
    no other rank.  The extent of an axis is read off the first element, so
    an array with an empty leading axis has shape [(0, 0)] or [(0, 0, 0)]. *)
Inductive ndarray : Type :=
| Array2 (dtype : string) (rows : list (list Z))
| Array3 (dtype : string) (rows : list (list (list Z))).

Definition dtype_name (a : ndarray) : string :=
  match a with Array2 d _ | Array3 d _ => d end.

Definition ndim (a : ndarray) : Z :=
  match a with Array2 _ _ => 2 | Array3 _ _ => 3 end.

Definition shape (a : ndarray) : list Z :=
  match a with
  | Array2 _ rows =>
      [Z.of_nat (length rows); Z.of_nat (length (hd [] rows))]
  | Array3 _ rows =>
      [Z.of_nat (length rows); Z.of_nat (length (hd [] rows));
       Z.of_nat (length (hd [] (hd [] rows)))]
  end.

(** Every row has [W] pixels and every pixel [C] samples. *)
Definition rect3 (H W C : nat) (rows : list (list (list Z))) : Prop :=
  length rows = H ∧
  Forall (fun row => length row = W ∧ Forall (fun px => length px = C) row) rows.

Definition rect2 (H W : nat) (rows : list (list Z)) : Prop :=
  length rows = H ∧ Forall (fun row => length row = W) rows.

Definition is_uint8_value (v : Z) : Prop := 0 <= v <= 255.

(** A [uint8] image of shape [(H, W, C)] with at least one pixel. *)
Definition uint8_image (H W C : nat) (a : ndarray) : Prop :=
  match a with
  | Array3 d rows =>
      d = "uint8" ∧ (0 < H)%nat ∧ (0 < W)%nat ∧ rect3 H W C rows ∧
      Forall (Forall (Forall is_uint8_value)) rows
  | Array2 _ _ => False
  end.

(** Every sample of the array satisfies [P]. *)
Definition array_Forall (P : Z → Prop) (a : ndarray) : Prop :=
  match a with
  | Array2 _ rows => Forall (Forall P) rows
  | Array3 _ rows => Forall (Forall (Forall P)) rows
  end.

(** A [uint8] array of rank 2 or 3. *)
Definition uint8_array (a : ndarray) : Prop :=
  dtype_name a = "uint8" ∧ array_Forall is_uint8_value a.

(** An operation on every pixel of a rank-3 array. *)
Definition map_pixels (f : list Z → list Z) (a : ndarray) : ndarray :=
  match a with
  | Array2 _ _ => a
  | Array3 d rows => Array3 d (map (map f) rows)
  end.

(** An elementwise operation, and a cast of the dtype tag. *)
Definition map_array (f : Z → Z) (a : ndarray) : ndarray :=
  match a with
  | Array2 d rows => Array2 d (map (map f) rows)
  | Array3 d rows => Array3 d (map (map (map f)) rows)
  end.

Definition set_dtype (d : string) (a : ndarray) : ndarray :=
  match a with
  | Array2 _ rows => Array2 d rows
  | Array3 _ rows => Array3 d rows
  end.

(** Conversion of an integer to a fixed-width integer dtype wraps around. *)
Definition wrap_uint8 (v : Z) : Z := v mod 256.
Definition wrap_int32 (v : Z) : Z := (v + 2 ^ 31) mod 2 ^ 32 - 2 ^ 31.

(** [image[:, :, a:b]] on a rank-3 array (a view of the channels [a..b-1]). *)
Definition slice_channels (a b : nat) (img : ndarray) : result ndarray :=
  match img with
  | Array3 d rows => Ok (Array3 d (map (map (fun px => take (b - a) (drop a px))) rows))
  | Array2 _ _ => Raise IndexError
  end.

(** [np.concatenate([x, y], axis=2)]: both arrays of rank 3 with the same
    extent along the axes 0 and 1.  Both operands have the same dtype at the
    only call site; NumPy would promote differing dtypes, which the model
    reports as [TypeError]. *)
Definition concatenate_axis2 (x y : ndarray) : result ndarray :=
  match x, y with
  | Array3 dx rx, Array3 dy ry =>
      if bool_decide (take 2 (shape x) = take 2 (shape y)) then
        if String.eqb dx dy
        then Ok (Array3 dx (zip_with (zip_with app) rx ry))
        else Raise TypeError
      else Raise ValueError
  | _, _ => Raise ValueError
  end.

(** [np.copy(a)]: a new array with the same contents. *)
Definition np_copy (a : ndarray) : ndarray := a.

(** [np.clip(x, lo, hi)] on an integer, either bound may be [None]. *)
Definition np_clip (x : Z) (lo hi : option Z) : Z :=
  let x := match lo with Some l => Z.max x l | None => x end in
  match hi with Some h => Z.min x h | None => x end.

(** ** Floating point *)

Module Float.

(** Exact conversion of an integer of magnitude below [2^53]. *)
Definition of_Z (z : Z) : float :=
  if z <? 0 then PrimFloat.opp (PrimFloat.of_uint63 (Uint63.of_Z (- z)))
  else PrimFloat.of_uint63 (Uint63.of_Z z).

(** Conversion to an integer dtype: truncation toward zero. *)
Definition trunc (x : float) : Z :=
  match Prim2SF x with
  | S754_finite s m e =>
      let a := Z.shiftl (Zpos m) e in if s then - a else a
  | _ => 0
  end.

Definition two52 : float := Eval compute in of_Z (2 ^ 52).

(** [np.round]: the nearest integral value, ties to even (for
    magnitudes below [2^51]). *)
Definition round_even (x : float) : float :=
  if PrimFloat.ltb x 0
  then PrimFloat.add (PrimFloat.sub x two52) two52
  else PrimFloat.sub (PrimFloat.add x two52) two52.

(** [np.floor] *)
Definition floor (x : float) : float :=
  let r := round_even x in
  if PrimFloat.ltb x r then PrimFloat.sub r 1 else r.

(** Rounding of a binary64 value to binary32 (24 significant bits, ties
    to even), for values in the normal range of binary32. *)
Definition to_single (x : float) : float :=
  let a := PrimFloat.abs x in
  let '(m, se) := PrimFloat.frshiftexp a in
  let y := PrimFloat.ldshiftexp m (Uint63.add 24 2101) in
  let r := PrimFloat.sub (PrimFloat.add y two52) two52 in
  let z := PrimFloat.ldshiftexp r (Uint63.sub se 24) in
  if PrimFloat.ltb x 0 then PrimFloat.opp z else z.

(** The float formats of NumPy that occur here. *)
Inductive format : Type := binary32 | binary64.

Definition rnd (fmt : format) (x : float) : float :=
  match fmt with binary32 => to_single x | binary64 => x end.

Definition add fmt (x y : float) : float := rnd fmt (PrimFloat.add x y).
Definition mul fmt (x y : float) : float := rnd fmt (PrimFloat.mul x y).
Definition div fmt (x y : float) : float := rnd fmt (PrimFloat.div x y).

(** [np.clip] on a float. *)
Definition clip (x lo hi : float) : float :=
  if PrimFloat.ltb x lo then lo else if PrimFloat.ltb hi x then hi else x.

End Float.

(** ** What the module takes from elsewhere *)

(** OpenCV ([cv2]), the random number generator ([imgaug.random.RNG]) and the
    helpers of imgaug defined in other modules.  An OpenCV conversion code is
    named by the attribute of [cv2] that holds it. *)
Class Externals : Type := {
  (** [hasattr(cv2, name)] *)
  cv2_hasattr : string → bool;
  (** [cv2.cvtColor(src, code, dst=...)]; [dst] only selects the buffer that
      receives the result. *)
  cv2_cvtColor : ndarray → string → ndarray;
  (** Whether [cv2.cvtColor(src, code, dst=dst)] puts its result into the
      array given as [dst] and returns that array (OpenCV does so when the
      result has the shape and the dtype of [dst]); otherwise it returns a
      new array and leaves [dst] as it is.  The arguments are the contents
      of [src], the code and the contents of [dst]. *)
  cv2_cvtColor_into_dst : ndarray → string → ndarray → bool;
  (** [cv2.kmeans(colors, K, None, (MAX_ITER + EPS, n_max_iter, eps), 1,
      KMEANS_RANDOM_CENTERS)] after [cv2.setRNGSeed(1)]: the labels and the
      centers. *)
  cv2_kmeans : list (list Z) → Z → Z → float → list Z * list (list float);
  (** [ia.imresize_single_image(image, (height, width), interpolation)] *)
  imresize_single_image : ndarray → Z * Z → string → result ndarray;
  (** [blend.blend_alpha(image_fg, image_bg, alpha, eps)] *)
  blend_alpha : ndarray → ndarray → float → float → ndarray;
  (** [imgaug.random.RNG] with [duplicate(n)] and [copy()] *)
  RNG : Type;
  rng_duplicate : RNG → Z → list RNG;
  rng_copy : RNG → RNG;
  (** [iap.Choice(a).draw_samples(size, random_state)] *)
  iap_Choice : list string → list Z → RNG → list string;
  (** The format in which NumPy evaluates an operation between a [float32]
      array and a [float64] scalar: [binary32] with the value-based casting
      of NumPy 1, [binary64] since NumPy 2. *)
  np_array_scalar_format : Float.format;
}.

(** A stochastic parameter: [param.draw_samples(shape, random_state)], the
    samples in row-major order. *)
Definition StochasticParameter `{Externals} (A : Type) : Type :=
  list Z → RNG → list A.

Definition draw_samples `{Externals} {A} (p : StochasticParameter A)
    (size : list Z) (random_state : RNG) : list A :=
  p size random_state.

(** Modelled from the spec: [iap.Deterministic] (imgaug.parameters, not under
    src/), the constant variant of a stochastic parameter: every sample is the
    given value. *)
Definition Deterministic `{Externals} {A} (v : A) : StochasticParameter A :=
  fun size _ => replicate (Z.to_nat (foldr Z.mul 1 size)) v.

(** Modelled from the spec: [iadt.gate_dtypes] (imgaug.dtypes, not under
    src/): a dtype outside the allowed ones is rejected. *)
Definition gate_dtypes (image : ndarray) (allowed disallowed : list string)
  : result unit :=
  if bool_decide (dtype_name image ∈ allowed) then Ok tt else Raise ValueError.

(** ** Colourspace converter *)

Definition CSPACE_RGB : string := "RGB".
Definition CSPACE_BGR : string := "BGR".
Definition CSPACE_GRAY : string := "GRAY".
Definition CSPACE_YCrCb : string := "YCrCb".
Definition CSPACE_HSV : string := "HSV".
Definition CSPACE_HLS : string := "HLS".
Definition CSPACE_Lab : string := "Lab".
Definition CSPACE_Luv : string := "Luv".
Definition CSPACE_YUV : string := "YUV".
Definition CSPACE_CIE : string := "CIE".

Definition CSPACE_ALL : gset string :=
  {[ CSPACE_RGB; CSPACE_BGR; CSPACE_GRAY; CSPACE_YCrCb; CSPACE_HSV;
     CSPACE_HLS; CSPACE_Lab; CSPACE_Luv; CSPACE_YUV; CSPACE_CIE ]}.

(** [_get_opencv_attr]: the first of the names that [cv2] has, else [None]
    (after a warning). *)
Definition _get_opencv_attr `{Externals} (attr_names : list string)
  : option string :=
  List.find cv2_hasattr attr_names.

(** The right-hand sides of the table [_CSPACE_OPENCV_CONV_VARS]: a plain
    attribute [cv2.NAME], or a call of [_get_opencv_attr]. *)
Inductive cv2_ref : Type :=
| cv2_attr (name : string)
| get_opencv_attr (attr_names : list string).

Definition conv_vars_entries : list ((string * string) * cv2_ref) :=
  [ (* RGB *)
    ((CSPACE_RGB, CSPACE_BGR), cv2_attr "COLOR_RGB2BGR");
    ((CSPACE_RGB, CSPACE_GRAY), cv2_attr "COLOR_RGB2GRAY");
    ((CSPACE_RGB, CSPACE_YCrCb), get_opencv_attr ["COLOR_RGB2YCR_CB"]);
    ((CSPACE_RGB, CSPACE_HSV), cv2_attr "COLOR_RGB2HSV");
    ((CSPACE_RGB, CSPACE_HLS), cv2_attr "COLOR_RGB2HLS");
    ((CSPACE_RGB, CSPACE_Lab), get_opencv_attr ["COLOR_RGB2LAB"; "COLOR_RGB2Lab"]);
    ((CSPACE_RGB, CSPACE_Luv), cv2_attr "COLOR_RGB2LUV");
    ((CSPACE_RGB, CSPACE_YUV), cv2_attr "COLOR_RGB2YUV");
    ((CSPACE_RGB, CSPACE_CIE), cv2_attr "COLOR_RGB2XYZ");
    (* BGR *)
    ((CSPACE_BGR, CSPACE_RGB), cv2_attr "COLOR_BGR2RGB");
    ((CSPACE_BGR, CSPACE_GRAY), cv2_attr "COLOR_BGR2GRAY");
    ((CSPACE_BGR, CSPACE_YCrCb), get_opencv_attr ["COLOR_BGR2YCR_CB"]);
    ((CSPACE_BGR, CSPACE_HSV), cv2_attr "COLOR_BGR2HSV");
    ((CSPACE_BGR, CSPACE_HLS), cv2_attr "COLOR_BGR2HLS");
    ((CSPACE_BGR, CSPACE_Lab), get_opencv_attr ["COLOR_BGR2LAB"; "COLOR_BGR2Lab"]);
    ((CSPACE_BGR, CSPACE_Luv), cv2_attr "COLOR_BGR2LUV");
    ((CSPACE_BGR, CSPACE_YUV), cv2_attr "COLOR_BGR2YUV");
    ((CSPACE_BGR, CSPACE_CIE), cv2_attr "COLOR_BGR2XYZ");
    (* GRAY: no entry *)
    (* YCrCb *)
    ((CSPACE_YCrCb, CSPACE_RGB), get_opencv_attr ["COLOR_YCrCb2RGB"; "COLOR_YCR_CB2RGB"]);
    ((CSPACE_YCrCb, CSPACE_BGR), get_opencv_attr ["COLOR_YCrCb2BGR"; "COLOR_YCR_CB2BGR"]);
    (* HSV *)
    ((CSPACE_HSV, CSPACE_RGB), cv2_attr "COLOR_HSV2RGB");
    ((CSPACE_HSV, CSPACE_BGR), cv2_attr "COLOR_HSV2BGR");
    (* HLS *)
    ((CSPACE_HLS, CSPACE_RGB), cv2_attr "COLOR_HLS2RGB");
    ((CSPACE_HLS, CSPACE_BGR), cv2_attr "COLOR_HLS2BGR");
    (* Lab *)
    ((CSPACE_Lab, CSPACE_RGB), get_opencv_attr ["COLOR_Lab2RGB"; "COLOR_LAB2RGB"]);
    ((CSPACE_Lab, CSPACE_BGR), get_opencv_attr ["COLOR_Lab2BGR"; "COLOR_LAB2BGR"]);
    (* Luv *)
    ((CSPACE_Luv, CSPACE_RGB), get_opencv_attr ["COLOR_Luv2RGB"; "COLOR_LUV2RGB"]);
    ((CSPACE_Luv, CSPACE_BGR), get_opencv_attr ["COLOR_Luv2BGR"; "COLOR_LUV2BGR"]);
    (* YUV *)
    ((CSPACE_YUV, CSPACE_RGB), cv2_attr "COLOR_YUV2RGB");
    ((CSPACE_YUV, CSPACE_BGR), cv2_attr "COLOR_YUV2BGR");
    (* CIE *)
    ((CSPACE_CIE, CSPACE_RGB), cv2_attr "COLOR_XYZ2RGB");
    ((CSPACE_CIE, CSPACE_BGR), cv2_attr "COLOR_XYZ2BGR") ].

Definition conv_vars_refs : gmap (string * string) cv2_ref :=
  list_to_map conv_vars_entries.

Definition eval_cv2_ref `{Externals} (r : cv2_ref) : option string :=
  match r with
  | cv2_attr name => Some name
  | get_opencv_attr attr_names => _get_opencv_attr attr_names
  end.

(** The table as it stands once the module is loaded: each entry holds a
    conversion code, or [None] where [_get_opencv_attr] found none. *)
Definition _CSPACE_OPENCV_CONV_VARS `{Externals}
  : gmap (string * string) (option string) :=
  eval_cv2_ref <$> conv_vars_refs.

(** [_CHANGE_COLORSPACE_INPLACE]: the same 34 keys, each mapped to [True]. *)
Definition _CHANGE_COLORSPACE_INPLACE : gmap (string * string) bool :=
  (fun _ => true) <$> conv_vars_refs.

#[global] Arguments conv_vars_refs : simpl never.
#[global] Arguments _CSPACE_OPENCV_CONV_VARS : simpl never.
#[global] Arguments _CHANGE_COLORSPACE_INPLACE : simpl never.
#[global] Arguments CSPACE_ALL : simpl never.

(** [np.tile(image_aug[:, :, np.newaxis], (1, 1, 3))] for a rank-2 result. *)
Definition gray_to_3_channels (image_aug : ndarray) : ndarray :=
  match image_aug with
  | Array2 d rows => Array3 d (map (map (fun v => [v; v; v])) rows)
  | Array3 _ _ => image_aug
  end.

Section ChangeColorspace.
Context {ext : Externals}.

(** [change_colorspace_] on the contents of the array: the contents of the
    array that it returns.  Which array that is, and what the call leaves
    in the array it was given, is the subject of [Store] below.

    [_get_dst]: whether the pair is converted in place.  (The array itself
    is handed over as [dst] when it is C-contiguous; that choice of buffer
    has no influence on the values of the result.) *)
Definition _get_dst (image : ndarray) (from_to_cspace : string * string)
  : result bool :=
  dict_get _CHANGE_COLORSPACE_INPLACE from_to_cspace.

(** [cv2.cvtColor(image, code, dst=dst)] with a code taken from the table:
    a missing code ([None]) is rejected by OpenCV. *)
Definition cvtColor (image : ndarray) (code : option string)
  : result ndarray :=
  match code with
  | Some c => Ok (cv2_cvtColor image c)
  | None => Raise TypeError
  end.

Definition change_colorspace_ (image : ndarray) (to_colorspace : string)
    (from_colorspace : string) : result ndarray :=
  gate_dtypes image ["uint8"]
    ["bool"; "uint16"; "uint32"; "uint64"; "uint128"; "uint256";
     "int32"; "int64"; "int128"; "int256";
     "float16"; "float32"; "float64"; "float96"; "float128"; "float256"];;
  assert_ (bool_decide (to_colorspace ∈ CSPACE_ALL))
    "Expected `to_colorspace` to be one of the colorspaces";;
  assert_ (bool_decide (from_colorspace ∈ CSPACE_ALL))
    "Expected `from_colorspace` to be one of the colorspaces";;
  assert_ (bool_decide (from_colorspace ≠ CSPACE_GRAY))
    "Cannot convert from grayscale to another colorspace as colors cannot be recovered.";;
  assert_ (ndim image =? 3)
    "Expected image shape to be three-dimensional";;
  assert_ (bool_decide (shape image !! 2%nat = Some 3))
    "Expected number of channels to be three";;
  if bool_decide (from_colorspace = to_colorspace) then Ok image
  else
    let from_to_direct := (from_colorspace, to_colorspace) in
    let from_to_indirect :=
      ((from_colorspace, CSPACE_RGB), (CSPACE_RGB, to_colorspace)) in
    image_aug ←
      match _CSPACE_OPENCV_CONV_VARS !! from_to_direct with
      | Some from2to_var =>
          _ ← _get_dst image from_to_direct;
          cvtColor image from2to_var
      | None =>
          from2rgb_var ← dict_get _CSPACE_OPENCV_CONV_VARS from_to_indirect.1;
          rgb2to_var ← dict_get _CSPACE_OPENCV_CONV_VARS from_to_indirect.2;
          _ ← _get_dst image from_to_indirect.1;
          _ ← _get_dst image from_to_indirect.2;
          image_aug ← cvtColor image from2rgb_var;
          cvtColor image_aug rgb2to_var
      end;
    assert_ (String.eqb (dtype_name image_aug) "uint8") "uint8 expected";;
    (* for grayscale: convert from (H, W) to (H, W, 3) *)
    Ok (gray_to_3_channels image_aug).

(** The colourspace arguments of the batch function: one string for all
    images, or a list with one string per image. *)
Inductive cspace_arg : Type :=
| OneCspace (s : string)
| ListOfCspaces (l : list string).

End ChangeColorspace.

(** ** The converter on array objects *)

(** [change_colorspace_] converts in place where it can: it hands the array
    itself to OpenCV as the buffer that receives the result, and
    [change_colorspaces_] stores the array that comes back in the list of
    the caller.  What the caller's arrays hold afterwards is described on a
    store of array objects; the lists hold references to them. *)
Module Store.

(** An array object: its contents and [flags["C_CONTIGUOUS"]]. *)
Record array_object : Type := {
  contents : ndarray;
  c_contiguous : bool;
}.

#[global] Instance array_object_inhabited : Inhabited array_object :=
  populate {| contents := Array2 "uint8" []; c_contiguous := true |}.

(** A reference to an array object, and the objects that exist. *)
Abbreviation array_ref := nat (only parsing).
Abbreviation heap := (list array_object) (only parsing).

(** Code that reads and writes the store and may raise: the store it leaves
    (also when it raises) and its outcome. *)
Definition M (A : Type) : Type := heap → heap * result A.

#[global] Instance M_ret : MRet M := fun A (a : A) h => (h, Ok a).

#[global] Instance M_bind : MBind M := fun A B (f : A → M B) (m : M A) h =>
  match m h with
  | (h', Ok a) => f a h'
  | (h', Raise e) => (h', Raise e)
  end.

(** A check or a lookup that does not touch the store. *)
Definition lift {A} (r : result A) : M A := fun h => (h, r).

(** The contents of an array, and its flag. *)
Definition array_of (r : array_ref) : M ndarray :=
  fun h => (h, Ok (contents (h !!! r))).

Definition flags_c_contiguous (r : array_ref) : M bool :=
  fun h => (h, Ok (c_contiguous (h !!! r))).

(** A new array (NumPy and OpenCV allocate C-contiguous arrays). *)
Definition new_array (a : ndarray) : M array_ref :=
  fun h => (h ++ [{| contents := a; c_contiguous := true |}], Ok (length h)).

(** Overwriting the buffer of an array. *)
Definition write_array (r : array_ref) (a : ndarray) : M unit :=
  fun h =>
    (<[r := {| contents := a; c_contiguous := c_contiguous (h !!! r) |}]> h,
     Ok tt).

(** The arrays that a list of references holds. *)
Definition arrays_of (h : heap) (images : list array_ref) : list ndarray :=
  (fun r => contents (h !!! r)) <$> images.

(** A store of distinct C-contiguous arrays with the given contents; the
    list [seq 0 (length images)] refers to them in order. *)
Definition fresh_arrays (images : list ndarray) : heap :=
  (fun a => {| contents := a; c_contiguous := true |}) <$> images.

Section Converter.
Context {ext : Externals}.

(** [_get_dst]: the array itself when the pair is converted in place and
    the array is C-contiguous, else [None]. *)
Definition _get_dst (image : array_ref) (from_to_cspace : string * string)
  : M (option array_ref) :=
  inplace ← lift (dict_get _CHANGE_COLORSPACE_INPLACE from_to_cspace);
  if (inplace : bool) then
    contiguous ← flags_c_contiguous image;
    if (contiguous : bool) then mret (Some image) else mret None
  else mret None.

(** [cv2.cvtColor(src, code, dst=dst)]: a missing code ([None]) is rejected;
    the result goes into [dst], which is then the array returned, or into a
    new array. *)
Definition cvtColor (src : array_ref) (code : option string)
    (dst : option array_ref) : M array_ref :=
  match code with
  | None => lift (Raise TypeError)
  | Some c =>
      a ← array_of src;
      match dst with
      | Some d =>
          b ← array_of d;
          if cv2_cvtColor_into_dst a c b then
            write_array d (cv2_cvtColor a c);; mret d
          else new_array (cv2_cvtColor a c)
      | None => new_array (cv2_cvtColor a c)
      end
  end.

Definition change_colorspace_ (image : array_ref) (to_colorspace : string)
    (from_colorspace : string) : M array_ref :=
  a ← array_of image;
  lift (gate_dtypes a ["uint8"]
    ["bool"; "uint16"; "uint32"; "uint64"; "uint128"; "uint256";
     "int32"; "int64"; "int128"; "int256";
     "float16"; "float32"; "float64"; "float96"; "float128"; "float256"]);;
  lift (assert_ (bool_decide (to_colorspace ∈ CSPACE_ALL))
    "Expected `to_colorspace` to be one of the colorspaces");;
  lift (assert_ (bool_decide (from_colorspace ∈ CSPACE_ALL))
    "Expected `from_colorspace` to be one of the colorspaces");;
  lift (assert_ (bool_decide (from_colorspace ≠ CSPACE_GRAY))
    "Cannot convert from grayscale to another colorspace as colors cannot be recovered.");;
  lift (assert_ (ndim a =? 3)
    "Expected image shape to be three-dimensional");;
  lift (assert_ (bool_decide (shape a !! 2%nat = Some 3))
    "Expected number of channels to be three");;
  if bool_decide (from_colorspace = to_colorspace) then mret image
  else
    let from_to_direct := (from_colorspace, to_colorspace) in
    let from_to_indirect :=
      ((from_colorspace, CSPACE_RGB), (CSPACE_RGB, to_colorspace)) in
    image_aug ←
      match _CSPACE_OPENCV_CONV_VARS !! from_to_direct with
      | Some from2to_var =>
          dst ← _get_dst image from_to_direct;
          cvtColor image from2to_var dst
      | None =>
          from2rgb_var ←
            lift (dict_get _CSPACE_OPENCV_CONV_VARS from_to_indirect.1);
          rgb2to_var ←
            lift (dict_get _CSPACE_OPENCV_CONV_VARS from_to_indirect.2);
          dst1 ← _get_dst image from_to_indirect.1;
          dst2 ← _get_dst image from_to_indirect.2;
          image_aug ← cvtColor image from2rgb_var dst1;
          cvtColor image_aug rgb2to_var dst2
      end;
    b ← array_of image_aug;
    lift (assert_ (String.eqb (dtype_name b) "uint8") "uint8 expected");;
    (* for grayscale: convert from (H, W) to (H, W, 3) *)
    if ndim b =? 2 then new_array (gray_to_3_channels b) else mret image_aug.

Definition _validate (images : list array_ref) (arg : cspace_arg)
    (arg_name : string) : result (list string) :=
  match arg with
  | ListOfCspaces l =>
      assert_ (bool_decide (length l = length images))
        ("If `" +:+ arg_name +:+ "` is provided as a list it must have the same length as `images`.");;
      Ok l
  | OneCspace s => Ok (replicate (length images) s)
  end.

(** The loop [for i, (image, to, from) in enumerate(gen): images[i] = ...]
    over the list [images], which is updated in place: the store and the
    list when the loop ends, and how it ended. *)
Fixpoint change_colorspaces_loop (i : nat)
    (gen : list (array_ref * string * string)) (images : list array_ref)
    (h : heap) : heap * list array_ref * result unit :=
  match gen with
  | [] => (h, images, Ok tt)
  | (image, to_colorspace, from_colorspace) :: gen' =>
      match change_colorspace_ image to_colorspace from_colorspace h with
      | (h', Ok image') =>
          change_colorspaces_loop (S i) gen' (<[i := image']> images) h'
      | (h', Raise e) => (h', images, Raise e)
      end
  end.

(** [change_colorspaces_(images, to_colorspaces, from_colorspaces)] for a
    list of images: the store and the list [images] afterwards (the function
    updates the caller's list) and the outcome; on success the function
    returns that same list. *)
Definition change_colorspaces_ (images : list array_ref)
    (to_colorspaces from_colorspaces : cspace_arg) (h : heap)
  : heap * list array_ref * result unit :=
  match _validate images to_colorspaces "to_colorspaces" with
  | Raise e => (h, images, Raise e)
  | Ok to_colorspaces =>
      match _validate images from_colorspaces "from_colorspaces" with
      | Raise e => (h, images, Raise e)
      | Ok from_colorspaces =>
          let gen := zip (zip images to_colorspaces) from_colorspaces in
          change_colorspaces_loop 0 gen images h
      end
  end.

End Converter.

End Store.

Section ChangeColorspaces.
Context {ext : Externals}.

(** [change_colorspaces_] for a list of distinct C-contiguous arrays, given
    by their contents: the contents of the list afterwards and the
    outcome. *)
Definition change_colorspaces_ (images : list ndarray)
    (to_colorspaces from_colorspaces : cspace_arg)
  : list ndarray * result unit :=
  let '(h, images', r) :=
    Store.change_colorspaces_ (seq 0 (length images))
      to_colorspaces from_colorspaces (Store.fresh_arrays images) in
  (Store.arrays_of h images', r).

(** The value returned to the caller. *)
Definition change_colorspaces_result (images : list ndarray)
    (to_colorspaces from_colorspaces : cspace_arg) : result (list ndarray) :=
  let '(images', r) :=
    change_colorspaces_ images to_colorspaces from_colorspaces in
  _ ← r; Ok images'.

End ChangeColorspaces.

(** ** Hue and saturation *)

Definition wrap_int16 (v : Z) : Z := (v + 2 ^ 15) mod 2 ^ 16 - 2 ^ 15.

(** [a.astype(dtype)] for an integer array; only the conversion to [uint8]
    has to change values here. *)
Definition astype (d : string) (a : ndarray) : ndarray :=
  if String.eqb d "uint8" then set_dtype d (map_array wrap_uint8 a)
  else set_dtype d a.

(** *** The projections of [WithHueAndSaturation._augment_images] *)

(** [((hue.astype(np.float32) / 180.0) * 255.0).astype(np.int16)]: the hue
    of OpenCV, in [[0, 180]], seen in the range [[0, 255]] of the children. *)
Definition hue_to_255 (hue : Z) : Z :=
  wrap_int16 (Float.trunc
    (Float.mul Float.binary32
       (Float.div Float.binary32 (Float.of_Z hue) 180%float) 255%float)).

(** [((np.mod(hue_aug, 255).astype(np.float32) / 255.0) * (360/2))
    .astype(np.uint8)]: back to the hue of OpenCV. *)
Definition hue_from_255 (hue_aug : Z) : Z :=
  wrap_uint8 (Float.trunc
    (Float.mul Float.binary32
       (Float.div Float.binary32 (Float.of_Z (hue_aug mod 255)) 255%float)
       180%float)).

(** The equation of the specification for the addition to the hue,
    [hue_out = ((hue_in + shift) mod 255) scaled to [0,180]], where [hue_in]
    is the hue projected to the range [[0, 255]]; the projections are those
    of [WithHueAndSaturation]. *)
Definition spec_hue_add (hue shift : Z) : Z :=
  hue_from_255 (hue_to_255 hue + shift).

(** *** [AddToHueAndSaturation] *)

(** [_generate_lut_table]: two tables of [256*2] rows and 256 columns; row
    [255 + i] of the first holds [(v + i) mod 180], of the second
    [clip(v + i, 0, 255)], for [i] from -255 to 255. *)
Definition lut_row_hue (i : Z) : list Z :=
  map (fun v => wrap_uint8 ((v + i) mod 180)) (py_range 0 256).

Definition lut_row_saturation (i : Z) : list Z :=
  map (fun v => wrap_uint8 (np_clip (v + i) (Some 0) (Some 255))) (py_range 0 256).

(** One turn of the loop [for i in sm.xrange(-255, 255+1)]. *)
Definition lut_step (table : list (list Z) * list (list Z)) (i : Z)
  : list (list Z) * list (list Z) :=
  (<[Z.to_nat (255 + i) := lut_row_hue i]> table.1,
   <[Z.to_nat (255 + i) := lut_row_saturation i]> table.2).

Definition _generate_lut_table : list (list Z) * list (list Z) :=
  let zeros := replicate (256 * 2) (replicate 256 0) in
  foldl lut_step (zeros, zeros) (py_range (-255) (255 + 1)).

(** [cv2.LUT(src, lut)] on one sample of a [uint8] array. *)
Definition cv2_LUT (lut : list Z) (v : Z) : Z :=
  default 0 (lut !! Z.to_nat v).

(** The arguments [value], [value_hue], [value_saturation] as given to the
    constructor: a number, or a stochastic parameter.  (A tuple or a list is
    turned into a parameter by [iap.handle_discrete_param] and is given here
    as that parameter.) *)
Inductive discrete_arg `{Externals} : Type :=
| ArgNumber (v : Z)
| ArgParameter (p : StochasticParameter Z).

(** Modelled from the spec: [iap.handle_discrete_param] (imgaug.parameters,
    not under src/) with [value_range=(lo, hi)], either bound possibly [None]: a single number is checked
    against the range and becomes a constant parameter; a stochastic
    parameter is taken as it is. *)
Definition handle_discrete_param `{Externals} (arg : discrete_arg)
    (name : string) (lo hi : option Z) : result (StochasticParameter Z) :=
  match arg with
  | ArgNumber v =>
      assert_ (from_option (fun l => l <=? v) true lo
               && from_option (fun h => v <=? h) true hi)
        ("Parameter `" +:+ name +:+ "` is outside of its value range");;
      Ok (Deterministic v)
  | ArgParameter p => Ok p
  end.

Record AddToHueAndSaturation `{Externals} : Type := {
  value : option (StochasticParameter Z);
  value_hue : option (StochasticParameter Z);
  value_saturation : option (StochasticParameter Z);
  (** samples are 0 or 1 *)
  per_channel : StochasticParameter Z;
  from_colorspace : string;
  (** [backend] is always ["cv2"] *)
  _LUT_CACHE : list (list Z) * list (list Z);
}.

Definition is_None {A} (o : option A) : bool :=
  match o with None => true | Some _ => false end.

(** [rows[:, k]] of a list of rows. *)
Definition column (k : nat) (rows : list (list Z)) : list Z :=
  map (fun row => default 0 (row !! k)) rows.

(** [count] consecutive chunks of [k] elements (a row-major reshape). *)
Fixpoint chunk {A} (k count : nat) (l : list A) : list (list A) :=
  match count with
  | O => []
  | S count' => take k l :: chunk k count' (drop k l)
  end.

(** [np.copy] of a vector. *)
Definition np_copy_list (l : list Z) : list Z := l.

(** [dst[mask] = src[mask]] for a boolean mask. *)
Definition masked_assign (dst : list Z) (mask : list bool) (src : list Z)
  : list Z :=
  imap (fun i d => if default false (mask !! i) then default d (src !! i) else d)
       dst.

Section AddToHueAndSaturation.
Context {ext : Externals}.

Definition _handle_value_arg
    (value value_hue value_saturation : option discrete_arg)
  : result (option (StochasticParameter Z)) :=
  match value with
  | Some v =>
      assert_ (is_None value_hue)
        "`value_hue` may not be set if `value` is set.";;
      assert_ (is_None value_saturation)
        "`value_saturation` may not be set if `value` is set.";;
      Some <$> handle_discrete_param v "value" (Some (-255)) (Some 255)
  | None => Ok None
  end.

Definition _handle_value_hue_arg (value_hue : option discrete_arg)
  : result (option (StochasticParameter Z)) :=
  match value_hue with
  | Some v => Some <$> handle_discrete_param v "value_hue" (Some (-255)) (Some 255)
  | None => Ok None
  end.

Definition _handle_value_saturation_arg (value_saturation : option discrete_arg)
  : result (option (StochasticParameter Z)) :=
  match value_saturation with
  | Some v => Some <$> handle_discrete_param v "value_saturation" (Some (-255)) (Some 255)
  | None => Ok None
  end.

(** [AddToHueAndSaturation.__init__]; [per_channel] is given as the
    parameter that [iap.handle_probability_param] returns. *)
Definition AddToHueAndSaturation_init
    (value value_hue value_saturation : option discrete_arg)
    (per_channel : StochasticParameter Z) (from_colorspace : string)
  : result AddToHueAndSaturation :=
  v ← _handle_value_arg value value_hue value_saturation;
  vh ← _handle_value_hue_arg value_hue;
  vs ← _handle_value_saturation_arg value_saturation;
  Ok {| value := v; value_hue := vh; value_saturation := vs;
        per_channel := per_channel; from_colorspace := from_colorspace;
        _LUT_CACHE := _generate_lut_table |}.

(** [AddToHue.__init__(value, from_colorspace)] *)
Definition AddToHue_init (value : discrete_arg) (from_colorspace : string)
  : result AddToHueAndSaturation :=
  AddToHueAndSaturation_init None (Some value) None (Deterministic 0)
    from_colorspace.

(** [((samples_hue.astype(np.float32) / 255.0) * (360/2)).astype(np.int32)]:
    the projection of a sampled amount to the hue range of OpenCV. *)
Definition project_hue_sample (sample : Z) : Z :=
  wrap_int32 (Float.trunc
    (Float.mul Float.binary32
       (Float.div Float.binary32 (Float.of_Z sample) 255%float) 180%float)).

Definition AddToHueAndSaturation_draw_samples (self : AddToHueAndSaturation)
    (augmentables : list ndarray) (random_state : RNG)
  : result (list Z * list Z) :=
  let nb_images := Z.of_nat (length augmentables) in
  let rss := rng_duplicate random_state 2 in
  '(samples_hue, samples_saturation) ←
    match value self with
    | Some value =>
        rs0 ← py_index rss 0;
        let per_channel :=
          draw_samples (per_channel self) [nb_images] rs0 in
        (* per_channel > 0.5, on samples that are integers *)
        let per_channel := map (fun x => 1 <=? x) per_channel in
        rs1 ← py_index rss 1;
        let samples :=
          chunk 2 (Z.to_nat nb_images)
            (map wrap_int32 (draw_samples value [nb_images; 2] rs1)) in
        row0 ← py_index samples 0;
        s00 ← py_index row0 0;
        assert_ ((-255 <=? s00) && (s00 <=? 255))
          "Expected values sampled from `value` in AddToHueAndSaturation to be in range [-255, 255]";;
        let samples_hue := column 0 samples in
                  let samples_saturation := np_copy_list (column 0 samples) in
        (* samples_saturation[per_channel] = samples[per_channel, 1] *)
        let samples_saturation :=
          masked_assign samples_saturation per_channel (column 1 samples) in
        Ok (samples_hue, samples_saturation)
    | None =>
        samples_hue ←
          match value_hue self with
          | Some value_hue =>
              rs0 ← py_index rss 0;
              Ok (map wrap_int32 (draw_samples value_hue [nb_images] rs0))
          | None => Ok (replicate (Z.to_nat nb_images) 0)
          end;
        samples_saturation ←
          match value_saturation self with
          | Some value_saturation =>
              rs1 ← py_index rss 1;
              Ok (map wrap_int32
                    (draw_samples value_saturation [nb_images] rs1))
          | None => Ok (replicate (Z.to_nat nb_images) 0)
          end;
        Ok (samples_hue, samples_saturation)
    end;
  (* project hue to angular representation; OpenCV uses [0, 180] *)
  let samples_hue := map project_hue_sample samples_hue in
  Ok (samples_hue, samples_saturation).

(** [_transform_image_cv2]: the rows [255 + hue] and [255 + saturation] of
    the cached tables are applied to the channels 0 and 1.  The image is
    the rank-3 array that [change_colorspaces_] returned. *)
Definition _transform_image_cv2 (self : AddToHueAndSaturation)
    (image_hsv : ndarray) (hue saturation : Z) : result ndarray :=
  let table_hue := (_LUT_CACHE self).1 in
  let table_saturation := (_LUT_CACHE self).2 in
  lut_hue ← py_index table_hue (255 + hue);
lut_saturation ← py_index table_saturation (255 + saturation);
match image_hsv with
| Array3 d rows =>
    if forallb (forallb (fun px => (2 <=? length px)%nat)) rows then
      Ok (map_pixels
            (fun px =>
               match px with
               | h :: s :: rest =>
                   cv2_LUT lut_hue h :: cv2_LUT lut_saturation s :: rest
               | _ => px
               end) image_hsv)
    else Raise IndexError
| Array2 _ _ => Raise IndexError
end.

(** [_transform_image_numpy]: the same computation without tables, on
    [int16]. *)
Definition _transform_image_numpy (image_hsv : ndarray) (hue saturation : Z)
  : result ndarray :=
match image_hsv with
| Array3 _ rows =>
    if forallb (forallb (fun px => (2 <=? length px)%nat)) rows then
      Ok (map_pixels
            (fun px =>
               match px with
               | h :: s :: rest =>
                   wrap_int16 ((h + hue) mod 180)
                   :: wrap_int16 (np_clip (s + saturation) (Some 0) (Some 255))
                   :: rest
               | _ => px
               end) (set_dtype "int16" image_hsv))
    else Raise IndexError
| Array2 _ _ => Raise IndexError
end.

(** The loop of [_augment_images] over
    [enumerate(zip(images_hsv, hues, saturations))], writing [result[i]]. *)
Fixpoint AddToHueAndSaturation_loop (self : AddToHueAndSaturation)
    (input_dtypes : list string) (i : nat)
    (gen : list (ndarray * Z * Z)) (result_ : list ndarray)
  : result (list ndarray) :=
  match gen with
  | [] => Ok result_
  | (image_hsv, hue_i, saturation_i) :: gen' =>
      image_hsv ← _transform_image_cv2 self image_hsv hue_i saturation_i;
      dt ← py_index input_dtypes (Z.of_nat i);
      let image_hsv := astype dt image_hsv in
      image_rgb ← change_colorspace_ image_hsv (from_colorspace self) CSPACE_HSV;
      AddToHueAndSaturation_loop self input_dtypes (S i) gen'
        (<[i := image_rgb]> result_)
  end.

Definition AddToHueAndSaturation_augment_images (self : AddToHueAndSaturation)
    (images : list ndarray) (random_state : RNG) : result (list ndarray) :=
  (* iadt.copy_dtypes_for_restore(images, force_list=True) *)
  let input_dtypes := map dtype_name images in
  let '(images_hsv, converted) :=
    change_colorspaces_ images (OneCspace CSPACE_HSV)
      (OneCspace (from_colorspace self)) in
  _ ← converted;
  (* [images] and [images_hsv] are the same list by now *)
  '(hues, saturations) ←
    AddToHueAndSaturation_draw_samples self images_hsv random_state;
  let gen := zip (zip images_hsv hues) saturations in
  AddToHueAndSaturation_loop self input_dtypes 0 gen images_hsv.

End AddToHueAndSaturation.

(** ** [ChangeColorspace] *)

(** The argument [to_colorspace] of the constructor. *)
Inductive to_colorspace_arg `{Externals} : Type :=
| ToCspace (s : string)
| ToCspaces (l : list string)
| ToParameter (p : StochasticParameter string).

Record ChangeColorspace `{Externals} : Type := {
  cc_alpha : StochasticParameter float;
  cc_to_colorspace : StochasticParameter string;
  cc_from_colorspace : string;
  cc_eps : float;
  cc_random_state : RNG;
}.

(** An augmenter as [_AbstractColorQuantization] uses it. *)
Inductive augmenter `{Externals} : Type :=
| Noop
| ChangeColorspace_ (cs : ChangeColorspace).

Section ChangeColorspaceAugmenter.
Context {ext : Externals}.

(** [ChangeColorspace.__init__(to_colorspace, from_colorspace, alpha=1.0,
    deterministic=True, random_state=...)] *)
Definition ChangeColorspace_init (to_colorspace : to_colorspace_arg)
    (from_colorspace : string) (random_state : RNG)
  : result ChangeColorspace :=
  (* iap.handle_continuous_param(1.0, ...) *)
  let alpha : StochasticParameter float := Deterministic 1%float in
  to_colorspace ←
    match to_colorspace with
    | ToCspace s =>
        assert_ (bool_decide (s ∈ CSPACE_ALL))
          "Expected 'to_colorspace' to be one of the colorspaces";;
        Ok (Deterministic s)
    | ToCspaces l =>
        assert_ (forallb (fun colorspace => bool_decide (colorspace ∈ CSPACE_ALL)) l)
          "Expected list of 'to_colorspace' to only contain strings that are colorspaces";;
        Ok (iap_Choice l)
    | ToParameter p => Ok p
    end;
  assert_ (bool_decide (from_colorspace ∈ CSPACE_ALL))
    "Expected from_colorspace to be one of the colorspaces";;
  assert_ (bool_decide (from_colorspace ≠ CSPACE_GRAY))
    "Cannot convert from grayscale images to other colorspaces.";;
  Ok {| cc_alpha := alpha; cc_to_colorspace := to_colorspace;
        cc_from_colorspace := from_colorspace;
        (* epsilon value to check if alpha is close to 1.0 or 0.0 *)
        cc_eps := 0x1.0624dd2f1a9fcp-10%float;  (* 0.001 *)
        cc_random_state := random_state |}.

Definition ChangeColorspace_draw_samples (self : ChangeColorspace)
    (n_augmentables : Z) (random_state : RNG)
  : result (list float * list string) :=
  let rss := rng_duplicate random_state 2 in
  rs0 ← py_index rss 0;
  let alphas := draw_samples (cc_alpha self) [n_augmentables] rs0 in
  rs1 ← py_index rss 1;
  let to_colorspaces :=
    draw_samples (cc_to_colorspace self) [n_augmentables] rs1 in
  Ok (alphas, to_colorspaces).

Fixpoint ChangeColorspace_loop (self : ChangeColorspace)
    (alphas : list float) (to_colorspaces : list string)
    (images : list ndarray) (idx : list nat) (result_ : list ndarray)
  : result (list ndarray) :=
  match idx with
  | [] => Ok result_
  | i :: idx' =>
      alpha ← py_index alphas (Z.of_nat i);
      to_colorspace ← py_index to_colorspaces (Z.of_nat i);
      image ← py_index images (Z.of_nat i);
      assert_ (bool_decide (to_colorspace ∈ CSPACE_ALL))
        "Expected 'to_colorspace' to be one of the colorspaces";;
      if PrimFloat.leb alpha (cc_eps self)
         || bool_decide (cc_from_colorspace self = to_colorspace)
      then (* no change necessary *)
        ChangeColorspace_loop self alphas to_colorspaces images idx' result_
      else
        image_aug ← change_colorspace_ image to_colorspace (cc_from_colorspace self);
        let blended := blend_alpha image_aug image alpha (cc_eps self) in
        ChangeColorspace_loop self alphas to_colorspaces images idx'
          (<[i := blended]> result_)
  end.

(** [ChangeColorspace._augment_images]: [result] and [images] name the same
    list, which is returned. *)
Definition ChangeColorspace_augment_images (self : ChangeColorspace)
    (images : list ndarray) (random_state : RNG) : result (list ndarray) :=
  let nb_images := length images in
  '(alphas, to_colorspaces) ←
    ChangeColorspace_draw_samples self (Z.of_nat nb_images) random_state;
  ChangeColorspace_loop self alphas to_colorspaces images (seq 0 nb_images) images.

(** Modelled from the spec: [meta.Augmenter.augment_image] (imgaug
    .augmenters.meta, not under src/): the augmenter is applied to the batch
    made of the one image; a deterministic augmenter starts every call from
    its own fixed random state.  [meta.Noop] returns its input. *)
Definition augment_image (aug : augmenter) (image : ndarray) : result ndarray :=
  match aug with
  | Noop => Ok image
  | ChangeColorspace_ cs =>
      images ← ChangeColorspace_augment_images cs [image]
                 (rng_copy (cc_random_state cs));
      py_index images 0
  end.

End ChangeColorspaceAugmenter.

(** ** Colour quantization *)

Definition py_last (l : list Z) : result Z := py_index l (-1).

(** [a.reshape(shape_of image)] of the samples [flat], in row-major order. *)
Definition reshape_like (image : ndarray) (flat : list Z) : result ndarray :=
  match image with
  | Array2 d rows =>
      let h := length rows in
      let w := length (hd [] rows) in
      if bool_decide (length flat = (h * w)%nat)
      then Ok (Array2 d (chunk w h flat)) else Raise ValueError
  | Array3 d rows =>
      let h := length rows in
      let w := length (hd [] rows) in
      let c := length (hd [] (hd [] rows)) in
      if bool_decide (length flat = (h * w * c)%nat)
      then Ok (Array3 d (chunk w h (chunk c (h * w) flat))) else Raise ValueError
  end.

(** [image.reshape((-1, nb_channels))]: the list of the colours. *)
Definition colors_of (image : ndarray) : list (list Z) :=
  match image with
  | Array2 _ rows => map (fun v => [v]) (concat rows)
  | Array3 _ rows => concat rows
  end.

Section Quantizers.
Context {ext : Externals}.

(** [quantize_colors_kmeans(image, n_colors, n_max_iter=10, eps=1.0)].
    (The seed of OpenCV's generator is set to 1 before the clustering and
    to a fresh seed afterwards; only the clustering depends on it.) *)
Definition quantize_colors_kmeans_with (image : ndarray) (n_colors : Z)
    (n_max_iter : Z) (eps : float) : result ndarray :=
  assert_ (bool_decide (ndim image ∈ [2; 3]))
    "Expected two- or three-dimensional image shape";;
  assert_ (String.eqb (dtype_name image) "uint8") "Expected uint8 image";;
  assert_ ((2 <=? n_colors) && (n_colors <=? 256))
    "Expected n_colors to be in the discrete interval [2..256].";;
  (* without this check, kmeans throws an exception *)
  let n_pixels := foldr Z.mul 1 (take 2 (shape image)) in
  if n_pixels <=? n_colors then Ok (np_copy image)
  else
    let colors := colors_of image in
    let '(labels, centers) := cv2_kmeans colors n_colors n_max_iter eps in
    (* np.array(centers, dtype=image.dtype) *)
    let centers_uint8 := map (map (fun c => wrap_uint8 (Float.trunc c))) centers in
    (* centers_uint8[labels.flatten()] *)
    quantized_flat ← mapM (py_index centers_uint8) labels;
    reshape_like image (concat quantized_flat).

Definition quantize_colors_kmeans (image : ndarray) (n_colors : Z)
  : result ndarray :=
  quantize_colors_kmeans_with image n_colors 10 1%float.

(** One sample of [quantize_colors_uniform], as a float:
    [q = 256 / n_colors],
    [np.floor(image.astype(np.float32) / q) * q + q/2], then
    [np.clip(np.round(.), 0, 255)].  [q] is a [float64] scalar; [fmt] is the
    format of the operations between the [float32] array and [q]. *)
Definition quantize_float (fmt : Float.format) (n_colors v : float) : float :=
  let q := PrimFloat.div 256%float n_colors in
  let x := Float.rnd Float.binary32 v in
  let image_aug :=
    Float.add fmt
      (Float.mul fmt (Float.floor (Float.div fmt x (Float.rnd fmt q)))
                 (Float.rnd fmt q))
      (Float.rnd fmt (PrimFloat.div q 2%float)) in
  Float.clip (Float.round_even image_aug) 0%float 255%float.

(** The sample after [.astype(np.uint8)]. *)
Definition quantize_value (n_colors : Z) (v : Z) : Z :=
  wrap_uint8 (Float.trunc
    (quantize_float np_array_scalar_format (Float.of_Z n_colors) (Float.of_Z v))).

Definition quantize_colors_uniform (image : ndarray) (n_colors : Z)
  : result ndarray :=
  assert_ (String.eqb (dtype_name image) "uint8") "Expected uint8 image";;
  assert_ ((2 <=? n_colors) && (n_colors <=? 256))
    "Expected n_colors to be in the discrete interval [2..256].";;
  let n_colors := np_clip n_colors (Some 2) (Some 256) in
  if n_colors =? 256 then Ok (np_copy image)
  else Ok (set_dtype "uint8" (map_array (quantize_value n_colors) image)).

End Quantizers.

(** [_AbstractColorQuantization]; the abstract method [_quantize] is a field. *)
Record ColorQuantization `{Externals} : Type := {
  n_colors : StochasticParameter Z;
  q_from_colorspace : string;
  q_to_colorspace : option to_colorspace_arg;
  max_size : option Z;
  interpolation : string;
  _quantize : ndarray → Z → result ndarray;
}.

Section AbstractColorQuantization.
Context {ext : Externals}.

(** [_AbstractColorQuantization.__init__] *)
Definition AbstractColorQuantization_init (n_colors : discrete_arg)
    (from_colorspace : string) (to_colorspace : option to_colorspace_arg)
    (max_size : option Z) (interpolation : string)
    (_quantize : ndarray → Z → result ndarray) : result ColorQuantization :=
  n_colors ← handle_discrete_param n_colors "n_colors" (Some 2) None;
  Ok {| n_colors := n_colors; q_from_colorspace := from_colorspace;
        q_to_colorspace := to_colorspace; max_size := max_size;
        interpolation := interpolation; _quantize := _quantize |}.

(** [KMeansColorQuantization(n_colors, from_colorspace, to_colorspace,
    max_size, interpolation)] and [UniformColorQuantization(...)] *)
Definition KMeansColorQuantization_init n_colors from_colorspace
    to_colorspace max_size interpolation : result ColorQuantization :=
  AbstractColorQuantization_init n_colors from_colorspace to_colorspace
    max_size interpolation quantize_colors_kmeans.

Definition UniformColorQuantization_init n_colors from_colorspace
    to_colorspace max_size interpolation : result ColorQuantization :=
  AbstractColorQuantization_init n_colors from_colorspace to_colorspace
    max_size interpolation quantize_colors_uniform.


(** [_ensure_max_size] *)
Definition _ensure_max_size (image : ndarray) (max_size : option Z)
    (interpolation : string) : result ndarray :=
  match max_size with
  | Some max_size =>
      shape0 ← py_index (shape image) 0;
      shape1 ← py_index (shape image) 1;
      let size := Z.max shape0 shape1 in
      if max_size <? size then
        let resize_factor :=
          PrimFloat.div (Float.of_Z max_size) (Float.of_Z size) in
        let new_height :=
          Float.trunc (PrimFloat.mul (Float.of_Z shape0) resize_factor) in
        let new_width :=
          Float.trunc (PrimFloat.mul (Float.of_Z shape1) resize_factor) in
        imresize_single_image image (new_height, new_width) interpolation
      else Ok image
  | None => Ok image
  end.

(** The two augmenters [cs] and [cs_inv] of [_augment_single_image]. *)
Definition colorspace_augmenters (self : ColorQuantization)
    (random_state : RNG) : result (augmenter * augmenter) :=
  match q_to_colorspace self with
  | None => Ok (Noop, Noop)
  | Some to_colorspace =>
      cs ← ChangeColorspace_init to_colorspace (q_from_colorspace self)
             (rng_copy random_state);
      '(_, to_colorspaces) ←
        ChangeColorspace_draw_samples cs 1 (rng_copy random_state);
      to_colorspace0 ← py_index to_colorspaces 0;
      cs_inv ← ChangeColorspace_init (ToCspace (q_from_colorspace self))
                 to_colorspace0 (rng_copy random_state);
      Ok (ChangeColorspace_ cs, ChangeColorspace_ cs_inv)
  end.

(** The colour planes: [cs], [_quantize], [cs_inv]. *)
Definition quantize_in_colorspace (self : ColorQuantization)
    (image : ndarray) (n_colors : Z) (random_state : RNG) : result ndarray :=
  '(cs, cs_inv) ← colorspace_augmenters self random_state;
  image_tf ← augment_image cs image;
  image_tf_aug ← _quantize self image_tf n_colors;
  augment_image cs_inv image_tf_aug.

Definition _augment_single_image (self : ColorQuantization)
    (image : ndarray) (n_colors : Z) (random_state : RNG) : result ndarray :=
  channels ← py_last (shape image);
  assert_ (bool_decide (channels ∈ [1; 3; 4]))
    "Expected image with 1, 3 or 4 channels";;
  let orig_shape := shape image in
  image ← _ensure_max_size image (max_size self) (interpolation self);
  channels ← py_last (shape image);
  image_aug ←
    (if channels =? 1 then
       (* 2D image *)
       _quantize self image n_colors
     else
       (* 3D image with 3 or 4 channels *)
       '(alpha_channel, image) ←
         (if channels =? 4 then
            alpha_channel ← slice_channels 3 4 image;
            image ← slice_channels 0 3 image;
            Ok (Some alpha_channel, image)
          else Ok (None, image));
       image_aug ← quantize_in_colorspace self image n_colors random_state;
       match alpha_channel with
       | Some alpha_channel => concatenate_axis2 image_aug alpha_channel
       | None => Ok image_aug
       end);
  if bool_decide (orig_shape ≠ shape image_aug) then
    h ← py_index orig_shape 0;
    w ← py_index orig_shape 1;
    imresize_single_image image_aug (h, w) (interpolation self)
  else Ok image_aug.



End AbstractColorQuantization.

(** ** A concrete environment

    Used to run the functions on explicit inputs.  Every choice below is one
    that the real collaborators could make on the inputs concerned. *)

(** Resampling by nearest neighbour: the sample at [(i, j)] of the result is
    the one at [(i * h / new_h, j * w / new_w)] of the source. *)
Definition resample {A} (new_len : Z) (l : list A) : list A :=
  let len := Z.of_nat (length l) in
  omap (fun i => l !! Z.to_nat (i * len / new_len)) (py_range 0 new_len).

(** Modelled from the spec: [ia.imresize_single_image] (imgaug.imgaug, not
    under src/): the image brought to the requested height and width; the
    interpolation taken here is nearest neighbour. *)
Definition imresize_nearest (image : ndarray) (size : Z * Z)
    (interpolation : string) : result ndarray :=
  let '(height, width) := size in
  if (0 <? height) && (0 <? width) then
    match image with
    | Array2 d rows => Ok (Array2 d (map (resample width) (resample height rows)))
    | Array3 d rows => Ok (Array3 d (map (resample width) (resample height rows)))
    end
  else Raise ValueError.

(** A stand-in for OpenCV's conversions: grey values are the first channel,
    every other conversion leaves the samples as they are. *)
Definition cvtColor_example (image : ndarray) (code : string) : ndarray :=
  if bool_decide (code ∈ ["COLOR_RGB2GRAY"; "COLOR_BGR2GRAY"]) then
    match image with
    | Array3 d rows => Array2 d (map (map (fun px => default 0 (px !! 0%nat))) rows)
    | Array2 _ _ => image
    end
  else image.

#[local] Instance example_externals : Externals := {|
  cv2_hasattr := fun _ => true;
  cv2_cvtColor := cvtColor_example;
  cv2_cvtColor_into_dst := fun src code dst =>
    bool_decide (shape (cvtColor_example src code) = shape dst) &&
    String.eqb (dtype_name (cvtColor_example src code)) (dtype_name dst);
  cv2_kmeans := fun colors K _ _ =>
    (map (fun _ => 0) colors,
     replicate (Z.to_nat K) (replicate (length (hd [] colors)) 0%float));
  imresize_single_image := imresize_nearest;
  blend_alpha := fun image_fg _ _ _ => image_fg;
  RNG := unit;
  rng_duplicate := fun rs n => replicate (Z.to_nat n) rs;
  rng_copy := fun rs => rs;
  iap_Choice := fun a size _ =>
    replicate (Z.to_nat (foldr Z.mul 1 size)) (hd "" a);
  np_array_scalar_format := Float.binary32;
|}.

(** A parameter that returns the given samples, whatever the size asked for. *)
Definition samples_of `{Externals} {A} (l : list A) : StochasticParameter A :=
  fun _ _ => l.

(** One pixel, as a three-channel [uint8] image. *)
Definition image_1x1 : ndarray := Array3 "uint8" [[[100; 50; 7]]].

(** OpenCV's conversion between RGB and BGR reverses the channels; this
    stand-in does so for every code. *)
Definition cvtColor_reverse (image : ndarray) (code : string) : ndarray :=
  match image with
  | Array3 d rows => Array3 d (map (map reverse) rows)
  | Array2 _ _ => image
  end.

(** An environment whose OpenCV reverses the channels, puts the result into
    the buffer it is given when the result has its shape and dtype, and has
    no constant for the conversion from RGB to Lab. *)
Definition inplace_externals : Externals := {|
  cv2_hasattr := fun name =>
    negb (bool_decide (name ∈ ["COLOR_RGB2LAB"; "COLOR_RGB2Lab"]));
  cv2_cvtColor := cvtColor_reverse;
  cv2_cvtColor_into_dst := fun src code dst =>
    bool_decide (shape (cvtColor_reverse src code) = shape dst) &&
    String.eqb (dtype_name (cvtColor_reverse src code)) (dtype_name dst);
  cv2_kmeans := fun colors K _ _ =>
    (map (fun _ => 0) colors,
     replicate (Z.to_nat K) (replicate (length (hd [] colors)) 0%float));
  imresize_single_image := imresize_nearest;
  blend_alpha := fun image_fg _ _ _ => image_fg;
  RNG := unit;
  rng_duplicate := fun rs n => replicate (Z.to_nat n) rs;
  rng_copy := fun rs => rs;
  iap_Choice := fun a size _ =>
    replicate (Z.to_nat (foldr Z.mul 1 size)) (hd "" a);
  np_array_scalar_format := Float.binary32;
|}.

(** Two images of one pixel. *)
Definition image_10_20_30 : ndarray := Array3 "uint8" [[[10; 20; 30]]].
Definition image_1_2_3 : ndarray := Array3 "uint8" [[[1; 2; 3]]].

(** [AddToHueAndSaturation(value=p)] for a parameter [p] whose samples for
    a batch of two images are [[0, 0], [300, 300]]: the second image gets
    an amount outside [-255, 255]. *)
Definition add_value_out_of_range : AddToHueAndSaturation :=
  {| value := Some (samples_of [0; 0; 300; 300]);
     value_hue := None; value_saturation := None;
     per_channel := Deterministic 0;
     from_colorspace := CSPACE_RGB;
     _LUT_CACHE := _generate_lut_table |}.

(** A 2x2 image with an alpha channel that differs from pixel to pixel. *)
Definition image_2x2_alpha : ndarray :=
  Array3 "uint8"
    [[[1; 2; 3; 10]; [4; 5; 6; 20]]; [[7; 8; 9; 30]; [10; 11; 12; 40]]].

(** [UniformColorQuantization(n_colors=p, max_size=max_size)] with the
    defaults [from_colorspace=RGB], [to_colorspace=None],
    [interpolation="linear"], for a parameter [p] with the given samples. *)
Definition uniform_quantizer (samples : list Z) (max_size : option Z)
  : ColorQuantization :=
  {| n_colors := samples_of samples;
     q_from_colorspace := CSPACE_RGB;
     q_to_colorspace := None;
     max_size := max_size;
     interpolation := "linear";
     _quantize := quantize_colors_uniform |}.

(** ** Support for proofs by enumeration *)

(** The integer in [lo, hi] whose float is the largest one not above [c],
    found by bisection. *)
Fixpoint float_index_between (fuel : nat) (lo hi : Z) (c : float) : Z :=
  match fuel with
  | O => lo
  | S fuel =>
      if lo =? hi then lo
      else
        let mid := (lo + hi + 1) / 2 in
        if PrimFloat.leb (Float.of_Z mid) c
        then float_index_between fuel mid hi c
        else float_index_between fuel lo (mid - 1) c
  end.

Definition float_index (c : float) : Z := float_index_between 9 0 255 c.

(** For the sample [v] and [n_colors] colours: the quantized float [c] is the
    float of an integer of [0, 255], and quantizing [c] again gives [c]. *)
Definition idempotent_at (fmt : Float.format) (n_colors : float) (v : Z) : bool :=
  let c := quantize_float fmt n_colors (Float.of_Z v) in
  let z := float_index c in
  (0 <=? z) && (z <=? 255)
  && PrimFloat.Leibniz.eqb (Float.of_Z z) c
  && PrimFloat.Leibniz.eqb (quantize_float fmt n_colors c) c.

Definition idempotent_for (fmt : Float.format) (n_colors : Z) : bool :=
  forallb (idempotent_at fmt (Float.of_Z n_colors)) (py_range 0 256).

(** The colourspace tags, as a list. *)
Definition cspaces : list string :=
  [CSPACE_RGB; CSPACE_BGR; CSPACE_GRAY; CSPACE_YCrCb; CSPACE_HSV;
   CSPACE_HLS; CSPACE_Lab; CSPACE_Luv; CSPACE_YUV; CSPACE_CIE].

(** For a pair of tags: the tags are equal, or the source is GRAY, or the
    table has the pair, or it has both legs over RGB. *)
Definition route_check (from_cs to_cs : string) : bool :=
  String.eqb from_cs to_cs || String.eqb from_cs CSPACE_GRAY ||
  match conv_vars_refs !! (from_cs, to_cs) with
  | Some _ => true
  | None =>
      match conv_vars_refs !! (from_cs, CSPACE_RGB),
            conv_vars_refs !! (CSPACE_RGB, to_cs) with
      | Some _, Some _ => true
      | _, _ => false
      end
  end.

(** The conversion of one element of the batch succeeds with [out]. *)
Definition converts_to {ext : Externals} (x : ndarray * string * string) (out : ndarray) : Prop :=
  change_colorspace_ x.1.1 x.1.2 x.2 = Ok out.

(** The conversion of one element of the batch raises [e]. *)
Definition converts_to_fails {ext : Externals}
    (x : ndarray * string * string) (e : exn) : Prop :=
  change_colorspace_ x.1.1 x.1.2 x.2 = Raise e.

(** What a raising call can leave in the array it was given: the array as
    it was, or the result of one or of both legs of the conversion. *)
Definition left_by_failure {ext : Externals} (a b : ndarray) : Prop :=
  b = a ∨ (∃ c, b = cv2_cvtColor a c)
  ∨ (∃ c1 c2, b = cv2_cvtColor (cv2_cvtColor a c1) c2).

(** A call of [change_colorspace_] on the array [r] took the store [h] to
    [h'] with the outcome [res]: no other array has changed; the array
    returned is [r] or a new one and holds what [change_colorspace_]
    computes from the contents of [r]. *)
Definition call_spec {ext : Externals} (r : nat) (t f : string)
    (h h' : list Store.array_object) (res : result nat) : Prop :=
  (length h ≤ length h')%nat
  ∧ (∀ j, (j < length h)%nat → j ≠ r → h' !! j = h !! j)
  ∧ match res with
    | Ok r' =>
        (r' < length h')%nat ∧ (r' = r ∨ (length h ≤ r')%nat)
        ∧ change_colorspace_ (Store.contents (h !!! r)) t f
          = Ok (Store.contents (h' !!! r'))
    | Raise e =>
        change_colorspace_ (Store.contents (h !!! r)) t f = Raise e
        ∧ left_by_failure (Store.contents (h !!! r)) (Store.contents (h' !!! r))
    end.

(** The elements of the batch with the contents of their arrays. *)
Definition values_of (h : list Store.array_object)
    (gen : list (nat * string * string)) : list (ndarray * string * string) :=
  (fun x => (Store.contents (h !!! x.1.1), x.1.2, x.2)) <$> gen.

(** The colourspace of each image that an argument stands for, and whether
    the argument fits a batch of [n] images. *)
Definition per_image (n : nat) (arg : cspace_arg) : list string :=
  match arg with
  | OneCspace s => replicate n s
  | ListOfCspaces l => l
  end.

Definition fits (n : nat) (arg : cspace_arg) : Prop :=
  match arg with
  | OneCspace _ => True
  | ListOfCspaces l => length l = n
  end.

(** The projection of a sampled amount is the truncated quotient, within
    [-180, 180]. *)
Definition hue_projection_check (shift : Z) : bool :=
  (project_hue_sample shift =? (shift * 180) ÷ 255)
  && (-180 <=? (shift * 180) ÷ 255) && ((shift * 180) ÷ 255 <=? 180).

(** ** Images as the augmenters expect them *)

(** A [uint8] image with three channels, of any height and width. *)
Definition uint8_color_image (a : ndarray) : Prop := ∃ H W, uint8_image H W 3 a.

(** Every hue of the image is below 180, as OpenCV has it. *)
Definition hue_below_180 (a : ndarray) : Prop :=
  match a with
  | Array3 _ rows =>
      Forall (Forall (fun px => match px with h :: _ => h < 180 | [] => True end)) rows
  | Array2 _ _ => True
  end.

(** [np.clip(a, lo, hi)] on an array. *)
Definition np_clip_array (a : ndarray) (lo hi : Z) : ndarray :=
  map_array (fun v => np_clip v (Some lo) (Some hi)) a.

(** ** Augmenters with children *)

(** [_is_propagating]: [hooks is None or hooks.is_propagating(augmentables,
    augmenter=self, parents=parents, default=True)].  The hooks are given by
    the answer of their method [is_propagating] for this augmenter and these
    parents. *)
Definition _is_propagating {A} (augmentables : A) (hooks : option (A → bool))
  : bool :=
  match hooks with
  | None => true
  | Some is_propagating => is_propagating augmentables
  end.

Section WithColorspace.
Context {ext : Externals}.

(** [WithColorspace._augment_images]; [children] stands for
    [self.children.augment_images] with its [parents] and [hooks]. *)
Definition WithColorspace_augment_images (to_colorspace from_colorspace : string)
    (children : list ndarray → result (list ndarray))
    (hooks : option (list ndarray → bool)) (images : list ndarray)
  : result (list ndarray) :=
  if _is_propagating images hooks then
    result_ ← change_colorspaces_result images
                (OneCspace to_colorspace) (OneCspace from_colorspace);
    result_ ← children result_;
    change_colorspaces_result result_
      (OneCspace from_colorspace) (OneCspace to_colorspace)
  else Ok images.

End WithColorspace.

(** *** [WithHueAndSaturation] *)

(** [a[:, :, k]]: the plane of channel [k] of a rank-3 array. *)
Definition channel (k : nat) (a : ndarray) : result ndarray :=
  match a with
  | Array3 d rows =>
      if bool_decide (Z.of_nat k < default 0 (shape a !! 2%nat))
      then Ok (Array2 d (map (map (fun px => default 0 (px !! k))) rows))
      else Raise IndexError
  | Array2 _ _ => Raise IndexError
  end.

(** [np.stack([a, b], axis=-1)] and [np.stack([a, b, c], axis=-1)] for
    planes of the same shape.  The planes have the same dtype at both call
    sites; NumPy would promote differing dtypes, which the model reports as
    [TypeError]. *)
Definition np_stack_last2 (a b : ndarray) : result ndarray :=
  match a, b with
  | Array2 da ra, Array2 db rb =>
      if bool_decide (shape a = shape b) then
        if String.eqb da db
        then Ok (Array3 da (zip_with (zip_with (fun x y => [x; y])) ra rb))
        else Raise TypeError
      else Raise ValueError
  | _, _ => Raise ValueError
  end.

Definition np_stack_last3 (a b c : ndarray) : result ndarray :=
  match a, b, c with
  | Array2 da ra, Array2 db rb, Array2 dc rc =>
      if bool_decide (shape a = shape b ∧ shape a = shape c) then
        if String.eqb da db && String.eqb da dc
        then Ok (Array3 da
                   (zip_with (zip_with (fun xy z => xy ++ [z]))
                      (zip_with (zip_with (fun x y => [x; y])) ra rb) rc))
        else Raise TypeError
      else Raise ValueError
  | _, _, _ => Raise ValueError
  end.

(** The body of the loop [for image_hsv in images_hsv]: the planes of hue
    and saturation as [int16], the hue projected to the range [0, 255]. *)
Definition hue_and_sat_of (image_hsv : ndarray) : result ndarray :=
  let image_hsv := astype "int16" image_hsv in
  hue ← channel 0 image_hsv;
  let hue := set_dtype "int16" (map_array hue_to_255 hue) in
  saturation ← channel 1 image_hsv;
  np_stack_last2 hue saturation.

Section WithHueAndSaturation.
Context {ext : Externals}.

(** [iadt.clip_(array, min_value, max_value)] of imgaug.dtypes *)
Variable iadt_clip_ : ndarray → Z → Z → ndarray.

(** The body of the loop [for i, hs_aug in enumerate(hue_and_sat_aug)]. *)
Definition hsv_of_hue_and_sat (images_hsv : list ndarray) (i : nat)
    (hs_aug : ndarray) : result ndarray :=
  hue_aug ← channel 0 hs_aug;
  sat_aug ← channel 1 hs_aug;
  let hue_aug := set_dtype "uint8" (map_array hue_from_255 hue_aug) in
  let sat_aug := astype "uint8" (iadt_clip_ sat_aug 0 255) in
  image_hsv ← py_index images_hsv (Z.of_nat i);
  value_ ← channel 2 image_hsv;
  np_stack_last3 hue_aug sat_aug value_.

Fixpoint WithHueAndSaturation_project (images_hsv : list ndarray) (i : nat)
    (hue_and_sat_aug : list ndarray) : result (list ndarray) :=
  match hue_and_sat_aug with
  | [] => Ok []
  | hs_aug :: rest =>
      hsv ← hsv_of_hue_and_sat images_hsv i hs_aug;
      proj ← WithHueAndSaturation_project images_hsv (S i) rest;
      Ok (hsv :: proj)
  end.

(** [WithHueAndSaturation._augment_images] for a list of images;
    [children] stands for [self.children.augment_images] with its [parents]
    and [hooks]. *)
Definition WithHueAndSaturation_augment_images (from_colorspace : string)
    (children : list ndarray → result (list ndarray))
    (hooks : option (list ndarray → bool)) (images : list ndarray)
  : result (list ndarray) :=
  if _is_propagating images hooks then
    (* RGB (or other source colorspace) -> HSV *)
    images_hsv ← change_colorspaces_result images
                   (OneCspace CSPACE_HSV) (OneCspace from_colorspace);
    (* HSV -> HS *)
    hue_and_sat ← mapM hue_and_sat_of images_hsv;
    (* apply child augmenters to HS *)
    hue_and_sat_aug ← children hue_and_sat;
    (* postprocess augmented HS int16 data *)
    hue_and_sat_proj ← WithHueAndSaturation_project images_hsv 0 hue_and_sat_aug;
    (* HSV -> RGB (or whatever the source colorspace was) *)
    change_colorspaces_result hue_and_sat_proj
      (OneCspace from_colorspace) (OneCspace CSPACE_HSV)
  else Ok images.

End WithHueAndSaturation.

(** The planes of hue and saturation of a pixel, as the children get them. *)
Definition hue_and_sat_pixel (px : list Z) : list Z :=
  [hue_to_255 (default 0 (px !! 0%nat)); default 0 (px !! 1%nat)].

(** The hue after the two projections, the rest of the pixel as it is. *)
Definition project_pixel (px : list Z) : list Z :=
  match px with
  | h :: rest => hue_from_255 (hue_to_255 h) :: rest
  | [] => []
  end.

(** The same in closed form, for a hue below 180. *)
Definition hue_round_trip (px : list Z) : list Z :=
  match px with
  | h :: rest => (if h mod 12 =? 0 then h else h - 1) :: rest
  | [] => []
  end.

Definition hue_round_trip_check (h : Z) : bool :=
  hue_from_255 (hue_to_255 h) =? (if h mod 12 =? 0 then h else h - 1).



(** ** [AddToSaturation], [Grayscale] *)

Section ShortcutAugmenters.
Context {ext : Externals}.

(** [AddToSaturation.__init__(value, from_colorspace)] *)
Definition AddToSaturation_init (value : discrete_arg) (from_colorspace : string)
  : result AddToHueAndSaturation :=
  AddToHueAndSaturation_init None None (Some value) (Deterministic 0)
    from_colorspace.

(** [ChangeColorspace.__init__(to_colorspace, from_colorspace, alpha)] for
    any [alpha], given as the parameter that [iap.handle_continuous_param]
    returns for it: as [ChangeColorspace_init], which has [alpha=1.0]. *)
Definition ChangeColorspace_init_alpha (to_colorspace : to_colorspace_arg)
    (from_colorspace : string) (alpha : StochasticParameter float)
    (random_state : RNG) : result ChangeColorspace :=
  cs ← ChangeColorspace_init to_colorspace from_colorspace random_state;
  Ok {| cc_alpha := alpha; cc_to_colorspace := cc_to_colorspace cs;
        cc_from_colorspace := cc_from_colorspace cs; cc_eps := cc_eps cs;
        cc_random_state := cc_random_state cs |}.

(** [Grayscale.__init__(alpha, from_colorspace)]; the default of [alpha]
    is 0. *)
Definition Grayscale_init (alpha : StochasticParameter float)
    (from_colorspace : string) (random_state : RNG) : result ChangeColorspace :=
  ChangeColorspace_init_alpha (ToCspace CSPACE_GRAY) from_colorspace alpha
    random_state.

End ShortcutAugmenters.

(** ** Support for the further proofs by enumeration *)

(** The hue and saturation step on one pixel, for amounts in range. *)
Definition shift_pixel (hue saturation : Z) (px : list Z) : list Z :=
  match px with
  | h :: s :: rest =>
      (h + hue) mod 180 :: Z.min 255 (Z.max 0 (s + saturation)) :: rest
  | _ => px
  end.

(** The quantized sample for a given format of the arithmetic. *)
Definition quantize_value_in (fmt : Float.format) (n_colors v : Z) : Z :=
  wrap_uint8 (Float.trunc
    (quantize_float fmt (Float.of_Z n_colors) (Float.of_Z v))).

(** The values of a list with the repetitions of neighbours removed. *)
Fixpoint dedup_adjacent (l : list Z) : list Z :=
  match l with
  | [] => []
  | x :: l' =>
      match l' with
      | y :: _ => if x =? y then dedup_adjacent l' else x :: dedup_adjacent l'
      | [] => [x]
      end
  end.

Fixpoint sorted_from (prev : Z) (l : list Z) : bool :=
  match l with
  | [] => true
  | x :: l' => (prev <=? x) && sorted_from x l'
  end.

(** The value at position [k] of the list is within [(256 + n) / (2 n)] of
    [v + k]. *)
Fixpoint close_from (n v : Z) (l : list Z) : bool :=
  match l with
  | [] => true
  | x :: l' => (2 * n * Z.abs (x - v) <=? 256 + n) && close_from n (v + 1) l'
  end.

(** For [n] colours: the quantized samples of 0..255 are close to the
    samples, in ascending order, and take at most [n] values. *)
Definition uniform_check (fmt : Float.format) (n : Z) : bool :=
  let zs := map (quantize_value_in fmt n) (py_range 0 256) in
  close_from n 0 zs && sorted_from 0 zs
  && (Z.of_nat (length (dedup_adjacent zs)) <=? n).

(** [int(extent * (max_size / size))], the new extent of an axis in
    [_ensure_max_size]. *)
Definition resized_extent (max_size size extent : Z) : Z :=
  Float.trunc
    (PrimFloat.mul (Float.of_Z extent)
       (PrimFloat.div (Float.of_Z max_size) (Float.of_Z size))).

(** For the longer side [size] and every [max_size] below it: the longer
    side becomes [max_size] or [max_size - 1], and a side of one pixel
    becomes 0. *)
Definition resized_extent_check (size : Z) : bool :=
  forallb
    (fun max_size =>
       let e := resized_extent max_size size size in
       ((e =? max_size) || (e =? max_size - 1))
       && (resized_extent max_size size 1 =? 0))
    (py_range 1 size).

(** The longer sides up to 400 that [max_size=128] brings to 127 instead
    of 128. *)
Definition sizes_one_short_128 : list Z :=
  [161; 187; 196; 197; 206; 214; 237; 239; 249; 253; 322; 347; 374; 389;
   392; 394].

Definition resized_extent_128_check (size : Z) : bool :=
  resized_extent 128 size size
  =? (if bool_decide (size ∈ sizes_one_short_128) then 127 else 128).

(** ** Further concrete inputs *)

(** [Grayscale()] with its defaults [alpha=0], [from_colorspace=RGB]. *)
Definition grayscale_default : ChangeColorspace :=
  {| cc_alpha := Deterministic 0%float;
     cc_to_colorspace := Deterministic CSPACE_GRAY;
     cc_from_colorspace := CSPACE_RGB;
     cc_eps := 0x1.0624dd2f1a9fcp-10%float;
     cc_random_state := tt |}.

(** [UniformColorQuantization(n_colors=2, to_colorspace=GRAY,
    max_size=None)]. *)
Definition gray_quantizer : ColorQuantization :=
  {| n_colors := samples_of [2];
     q_from_colorspace := CSPACE_RGB;
     q_to_colorspace := Some (ToCspace CSPACE_GRAY);
     max_size := None;
     interpolation := "linear";
     _quantize := quantize_colors_uniform |}.

(** A column of 161 pixels. *)
Definition image_161x1 : ndarray :=
  Array3 "uint8" (replicate 161 [[0; 0; 0]]).

(** * Properties *)

(** ** Monad and array facts *)

Ltac result_simpl :=
  cbn [mbind mret result_bind result_ret fmap result_fmap option_fmap
       option_map assert_ fst snd].

Lemma assert_true msg : assert_ true msg = Ok tt.
Proof. reflexivity. Qed.

Lemma shape_uint8_image H W C image :
  uint8_image H W C image →
  shape image = [Z.of_nat H; Z.of_nat W; Z.of_nat C] ∧ dtype_name image = "uint8"
  ∧ ndim image = 3.
Proof.
  destruct image as [d rows|d rows]; simpl; [tauto|].
  intros (-> & HH & HW & [Hlen Hrows] & _).
  destruct rows as [|row rows]; simpl in *; [lia|].
  apply Forall_cons in Hrows as [[Hrow Hpx] _].
  destruct row as [|px row]; simpl in *; [lia|].
  apply Forall_cons in Hpx as [Hpx _].
  subst. auto.
Qed.

(** ** The colourspace converter *)

Section ConverterFacts.
Context {ext : Externals}.

Lemma cspace_cases (s : string) :
  s ∈ CSPACE_ALL →
  s = CSPACE_RGB ∨ s = CSPACE_BGR ∨ s = CSPACE_GRAY ∨ s = CSPACE_YCrCb ∨
  s = CSPACE_HSV ∨ s = CSPACE_HLS ∨ s = CSPACE_Lab ∨ s = CSPACE_Luv ∨
  s = CSPACE_YUV ∨ s = CSPACE_CIE.
Proof.
  unfold CSPACE_ALL. rewrite !elem_of_union, !elem_of_singleton. tauto.
Qed.

(** The checks that precede the conversion pass for a [uint8] image of
    three channels and valid tags. *)
Lemma change_colorspace_checked H W image to_cs from_cs :
  uint8_image H W 3 image →
  to_cs ∈ CSPACE_ALL → from_cs ∈ CSPACE_ALL → from_cs ≠ CSPACE_GRAY →
  change_colorspace_ image to_cs from_cs =
  if bool_decide (from_cs = to_cs) then Ok image
  else
    image_aug ←
      match _CSPACE_OPENCV_CONV_VARS !! (from_cs, to_cs) with
      | Some from2to_var =>
          _ ← _get_dst image (from_cs, to_cs);
          cvtColor image from2to_var
      | None =>
          from2rgb_var ← dict_get _CSPACE_OPENCV_CONV_VARS (from_cs, CSPACE_RGB);
          rgb2to_var ← dict_get _CSPACE_OPENCV_CONV_VARS (CSPACE_RGB, to_cs);
          _ ← _get_dst image (from_cs, CSPACE_RGB);
          _ ← _get_dst image (CSPACE_RGB, to_cs);
          image_aug ← cvtColor image from2rgb_var;
          cvtColor image_aug rgb2to_var
      end;
    assert_ (String.eqb (dtype_name image_aug) "uint8") "uint8 expected";;
    Ok (gray_to_3_channels image_aug).
Proof.
  intros Himg Hto Hfrom Hgray.
  destruct (shape_uint8_image _ _ _ _ Himg) as (Hshape & Hdt & Hnd).
  unfold change_colorspace_, gate_dtypes.
  rewrite Hdt, Hshape, Hnd.
  rewrite (bool_decide_eq_true_2 (_ ∈ ["uint8"])) by apply list_elem_of_here.
  rewrite (bool_decide_eq_true_2 (to_cs ∈ CSPACE_ALL)) by done.
  rewrite (bool_decide_eq_true_2 (from_cs ∈ CSPACE_ALL)) by done.
  rewrite (bool_decide_eq_true_2 (from_cs ≠ CSPACE_GRAY)) by done.
  rewrite (bool_decide_eq_true_2 (_ !! _ = _)) by done.
  reflexivity.
Qed.

End ConverterFacts.

Section ConverterTheorems.
Context {ext : Externals}.

Lemma conv_vars_lookup key :
  _CSPACE_OPENCV_CONV_VARS !! key = eval_cv2_ref <$> conv_vars_refs !! key ∧
  _CHANGE_COLORSPACE_INPLACE !! key = (fun _ => true) <$> conv_vars_refs !! key.
Proof.
  unfold _CSPACE_OPENCV_CONV_VARS, _CHANGE_COLORSPACE_INPLACE.
  by rewrite !lookup_fmap.
Qed.

Lemma cspaces_In (s : string) : s ∈ CSPACE_ALL → In s cspaces.
Proof.
  intros Hs. apply cspace_cases in Hs. simpl.
  intuition (subst; auto 20).
Qed.

Lemma route_check_all :
  forallb (fun f => forallb (route_check f) cspaces) cspaces = true.
Proof. vm_compute. reflexivity. Qed.

(** Where the table has no direct entry, it has both legs over RGB. *)
Lemma indirect_route_available from_cs to_cs :
  from_cs ∈ CSPACE_ALL → to_cs ∈ CSPACE_ALL →
  from_cs ≠ to_cs → from_cs ≠ CSPACE_GRAY →
  conv_vars_refs !! (from_cs, to_cs) = None →
  is_Some (conv_vars_refs !! (from_cs, CSPACE_RGB)) ∧
  is_Some (conv_vars_refs !! (CSPACE_RGB, to_cs)).
Proof.
  intros Hf Ht Hne Hg Hnone.
  pose proof route_check_all as Hall.
  rewrite forallb_forall in Hall.
  specialize (Hall _ (cspaces_In _ Hf)).
  rewrite forallb_forall in Hall.
  specialize (Hall _ (cspaces_In _ Ht)).
  unfold route_check in Hall. rewrite Hnone in Hall.
  apply String.eqb_neq in Hne, Hg. rewrite Hne, Hg in Hall. cbn [orb] in Hall.
  destruct (conv_vars_refs !! (from_cs, CSPACE_RGB)); [|discriminate].
  destruct (conv_vars_refs !! (CSPACE_RGB, to_cs)); [|discriminate].
  split; eauto.
Qed.

(** C2 (amended): for a uint8 image of shape (H,W,3) and a colourspace tag A
    of the supported set other than GRAY, [change_colorspace_(image, A, A)]
    returns the input image unchanged. *)
Theorem change_colorspace_identity (H W : nat) (image : ndarray) (A : string) :
  uint8_image H W 3 image → A ∈ CSPACE_ALL → A ≠ CSPACE_GRAY →
  change_colorspace_ image A A = Ok image.
Proof.
  intros Himg HA Hgray.
  rewrite (change_colorspace_checked H W) by done.
  by rewrite bool_decide_eq_true_2.
Qed.

(** The source tag GRAY is rejected, whatever the target. *)
Lemma change_colorspace_from_gray (H W : nat) (image : ndarray) (to_cs : string) :
  uint8_image H W 3 image → to_cs ∈ CSPACE_ALL →
  change_colorspace_ image to_cs CSPACE_GRAY =
  Raise (AssertionError
    "Cannot convert from grayscale to another colorspace as colors cannot be recovered.").
Proof.
  intros Himg Hto.
  destruct (shape_uint8_image _ _ _ _ Himg) as (Hshape & Hdt & Hnd).
  unfold change_colorspace_, gate_dtypes. rewrite Hdt.
  rewrite (bool_decide_eq_true_2 (_ ∈ ["uint8"])) by apply list_elem_of_here.
  rewrite (bool_decide_eq_true_2 (to_cs ∈ CSPACE_ALL)) by done.
  reflexivity.
Qed.

(** C7: for valid tags with [from_cs ≠ to_cs] and [from_cs ≠ GRAY], on an
    OpenCV that provides the conversion constants: when the pair is in the
    table, the result is the one native conversion of the image by the
    code of the pair; otherwise both legs [from_cs → RGB] and
    [RGB → to_cs] are in the table and the result is the second conversion
    applied to the first.  In both cases the call returns, so every
    supported target is reached.  (A rank-2 grey result is tiled to three
    channels.) *)
Theorem change_colorspace_routing (H W : nat) (image : ndarray)
    (from_cs to_cs : string) :
  uint8_image H W 3 image →
  from_cs ∈ CSPACE_ALL → to_cs ∈ CSPACE_ALL →
  from_cs ≠ to_cs → from_cs ≠ CSPACE_GRAY →
  (∀ key code, _CSPACE_OPENCV_CONV_VARS !! key = Some code → is_Some code) →
  (∀ img code, dtype_name img = "uint8" →
               dtype_name (cv2_cvtColor img code) = "uint8") →
  match _CSPACE_OPENCV_CONV_VARS !! (from_cs, to_cs) with
  | Some code =>
      ∃ from2to_var, code = Some from2to_var ∧
        change_colorspace_ image to_cs from_cs =
        Ok (gray_to_3_channels (cv2_cvtColor image from2to_var))
  | None =>
      ∃ from2rgb_var rgb2to_var,
        _CSPACE_OPENCV_CONV_VARS !! (from_cs, CSPACE_RGB) = Some (Some from2rgb_var) ∧
        _CSPACE_OPENCV_CONV_VARS !! (CSPACE_RGB, to_cs) = Some (Some rgb2to_var) ∧
        change_colorspace_ image to_cs from_cs =
        Ok (gray_to_3_channels
              (cv2_cvtColor (cv2_cvtColor image from2rgb_var) rgb2to_var))
  end.
Proof.
  intros Himg Hf Ht Hne Hg Hcv Hdt.
  destruct (shape_uint8_image _ _ _ _ Himg) as (_ & Hu8 & _).
  rewrite (change_colorspace_checked H W) by done.
  rewrite bool_decide_eq_false_2 by done.
  destruct (conv_vars_lookup (from_cs, to_cs)) as [Hd Hdi].
  destruct (conv_vars_refs !! (from_cs, to_cs)) as [r|] eqn:Hr.
  - rewrite Hd. result_simpl.
    destruct (Hcv _ _ Hd) as [c Hc]. exists c. split; [done|].
    unfold _get_dst, dict_get. rewrite Hdi. result_simpl. rewrite Hc.
    unfold cvtColor. result_simpl.
    by rewrite (Hdt _ _ Hu8).
  - rewrite Hd. result_simpl.
    destruct (indirect_route_available _ _ Hf Ht Hne Hg Hr) as [[r1 Hr1] [r2 Hr2]].
    destruct (conv_vars_lookup (from_cs, CSPACE_RGB)) as [H1 H1i].
    destruct (conv_vars_lookup (CSPACE_RGB, to_cs)) as [H2 H2i].
    rewrite Hr1 in H1, H1i. rewrite Hr2 in H2, H2i.
    cbn [fmap option_fmap option_map] in H1, H1i, H2, H2i.
    destruct (Hcv _ _ H1) as [c1 Hc1]. destruct (Hcv _ _ H2) as [c2 Hc2].
    exists c1, c2. rewrite H1, H2, Hc1, Hc2. repeat split.
    unfold _get_dst, dict_get. rewrite H1, H2, H1i, H2i, Hc1, Hc2.
    unfold cvtColor. result_simpl.
    by rewrite (Hdt _ _ (Hdt _ _ Hu8)).
Qed.

End ConverterTheorems.

Section BatchConverter.
Context {ext : Externals}.
Local Open Scope nat_scope.

(** The steps of the code on the store. *)
Lemma bind_lift {A B} (r : result A) (k : A → Store.M B) (h : list Store.array_object) :
  (Store.lift r ≫= k) h =
  match r with Ok a => k a h | Raise e => (h, Raise e) end.
Proof. by destruct r. Qed.

Lemma bind_array_of {B} (r : nat) (k : ndarray → Store.M B) h :
  (Store.array_of r ≫= k) h = k (Store.contents (h !!! r)) h.
Proof. reflexivity. Qed.

Lemma bind_M {A B} (m : Store.M A) (k : A → Store.M B) h :
  (m ≫= k) h =
  match m h with (h', Ok a) => k a h' | (h', Raise e) => (h', Raise e) end.
Proof. reflexivity. Qed.

Lemma get_dst_run image pair h :
  Store._get_dst image pair h =
  (h, match _CHANGE_COLORSPACE_INPLACE !! pair with
      | Some inplace =>
          Ok (if inplace && Store.c_contiguous (h !!! image)
              then Some image else None)
      | None => Raise KeyError
      end).
Proof.
  unfold Store._get_dst. rewrite bind_lift. unfold dict_get.
  destruct (_CHANGE_COLORSPACE_INPLACE !! pair) as [[]|]; [|reflexivity..].
  cbn. unfold Store.flags_c_contiguous, mbind, Store.M_bind.
  by destruct (Store.c_contiguous _).
Qed.

(** [cv2.cvtColor] with a buffer: it writes to no array but the one it
    returns, and the array returned holds the conversion. *)
Lemma cvtColor_inv src code dst h h' res :
  Store.cvtColor src code dst h = (h', res) →
  src < length h → (∀ d, dst = Some d → d < length h) →
  length h ≤ length h'
  ∧ match res with
    | Ok r' =>
        r' < length h' ∧ (dst = Some r' ∨ length h ≤ r')
        ∧ (∀ j, j < length h → j ≠ r' → h' !! j = h !! j)
        ∧ cvtColor (Store.contents (h !!! src)) code
          = Ok (Store.contents (h' !!! r'))
    | Raise e => h' = h ∧ cvtColor (Store.contents (h !!! src)) code = Raise e
    end.
Proof.
  intros Hrun Hsrc Hdst. unfold Store.cvtColor in Hrun.
  assert (Hnew : ∀ a, Store.new_array a h = (h', res) →
            cvtColor (Store.contents (h !!! src)) code = Ok a →
            length h ≤ length h'
            ∧ match res with
              | Ok r' =>
                  r' < length h' ∧ (dst = Some r' ∨ length h ≤ r')
                  ∧ (∀ j, j < length h → j ≠ r' → h' !! j = h !! j)
                  ∧ cvtColor (Store.contents (h !!! src)) code
                    = Ok (Store.contents (h' !!! r'))
              | Raise e => h' = h ∧ cvtColor (Store.contents (h !!! src)) code = Raise e
              end).
  { intros a Hn Hv. unfold Store.new_array in Hn. injection Hn as <- <-.
    rewrite length_app. cbn [length]. split; [lia|].
    split; [lia|]. split; [right; lia|]. split.
    - intros j Hj _. by apply lookup_app_l.
    - rewrite Hv. f_equal. by rewrite list_lookup_total_middle. }
  destruct code as [c|]; [|injection Hrun as <- <-; done].
  rewrite bind_array_of in Hrun.
  destruct dst as [d|]; [|by apply Hnew in Hrun].
  rewrite bind_array_of in Hrun.
  destruct (cv2_cvtColor_into_dst _ c _); [|by apply Hnew in Hrun].
  specialize (Hdst d eq_refl).
  unfold mbind, Store.M_bind, Store.write_array, mret, Store.M_ret in Hrun.
  injection Hrun as <- <-.
  rewrite length_insert. split; [lia|]. split; [lia|]. split; [by left|].
  split.
  - intros j Hj Hne. by rewrite list_lookup_insert_ne.
  - cbn [cvtColor]. f_equal. by rewrite list_lookup_total_insert_eq.
Qed.


Lemma lookup_total_eq (h h' : list Store.array_object) (j : nat) :
  h' !! j = h !! j → h' !!! j = h !!! j.
Proof. intros H. by rewrite !list_lookup_total_alt, H. Qed.

Lemma get_dst_cases (inplace : bool) (h : list Store.array_object)
    (r d : nat) :
  (if inplace && Store.c_contiguous (h !!! r) then Some r else None) = Some d →
  d = r.
Proof. destruct (_ && _); congruence. Qed.

Ltac route_fail :=
  intros [= <- <-]; result_simpl;
  split; [lia|split; [done|split; [by left|reflexivity]]].

(** The conversion proper, along the direct route or through RGB. *)
Lemma route_inv r t f h h1 res1 :
  (match _CSPACE_OPENCV_CONV_VARS !! (f, t) with
   | Some from2to_var =>
       Store._get_dst r (f, t)
       ≫= λ dst : option nat, Store.cvtColor r from2to_var dst
   | None =>
       Store.lift (dict_get _CSPACE_OPENCV_CONV_VARS (f, CSPACE_RGB))
       ≫= λ from2rgb_var : option string,
            Store.lift (dict_get _CSPACE_OPENCV_CONV_VARS (CSPACE_RGB, t))
            ≫= λ rgb2to_var : option string,
                 Store._get_dst r (f, CSPACE_RGB)
                 ≫= λ dst1 : option nat,
                      Store._get_dst r (CSPACE_RGB, t)
                      ≫= λ dst2 : option nat,
                           Store.cvtColor r from2rgb_var dst1
                           ≫= λ image_aug : nat,
                                Store.cvtColor image_aug rgb2to_var dst2
   end) h = (h1, res1) →
  r < length h →
  let a := Store.contents (h !!! r) in
  let conv :=
    match _CSPACE_OPENCV_CONV_VARS !! (f, t) with
    | Some from2to_var =>
        _get_dst a (f, t) ≫= λ _ : bool, cvtColor a from2to_var
    | None =>
        dict_get _CSPACE_OPENCV_CONV_VARS (f, CSPACE_RGB)
        ≫= λ from2rgb_var : option string,
             dict_get _CSPACE_OPENCV_CONV_VARS (CSPACE_RGB, t)
             ≫= λ rgb2to_var : option string,
                  _get_dst a (f, CSPACE_RGB)
                  ≫= λ _ : bool,
                       _get_dst a (CSPACE_RGB, t)
                       ≫= λ _ : bool,
                            cvtColor a from2rgb_var
                            ≫= λ image_aug : ndarray,
                                 cvtColor image_aug rgb2to_var
    end in
  length h ≤ length h1
  ∧ (∀ j, j < length h → j ≠ r → h1 !! j = h !! j)
  ∧ left_by_failure a (Store.contents (h1 !!! r))
  ∧ match res1 with
    | Ok r1 =>
        r1 < length h1 ∧ (r1 = r ∨ length h ≤ r1)
        ∧ conv = Ok (Store.contents (h1 !!! r1))
    | Raise e => conv = Raise e
    end.
Proof.
  intros Hrun Hr a conv. subst conv. revert Hrun.
  destruct (_CSPACE_OPENCV_CONV_VARS !! (f, t)) as [code|].
  - (* the direct route *)
    rewrite bind_M, get_dst_run. unfold _get_dst, dict_get.
    destruct (_CHANGE_COLORSPACE_INPLACE !! (f, t)) as [inplace|];
      [|route_fail].
    result_simpl. intros Hc.
    apply cvtColor_inv in Hc;
      [|done|by intros d Hd; rewrite (get_dst_cases _ _ _ _ Hd)].
    destruct Hc as [Hlen Hres]. split; [done|].
    destruct res1 as [r1|e].
    + destruct Hres as (Hr1 & Hdst & Hframe & Hv).
      assert (Hr1' : r1 = r ∨ length h ≤ r1).
      { destruct Hdst as [Hd|]; [left|by right].
        symmetry. by apply get_dst_cases in Hd. }
      split; [intros j Hj Hne; apply Hframe; [done|lia]|].
      split; [|done].
      destruct Hr1' as [->|Hge].
      * destruct code as [c|]; [|discriminate].
        injection Hv as <-. right; left. by exists c.
      * left. f_equal. apply lookup_total_eq, Hframe; lia.
    + destruct Hres as [-> Hv]. split; [done|split; [by left|done]].
  - (* through RGB *)
    rewrite bind_lift. unfold _get_dst, dict_get.
    destruct (_CSPACE_OPENCV_CONV_VARS !! (f, CSPACE_RGB)) as [code1|];
      [|route_fail].
    rewrite bind_lift.
    destruct (_CSPACE_OPENCV_CONV_VARS !! (CSPACE_RGB, t)) as [code2|];
      [|route_fail].
    rewrite bind_M, get_dst_run.
    destruct (_CHANGE_COLORSPACE_INPLACE !! (f, CSPACE_RGB)) as [inplace1|];
      [|route_fail].
    rewrite bind_M, get_dst_run.
    destruct (_CHANGE_COLORSPACE_INPLACE !! (CSPACE_RGB, t)) as [inplace2|];
      [|route_fail].
    result_simpl. rewrite bind_M.
    destruct (Store.cvtColor r code1 _ h) as [h2 [r2|e]] eqn:Hc1.
    2:{ apply cvtColor_inv in Hc1;
          [|done|by intros d Hd; rewrite (get_dst_cases _ _ _ _ Hd)].
        fold a in Hc1. destruct Hc1 as (_ & -> & Hv1). intros [= <- <-].
        rewrite Hv1. result_simpl. split; [lia|split; [done|split; [by left|reflexivity]]]. }
    apply cvtColor_inv in Hc1;
      [|done|by intros d Hd; rewrite (get_dst_cases _ _ _ _ Hd)].
    fold a in Hc1. destruct Hc1 as (Hlen1 & Hr2 & Hdst1 & Hframe1 & Hv1).
    assert (Hr2' : r2 = r ∨ length h ≤ r2).
    { destruct Hdst1 as [Hd|]; [left|by right].
      symmetry. by apply get_dst_cases in Hd. }
    rewrite Hv1. result_simpl.
    destruct code1 as [c1|]; [|discriminate]. injection Hv1 as Hv1.
    assert (Hleg1 : Store.contents (h2 !!! r) = a
                    ∨ Store.contents (h2 !!! r) = cv2_cvtColor a c1).
    { destruct Hr2' as [->|Hge]; [by right|left].
      f_equal. apply lookup_total_eq, Hframe1; lia. }
    intros Hc2.
    apply cvtColor_inv in Hc2;
      [|done|intros d Hd; rewrite (get_dst_cases _ _ _ _ Hd); lia].
    destruct Hc2 as [Hlen2 Hres]. split; [lia|].
    destruct res1 as [r1|e].
    + destruct Hres as (Hr1 & Hdst2 & Hframe2 & Hv2).
      assert (Hr1' : r1 = r ∨ length h2 ≤ r1).
      { destruct Hdst2 as [Hd|]; [left|by right].
        symmetry. by apply get_dst_cases in Hd. }
      split.
      { intros j Hj Hne. rewrite Hframe2 by lia. apply Hframe1; lia. }
      split; [|split; [done|split; [lia|exact Hv2]]].
      destruct Hr1' as [->|Hge].
      * destruct code2 as [c2|]; [|discriminate].
        injection Hv2 as <-. right; right. exists c1, c2. by rewrite Hv1.
      * rewrite (lookup_total_eq h2 h1 r) by (apply Hframe2; lia).
        destruct Hleg1 as [->| ->]; [by left|right; left; by exists c1].
    + destruct Hres as [-> Hv2]. split.
      { intros j Hj Hne. apply Hframe1; lia. }
      split; [|exact Hv2].
      destruct Hleg1 as [->| ->]; [by left|right; left; by exists c1].
Qed.

Ltac fail_done :=
  intros [= <- <-]; result_simpl;
  split; [lia|split; [done|split; [reflexivity|by left]]].

Ltac check_step :=
  rewrite bind_lift;
  match goal with
  | |- match assert_ ?c _ with _ => _ end = _ → _ =>
      destruct c; cbn [assert_]; [|fail_done]
  end.

(** One call of [change_colorspace_] on the store: it touches no array but
    the one it is given, and the array that it returns holds what
    [change_colorspace_] computes from the contents. *)
Lemma Store_change_colorspace_inv r t f h h' res :
  Store.change_colorspace_ r t f h = (h', res) → r < length h →
  call_spec r t f h h' res.
Proof.
  intros Hrun Hr. revert Hrun.
  unfold call_spec, Store.change_colorspace_, change_colorspace_.
  rewrite bind_array_of. set (a := Store.contents (h !!! r)).
  cbn [fst snd].
  rewrite bind_lift. destruct (gate_dtypes a _ _) as [[]|e]; [|fail_done].
  do 5 check_step.
  result_simpl.
  destruct (bool_decide (f = t)).
  { intros [= <- <-]. split; [lia|]. split; [done|].
    split; [done|]. split; [by left|]. reflexivity. }
  rewrite bind_M.
  match goal with
  | |- match ?x with _ => _ end = _ → _ =>
      destruct x as [h1 [r1|e]] eqn:Hconv
  end.
  2:{ apply route_inv in Hconv; [|done]. cbv zeta in Hconv. fold a in Hconv.
      destruct Hconv as (Hlen & Hframe & Hleft & ->).
      intros [= <- <-]. result_simpl. done. }
  apply route_inv in Hconv; [|done]. cbv zeta in Hconv. fold a in Hconv.
  destruct Hconv as (Hlen & Hframe & Hleft & Hr1 & Hr1' & ->).
  result_simpl. rewrite bind_array_of, bind_lift.
  set (b := Store.contents (h1 !!! r1)).
  destruct (dtype_name b =? "uint8")%string; cbn [assert_];
    [|intros [= <- <-]; done].
  destruct (ndim b =? 2)%Z eqn:Hnd.
  - unfold Store.new_array. intros [= <- <-].
    rewrite length_app. cbn [length]. split; [lia|].
    split; [intros j Hj Hne; rewrite lookup_app_l by lia; by apply Hframe|].
    split; [lia|]. split; [right; lia|].
    by rewrite list_lookup_total_middle.
  - intros [= <- <-]. split; [done|]. split; [done|].
    split; [done|]. split; [lia|]. fold b.
    destruct b; [discriminate|reflexivity].
Qed.


Lemma values_of_frame (h h1 : list Store.array_object) gen :
  Forall (fun r => h1 !! r = h !! r) gen.*1.*1 →
  values_of h1 gen = values_of h gen.
Proof.
  intros Hall. unfold values_of. apply Forall_fmap_ext_1.
  rewrite !Forall_fmap in Hall. eapply Forall_impl; [exact Hall|].
  intros [[r t] f] Heq. cbn in *. by rewrite (lookup_total_eq _ _ _ Heq).
Qed.

(** The loop over distinct arrays: [new_refs] are the arrays stored in the
    slots that were converted before the loop ended. *)
Lemma loop_inv gen : ∀ pre post h h' L' res,
  Store.change_colorspaces_loop (length pre) gen (pre ++ gen.*1.*1 ++ post) h
    = (h', L', res) →
  NoDup gen.*1.*1 → Forall (fun r => r < length h) gen.*1.*1 →
  ∃ new_refs,
    length new_refs ≤ length gen
    ∧ L' = pre ++ new_refs ++ drop (length new_refs) gen.*1.*1 ++ post
    ∧ length h ≤ length h'
    ∧ (∀ j, j < length h → j ∉ take (S (length new_refs)) gen.*1.*1 →
         h' !! j = h !! j)
    ∧ Forall (fun r => r < length h') new_refs
    ∧ Forall2 converts_to (take (length new_refs) (values_of h gen))
        (Store.arrays_of h' new_refs)
    ∧ match res with
      | Ok _ => length new_refs = length gen
      | Raise e =>
          ∃ x, gen !! length new_refs = Some x
               ∧ change_colorspace_ (Store.contents (h !!! x.1.1)) x.1.2 x.2
                 = Raise e
               ∧ left_by_failure (Store.contents (h !!! x.1.1))
                   (Store.contents (h' !!! x.1.1))
      end.
Proof.
  induction gen as [|[[r t] f] gen IH]; intros pre post h h' L' res Hrun Hnd Hval.
  - cbn in Hrun. injection Hrun as <- <- <-. exists [].
    cbn. repeat split; try done; constructor.
  - rewrite !fmap_cons in Hrun, Hnd, Hval |- *.
    cbn [fst app] in Hrun, Hnd, Hval |- *.
    apply NoDup_cons in Hnd as [Hnotin Hnd].
    apply Forall_cons in Hval as [Hr Hval].
    cbn [Store.change_colorspaces_loop] in Hrun.
    destruct (Store.change_colorspace_ r t f h) as [h1 [r1|e]] eqn:Hcall;
      (apply Store_change_colorspace_inv in Hcall; [|exact Hr]);
      destruct Hcall as (Hlen & Hframe & Hcall).
    + destruct Hcall as (Hr1 & Hr1' & Hv).
      assert (Hlist : <[length pre := r1]> (pre ++ r :: gen.*1.*1 ++ post)
                      = (pre ++ [r1]) ++ gen.*1.*1 ++ post).
      { rewrite insert_app_r_alt by lia. rewrite Nat.sub_diag.
        cbn [insert list_insert]. by rewrite <- app_assoc. }
      rewrite Hlist in Hrun.
      replace (S (length pre)) with (length (pre ++ [r1])) in Hrun
        by (rewrite length_app; cbn; lia).
      assert (Hval1 : Forall (fun r => r < length h1) gen.*1.*1).
      { eapply Forall_impl; [exact Hval|]. cbn. intros; lia. }
      assert (Hsame : Forall (fun r' => h1 !! r' = h !! r') gen.*1.*1).
      { apply Forall_forall. intros r' Hin. apply Hframe.
        - by apply (proj1 (Forall_forall _ _) Hval).
        - intros ->. done. }
      destruct (IH _ _ _ _ _ _ Hrun Hnd Hval1)
        as (new & Hk & HL & Hlen' & Hframe' & Hnew & Hall & Hres).
      assert (Hr1notin : r1 ∉ take (S (length new)) gen.*1.*1).
      { intros Hin. apply elem_of_take in Hin as (i & Hin & _).
        apply list_elem_of_lookup_2 in Hin.
        destruct Hr1' as [->|Hge]; [done|].
        apply (proj1 (Forall_forall _ _) Hval) in Hin. lia. }
      exists (r1 :: new). cbn [length drop].
      split; [lia|]. split; [by rewrite HL, <- app_assoc|].
      split; [lia|]. split.
      { intros j Hj Hnot. rewrite firstn_cons in Hnot.
        apply not_elem_of_cons in Hnot as [Hne Hnot].
        rewrite Hframe' by (done || lia). by apply Hframe. }
      split; [constructor; [lia|done]|]. split.
      { cbn [values_of fmap list_fmap take Store.arrays_of fst snd].
        constructor.
        - unfold converts_to. cbn [fst snd]. rewrite Hv. do 2 f_equal.
          symmetry. apply lookup_total_eq, Hframe'; done.
        - fold (values_of h gen). rewrite <- (values_of_frame h h1) by done.
          exact Hall. }
      destruct res as [[]|e]; [cbn; lia|].
      destruct Hres as (x & Hx & Hxv & Hxl). exists x. split; [done|].
      assert (Hxeq : h1 !! x.1.1 = h !! x.1.1).
      { apply (proj1 (Forall_forall _ _) Hsame).
        apply list_elem_of_lookup_2 in Hx.
        by do 2 apply list_elem_of_fmap_2. }
      rewrite <- (lookup_total_eq _ _ _ Hxeq). done.
    + injection Hrun as <- <- <-. destruct Hcall as [Hv Hl].
      exists []. cbn [length drop take].
      split; [lia|]. split; [done|]. split; [done|]. split.
      { intros j Hj Hnot. apply Hframe; [done|].
        intros ->. apply Hnot. cbn. left. }
      split; [constructor|]. split; [constructor|].
      exists (r, t, f). done.
Qed.


Lemma per_image_length n arg : fits n arg → length (per_image n arg) = n.
Proof. destruct arg; cbn; [by rewrite length_replicate|done]. Qed.

Lemma validate_fits (images : list nat) arg name :
  fits (length images) arg →
  Store._validate images arg name = Ok (per_image (length images) arg).
Proof.
  destruct arg as [s|l]; cbn; [done|].
  intros Hl. by rewrite bool_decide_eq_true_2.
Qed.

Lemma validate_unfit (images : list nat) arg name :
  ¬ fits (length images) arg →
  ∃ msg, Store._validate images arg name = Raise (AssertionError msg).
Proof.
  destruct arg as [s|l]; cbn; [done|].
  intros Hl. eexists. by rewrite bool_decide_eq_false_2.
Qed.


Lemma fits_dec n arg : fits n arg ∨ ¬ fits n arg.
Proof.
  destruct arg as [s|l]; cbn; [by left|].
  destruct (decide (length l = n)); [by left|by right].
Qed.

Lemma values_of_zip (h : list Store.array_object) (images : list nat) :
  ∀ tos froms,
    values_of h (zip (zip images tos) froms)
    = zip (zip (Store.arrays_of h images) tos) froms.
Proof.
  induction images as [|r images IH]; intros tos froms; [done|].
  destruct tos as [|t tos]; [done|]. destruct froms as [|f froms]; [done|].
  cbn. f_equal. apply IH.
Qed.

Lemma refs_of_zip (images : list nat) (tos froms : list string) :
  length tos = length images → length froms = length images →
  (zip (zip images tos) froms).*1.*1 = images.
Proof.
  intros Ht Hf. rewrite fst_zip by (rewrite length_zip_with; lia).
  apply fst_zip. lia.
Qed.

Lemma converts_to_functional gen : ∀ outs outs',
  Forall2 converts_to gen outs → Forall2 converts_to gen outs' → outs = outs'.
Proof.
  induction gen as [|x gen IH]; intros outs outs' H1 H2.
  - apply Forall2_nil_inv_l in H1, H2. by subst.
  - apply Forall2_cons_inv_l in H1 as (o & outs1 & Ho & H1 & ->).
    apply Forall2_cons_inv_l in H2 as (o' & outs2 & Ho' & H2 & ->).
    unfold converts_to in Ho, Ho'. rewrite Ho in Ho'. injection Ho' as <-.
    f_equal. by apply IH.
Qed.

(** The run of the batch, once the arguments have passed the validation. *)
Lemma store_run_inv (h : list Store.array_object) (images : list nat) to from
    h' images' res :
  Store.change_colorspaces_ images to from h = (h', images', res) →
  fits (length images) to → fits (length images) from →
  NoDup images → Forall (fun r => r < length h) images →
  let gen := zip (zip (Store.arrays_of h images)
                    (per_image (length images) to))
               (per_image (length images) from) in
  ∃ new_refs,
    length new_refs ≤ length images
    ∧ images' = new_refs ++ drop (length new_refs) images
    ∧ length h ≤ length h'
    ∧ (∀ j, j < length h → j ∉ take (S (length new_refs)) images →
         h' !! j = h !! j)
    ∧ Forall (fun r => r < length h') new_refs
    ∧ Forall2 converts_to (take (length new_refs) gen)
        (Store.arrays_of h' new_refs)
    ∧ match res with
      | Ok _ => length new_refs = length images
      | Raise e =>
          ∃ r x, images !! length new_refs = Some r
               ∧ gen !! length new_refs = Some x
               ∧ converts_to_fails x e
               ∧ left_by_failure (Store.contents (h !!! r))
                   (Store.contents (h' !!! r))
      end.
Proof.
  intros Hrun Hto Hfrom Hnd Hval gen.
  unfold Store.change_colorspaces_ in Hrun.
  rewrite !validate_fits in Hrun by done.
  pose proof (per_image_length _ _ Hto) as Hlt.
  pose proof (per_image_length _ _ Hfrom) as Hlf.
  set (tos := per_image (length images) to) in *.
  set (froms := per_image (length images) from) in *.
  pose proof (refs_of_zip images tos froms Hlt Hlf) as Hrefs.
  pose proof (loop_inv (zip (zip images tos) froms) [] [] h h' images' res)
    as Hinv.
  rewrite Hrefs, app_nil_r in Hinv. cbn [app length] in Hinv.
  destruct (Hinv Hrun Hnd Hval)
    as (new & Hk & HL & Hlen & Hframe & Hnew & Hall & Hres).
  rewrite values_of_zip in Hall. rewrite app_nil_r in HL.
  rewrite !length_zip_with in Hk, Hres.
  exists new. split; [lia|]. do 5 (split; [done|]).
  destruct res as [[]|e]; [lia|].
  destruct Hres as (x & Hx & Hv & Hl).
  apply lookup_zip_with_Some in Hx as (p & f & -> & Hp & Hf).
  apply lookup_zip_with_Some in Hp as (r & t & -> & Hr & Ht).
  cbn [fst snd] in Hv, Hl.
  exists r, (Store.contents (h !!! r), t, f).
  split; [done|]. split; [|done].
  subst gen. apply lookup_zip_with_Some.
  exists (Store.contents (h !!! r), t), f. split; [done|]. split; [|done].
  apply lookup_zip_with_Some. exists (Store.contents (h !!! r)), t.
  split; [done|]. split; [|done].
  unfold Store.arrays_of. by rewrite list_lookup_fmap, Hr.
Qed.


Lemma converts_to_not_fails gen outs k x e :
  Forall2 converts_to gen outs → gen !! k = Some x → ¬ converts_to_fails x e.
Proof.
  intros Hall Hk Hfail.
  destruct (Forall2_lookup_l _ _ _ _ _ Hall Hk) as (y & _ & Hy).
  unfold converts_to in Hy. unfold converts_to_fails in Hfail. congruence.
Qed.




(** The batch as a list of values. *)

Lemma arrays_of_fresh (images : list ndarray) :
  Store.arrays_of (Store.fresh_arrays images) (seq 0 (length images)) = images.
Proof.
  unfold Store.arrays_of, Store.fresh_arrays. apply list_eq. intros i.
  rewrite list_lookup_fmap.
  destruct (images !! i) as [a|] eqn:Hi.
  - rewrite lookup_seq_lt by (by eapply lookup_lt_Some). cbn.
    f_equal. erewrite list_lookup_total_correct; [|by rewrite list_lookup_fmap, Hi].
    reflexivity.
  - rewrite lookup_seq_ge; [done|]. by apply lookup_ge_None.
Qed.

Lemma fresh_valid (images : list ndarray) :
  Forall (fun r => r < length (Store.fresh_arrays images))
    (seq 0 (length images)).
Proof.
  apply Forall_forall. intros r Hr. apply elem_of_seq in Hr.
  unfold Store.fresh_arrays. rewrite length_fmap. lia.
Qed.

(** What a call leaves in a list of values and how it ends: [outs] are the
    conversions that were done. *)
Lemma change_colorspaces_inv (images : list ndarray) to from final res :
  change_colorspaces_ images to from = (final, res) →
  fits (length images) to → fits (length images) from →
  let gen := zip (zip images (per_image (length images) to))
               (per_image (length images) from) in
  ∃ outs,
    length outs ≤ length images
    ∧ Forall2 converts_to (take (length outs) gen) outs
    ∧ length final = length images
    ∧ take (length outs) final = outs
    ∧ match res with
      | Ok _ => length outs = length images
      | Raise e => ∃ x, gen !! length outs = Some x ∧ converts_to_fails x e
      end.
Proof.
  intros Hrun Hto Hfrom gen. unfold change_colorspaces_ in Hrun.
  destruct (Store.change_colorspaces_ _ _ _ _) as [[h' images'] res'] eqn:Hs.
  injection Hrun as <- <-.
  rewrite <- (length_seq (length images) 0) in Hto, Hfrom.
  destruct (store_run_inv _ _ _ _ _ _ _ Hs Hto Hfrom (NoDup_seq _ _)
              (fresh_valid images))
    as (new & Hk & HL & Hlen & Hframe & Hnew & Hconv & Hres).
  rewrite !length_seq in Hk, Hconv, Hres.
  rewrite arrays_of_fresh in Hconv, Hres. fold gen in Hconv, Hres.
  exists (Store.arrays_of h' new).
  assert (Hl : length (Store.arrays_of h' new) = length new)
    by (unfold Store.arrays_of; by rewrite length_fmap).
  rewrite Hl. split; [done|]. split; [done|]. subst images'.
  unfold Store.arrays_of at 1 2. rewrite fmap_app. split.
  { rewrite length_app, !length_fmap, length_drop, length_seq. lia. }
  split; [by rewrite take_app_length' by (by rewrite length_fmap)|].
  destruct res' as [[]|e]; [done|].
  destruct Hres as (r & x & _ & Hx & Hfail & _). by exists x.
Qed.

Lemma change_colorspaces_unfit (images : list ndarray) to from :
  ¬ fits (length images) to ∨ ¬ fits (length images) from →
  ∃ msg, change_colorspaces_ images to from
         = (images, Raise (AssertionError msg)).
Proof.
  intros Hunfit. unfold change_colorspaces_, Store.change_colorspaces_.
  rewrite <- (length_seq (length images) 0) in Hunfit.
  destruct (fits_dec (length (seq 0 (length images))) to) as [Hto|Hto].
  - destruct Hunfit as [?|Hfrom]; [done|].
    rewrite validate_fits by done.
    destruct (validate_unfit (seq 0 (length images)) from "from_colorspaces"
                Hfrom) as [msg ->].
    exists msg. by rewrite arrays_of_fresh.
  - destruct (validate_unfit (seq 0 (length images)) to "to_colorspaces" Hto)
      as [msg ->].
    exists msg. by rewrite arrays_of_fresh.
Qed.

Lemma change_colorspaces_length images t f :
  length (change_colorspaces_ images t f).1 = length images.
Proof.
  destruct (fits_dec (length images) t) as [Ht|Ht];
    [destruct (fits_dec (length images) f) as [Hf|Hf]|].
  - destruct (change_colorspaces_ images t f) as [final res] eqn:Hrun.
    by destruct (change_colorspaces_inv _ _ _ _ _ Hrun Ht Hf)
      as (outs & _ & _ & Hlen & _).
  - by destruct (change_colorspaces_unfit images t f (or_intror Hf)) as [msg ->].
  - by destruct (change_colorspaces_unfit images t f (or_introl Ht)) as [msg ->].
Qed.

(** When every conversion succeeds, the list holds the conversions. *)
Lemma change_colorspaces_all_Ok images t f outs :
  fits (length images) t → fits (length images) f →
  Forall2 converts_to
    (zip (zip images (per_image (length images) t))
       (per_image (length images) f)) outs →
  change_colorspaces_ images t f = (outs, Ok tt).
Proof.
  intros Ht Hf Hall.
  destruct (change_colorspaces_ images t f) as [final res] eqn:Hrun.
  destruct (change_colorspaces_inv _ _ _ _ _ Hrun Ht Hf)
    as (outs' & Hk & Hconv & Hlen & Htake & Hres).
  destruct res as [[]|e].
  - rewrite Hres in Htake, Hconv.
    rewrite take_ge in Htake by lia. subst outs'.
    rewrite take_ge in Hconv by (rewrite !length_zip_with, !per_image_length by done; lia).
    by rewrite (converts_to_functional _ _ _ Hall Hconv).
  - destruct Hres as (x & Hx & Hfail).
    destruct (converts_to_not_fails _ _ _ _ _ Hall Hx Hfail).
Qed.

(** A call that ends well has replaced every image by its conversion. *)
Lemma change_colorspaces_Ok images t f final :
  change_colorspaces_ images t f = (final, Ok tt) →
  ∃ tos froms, length tos = length images ∧ length froms = length images ∧
    Forall2 converts_to (zip (zip images tos) froms) final.
Proof.
  intros Hrun.
  destruct (fits_dec (length images) t) as [Ht|Ht];
    [destruct (fits_dec (length images) f) as [Hf|Hf]|].
  - exists (per_image (length images) t), (per_image (length images) f).
    rewrite !per_image_length by done. split; [done|]. split; [done|].
    destruct (change_colorspaces_inv _ _ _ _ _ Hrun Ht Hf)
      as (outs & Hk & Hconv & Hlen & Htake & Hres).
    rewrite Hres in Htake, Hconv.
    rewrite take_ge in Htake by lia. subst outs.
    by rewrite take_ge in Hconv
      by (rewrite !length_zip_with, !per_image_length by done; lia).
  - destruct (change_colorspaces_unfit images t f (or_intror Hf)) as [msg Hu].
    rewrite Hu in Hrun. discriminate.
  - destruct (change_colorspaces_unfit images t f (or_introl Ht)) as [msg Hu].
    rewrite Hu in Hrun. discriminate.
Qed.

(** A call whose first conversion raises, raises. *)
Lemma change_colorspaces_first_fails image images t f e :
  change_colorspace_ image t f = Raise e →
  (change_colorspaces_ (image :: images) (OneCspace t) (OneCspace f)).2
  = Raise e.
Proof.
  intros Hfail.
  destruct (change_colorspaces_ _ _ _) as [final res] eqn:Hrun.
  destruct (change_colorspaces_inv _ _ _ _ _ Hrun I I)
    as (outs & Hk & Hconv & Hlen & Htake & Hres).
  cbn [length per_image replicate zip_with] in Hconv, Hres. cbn [snd].
  destruct outs as [|out outs].
  - destruct res as [[]|e']; [cbn in Hres; lia|].
    destruct Hres as (x & [= <-] & Hx).
    unfold converts_to_fails in Hx. cbn [fst snd] in Hx. congruence.
  - cbn [length take] in Hconv.
    apply Forall2_cons_1 in Hconv as [Hc _].
    unfold converts_to in Hc. cbn [fst snd] in Hc. congruence.
Qed.

End BatchConverter.

(** ** The lookup tables *)

Lemma py_range_lookup (a b : Z) (k : nat) :
  (Z.of_nat k < b - a) → py_range a b !! k = Some (a + Z.of_nat k).
Proof.
  intros Hk. unfold py_range.
  rewrite list_lookup_fmap, lookup_seq_lt by lia. reflexivity.
Qed.

Lemma elem_of_py_range (a b z : Z) : z ∈ py_range a b ↔ a ≤ z < b.
Proof.
  unfold py_range. rewrite list_elem_of_fmap. split.
  - intros (k & -> & Hk). apply elem_of_seq in Hk. lia.
  - intros Hz. exists (Z.to_nat (z - a)). split; [lia|].
    apply elem_of_seq. lia.
Qed.

Lemma py_range_NoDup (a b : Z) : NoDup (py_range a b).
Proof.
  unfold py_range. apply NoDup_fmap_2; [|apply NoDup_seq].
  intros x y Hxy. lia.
Qed.

Lemma lut_step_length table i :
  length (lut_step table i).1 = length table.1 ∧
  length (lut_step table i).2 = length table.2.
Proof. unfold lut_step. cbn [fst snd]. by rewrite !length_insert. Qed.

Lemma foldl_lut_step_length l : ∀ table,
  length (foldl lut_step table l).1 = length table.1 ∧
  length (foldl lut_step table l).2 = length table.2.
Proof.
  induction l as [|x l IH]; intros table; [done|].
  cbn [foldl]. destruct (IH (lut_step table x)) as [-> ->].
  apply lut_step_length.
Qed.

(** Rows of an amount that the loop does not visit stay as they are. *)
Lemma foldl_lut_step_other l : ∀ table i,
  -255 ≤ i → (∀ j, j ∈ l → -255 ≤ j) → i ∉ l →
  (foldl lut_step table l).1 !! Z.to_nat (255 + i) = table.1 !! Z.to_nat (255 + i) ∧
  (foldl lut_step table l).2 !! Z.to_nat (255 + i) = table.2 !! Z.to_nat (255 + i).
Proof.
  induction l as [|x l IH]; intros table i Hi Hl Hnot; [done|].
  cbn [foldl].
  apply not_elem_of_cons in Hnot as [Hne Hnot].
  assert (-255 ≤ x) by (apply Hl; left).
  destruct (IH (lut_step table x) i Hi) as [-> ->]; [|done|].
  { intros j Hj. apply Hl. by right. }
  unfold lut_step. cbn [fst snd].
  rewrite !list_lookup_insert_ne by lia. done.
Qed.

Lemma foldl_lut_step_lookup l : ∀ table i,
  NoDup l → (∀ j, j ∈ l → -255 ≤ j) → i ∈ l →
  (Z.to_nat (255 + i) < length table.1)%nat →
  (Z.to_nat (255 + i) < length table.2)%nat →
  (foldl lut_step table l).1 !! Z.to_nat (255 + i) = Some (lut_row_hue i) ∧
  (foldl lut_step table l).2 !! Z.to_nat (255 + i) = Some (lut_row_saturation i).
Proof.
  induction l as [|x l IH]; intros table i Hnd Hl Hin H1 H2.
  - by apply elem_of_nil in Hin.
  - cbn [foldl]. apply NoDup_cons in Hnd as [Hx Hnd].
    assert (Hl' : ∀ j, j ∈ l → -255 ≤ j) by (intros j Hj; apply Hl; by right).
    destruct (decide (i ∈ l)) as [Hil|Hil].
    + destruct (lut_step_length table x) as [L1 L2].
      apply IH; try done; lia.
    + apply elem_of_cons in Hin as [->|]; [|done].
      assert (-255 ≤ x) by (apply Hl; left).
      destruct (foldl_lut_step_other l (lut_step table x) x) as [-> ->]; try done.
      unfold lut_step. cbn [fst snd].
      by rewrite !list_lookup_insert_eq by done.
Qed.

Lemma lut_table_row_from (zeros1 zeros2 : list (list Z)) (i : Z) :
  length zeros1 = 512%nat → length zeros2 = 512%nat →
  -255 ≤ i ≤ 255 →
  let table := foldl lut_step (zeros1, zeros2) (py_range (-255) (255 + 1)) in
  py_index table.1 (255 + i) = Ok (lut_row_hue i) ∧
  py_index table.2 (255 + i) = Ok (lut_row_saturation i).
Proof.
  intros Hz1 Hz2 Hi table.
  destruct (foldl_lut_step_length (py_range (-255) (255 + 1)) (zeros1, zeros2))
    as [L1 L2].
  destruct (foldl_lut_step_lookup (py_range (-255) (255 + 1)) (zeros1, zeros2) i)
    as [R1 R2].
  { apply py_range_NoDup. }
  { intros j Hj. apply elem_of_py_range in Hj. lia. }
  { apply elem_of_py_range. lia. }
  { cbn [fst]. lia. }
  { cbn [snd]. lia. }
  cbn [fst snd] in L1, L2.
  unfold py_index. fold table in L1, L2, R1, R2. rewrite L1, L2, Hz1, Hz2.
  rewrite (proj2 (Z.ltb_ge _ _)) by lia.
  rewrite (proj2 (Z.leb_le _ _)) by lia.
  rewrite (proj2 (Z.ltb_lt _ _)) by lia.
  cbn [andb].
  rewrite R1, R2. split; reflexivity.
Qed.

(** Row [255 + i] of the two tables, for every amount [i] of the loop. *)
Lemma generate_lut_table_row (i : Z) :
  -255 ≤ i ≤ 255 →
  py_index _generate_lut_table.1 (255 + i) = Ok (lut_row_hue i) ∧
  py_index _generate_lut_table.2 (255 + i) = Ok (lut_row_saturation i).
Proof.
  intros Hi.
  exact (lut_table_row_from _ _ i (length_replicate _ _) (length_replicate _ _) Hi).
Qed.

Lemma lut_table_length_from (zeros1 zeros2 : list (list Z)) :
  length zeros1 = 512%nat → length zeros2 = 512%nat →
  let table := foldl lut_step (zeros1, zeros2) (py_range (-255) (255 + 1)) in
  length table.1 = 512%nat ∧ length table.2 = 512%nat.
Proof.
  intros H1 H2 table.
  destruct (foldl_lut_step_length (py_range (-255) (255 + 1)) (zeros1, zeros2))
    as [L1 L2].
  cbn [fst snd] in L1, L2. fold table in L1, L2. by rewrite L1, L2.
Qed.

Lemma generate_lut_table_length :
  length _generate_lut_table.1 = 512%nat ∧ length _generate_lut_table.2 = 512%nat.
Proof.
  exact (lut_table_length_from _ _ (length_replicate _ _) (length_replicate _ _)).
Qed.

(** The last row of either table is never written. *)
Lemma lut_table_last_row_from (zeros1 zeros2 : list (list Z)) (r1 r2 : list Z) :
  zeros1 !! 511%nat = Some r1 → zeros2 !! 511%nat = Some r2 →
  let table := foldl lut_step (zeros1, zeros2) (py_range (-255) (255 + 1)) in
  table.1 !! 511%nat = Some r1 ∧ table.2 !! 511%nat = Some r2.
Proof.
  intros <- <- table.
  destruct (foldl_lut_step_other (py_range (-255) (255 + 1)) (zeros1, zeros2) 256)
    as [R1 R2].
  { lia. }
  { intros j Hj. apply elem_of_py_range in Hj. lia. }
  { rewrite elem_of_py_range. lia. }
  exact (conj R1 R2).
Qed.

Lemma generate_lut_table_last_row :
  _generate_lut_table.1 !! 511%nat = Some (replicate 256 0) ∧
  _generate_lut_table.2 !! 511%nat = Some (replicate 256 0).
Proof.
  exact (lut_table_last_row_from _ _ _ _
           (lookup_replicate_2 (256 * 2) (replicate 256 0) 511 ltac:(lia))
           (lookup_replicate_2 (256 * 2) (replicate 256 0) 511 ltac:(lia))).
Qed.

#[global] Opaque _generate_lut_table.

(** The tables read at a sample of a [uint8] image. *)
Lemma cv2_LUT_hue (i v : Z) :
  0 ≤ v ≤ 255 → cv2_LUT (lut_row_hue i) v = (v + i) mod 180.
Proof.
  intros Hv. unfold cv2_LUT, lut_row_hue.
  rewrite list_lookup_fmap, py_range_lookup by lia.
  cbn [fmap option_fmap option_map default]. unfold wrap_uint8.
  rewrite Z2Nat.id by lia. rewrite Z.add_0_l.
  apply Z.mod_small. pose proof (Z.mod_pos_bound (v + i) 180). lia.
Qed.

Lemma cv2_LUT_saturation (i v : Z) :
  0 ≤ v ≤ 255 →
  cv2_LUT (lut_row_saturation i) v = Z.min 255 (Z.max 0 (v + i)).
Proof.
  intros Hv. unfold cv2_LUT, lut_row_saturation.
  rewrite list_lookup_fmap, py_range_lookup by lia.
  cbn [fmap option_fmap option_map default]. unfold wrap_uint8, np_clip.
  rewrite Z2Nat.id by lia. rewrite Z.add_0_l.
  unfold id. rewrite Z.mod_small by lia. lia.
Qed.

Lemma lut_row_hue_180 : lut_row_hue 180 = lut_row_hue 0.
Proof.
  unfold lut_row_hue. apply map_ext. intros v. f_equal.
  rewrite Z.add_0_r.
  replace (v + 180) with (v + 1 * 180) by lia.
  apply Z.mod_add. lia.
Qed.

(** ** Facts about images *)

Lemma forallb_py_range (f : Z → bool) (a b : Z) :
  forallb f (py_range a b) = true → ∀ z, a ≤ z < b → f z = true.
Proof.
  intros Hall z Hz. rewrite forallb_forall in Hall. apply Hall.
  apply list_elem_of_In, elem_of_py_range, Hz.
Qed.

Lemma uint8_image_pixels H W C d rows :
  uint8_image H W C (Array3 d rows) →
  ∀ row px, In row rows → In px row →
    length px = C ∧ Forall is_uint8_value px.
Proof.
  intros (_ & _ & _ & [_ Hrect] & Hval) row px Hrow Hpx.
  rewrite Forall_forall in Hrect, Hval.
  apply list_elem_of_In in Hrow, Hpx.
  destruct (Hrect _ Hrow) as [_ Hlen]. specialize (Hval _ Hrow).
  rewrite Forall_forall in Hlen, Hval. auto.
Qed.

Lemma map_pixels_ext H W C (f g : list Z → list Z) image :
  uint8_image H W C image →
  (∀ px, length px = C → Forall is_uint8_value px → f px = g px) →
  map_pixels f image = map_pixels g image.
Proof.
  destruct image as [d rows|d rows]; [done|].
  intros Himg Hfg. cbn [map_pixels]. f_equal.
  apply map_ext_in. intros row Hrow.
  apply map_ext_in. intros px Hpx.
  destruct (uint8_image_pixels _ _ _ _ _ Himg row px Hrow Hpx). auto.
Qed.

Lemma uint8_image_two_channels H W C d rows :
  uint8_image H W C (Array3 d rows) → (2 ≤ C)%nat →
  forallb (forallb (fun px => (2 <=? length px)%nat)) rows = true.
Proof.
  intros Himg HC.
  apply forallb_forall. intros row Hrow.
  apply forallb_forall. intros px Hpx.
  destruct (uint8_image_pixels _ _ _ _ _ Himg row px Hrow Hpx) as [-> _].
  by apply Nat.leb_le.
Qed.

(** ** Addition to the hue *)

Lemma hue_projection_checked :
  forallb hue_projection_check (py_range (-255) 256) = true.
Proof. vm_compute. reflexivity. Qed.

(** The sampled amount, projected with [float32] arithmetic and truncated,
    is the quotient of [shift * 180] by 255 rounded toward zero. *)
Lemma project_hue_sample_quot (shift : Z) :
  -255 ≤ shift ≤ 255 →
  project_hue_sample shift = (shift * 180) ÷ 255 ∧
  -180 ≤ (shift * 180) ÷ 255 ≤ 180.
Proof.
  intros Hs.
  pose proof (forallb_py_range _ _ _ hue_projection_checked shift) as Hc.
  unfold hue_projection_check in Hc.
  rewrite !andb_true_iff in Hc. destruct Hc as [[H1 H2] H3]; [lia|].
  apply Z.eqb_eq in H1. apply Z.leb_le in H2, H3. auto.
Qed.

Section AddToHueTheorems.
Context {ext : Externals}.

(** The transformation of one image with the tables, for amounts in range. *)
Lemma transform_image_cv2_in_range self (H W : nat) image (hue saturation : Z) :
  _LUT_CACHE self = _generate_lut_table →
  uint8_image H W 3 image →
  -255 ≤ hue ≤ 255 → -255 ≤ saturation ≤ 255 →
  _transform_image_cv2 self image hue saturation =
  Ok (map_pixels
        (fun px =>
           match px with
           | h :: s :: rest =>
               (h + hue) mod 180 :: Z.min 255 (Z.max 0 (s + saturation)) :: rest
           | _ => px
           end) image).
Proof.
  intros Hlut Himg Hh Hs. unfold _transform_image_cv2. rewrite Hlut.
  destruct (generate_lut_table_row hue Hh) as [-> _].
  destruct (generate_lut_table_row saturation Hs) as [_ ->].
  result_simpl.
  destruct image as [d rows|d rows]; [destruct Himg|].
  rewrite (uint8_image_two_channels H W 3 d rows) by (exact Himg || lia).
  f_equal. apply (map_pixels_ext H W 3); [exact Himg|].
  intros [|h [|s rest]] Hlen Hval; try (cbn in Hlen; discriminate).
  apply Forall_cons in Hval as [Hvh Hval].
  apply Forall_cons in Hval as [Hvs _].
  by rewrite cv2_LUT_hue, cv2_LUT_saturation.
Qed.

(** C3 (amended): for a uint8 HSV image and a sampled amount [shift] in
    [-255, 255], the sample is projected to the hue range of OpenCV as the
    quotient of [shift * 180] by 255 truncated toward zero, and every output
    hue is [(hue + projected shift) mod 180] of the input hue as OpenCV
    holds it; the hue itself is not projected to the range [0, 255].  (The
    saturation is clipped to [0, 255]; the third channel is untouched.) *)
Theorem add_to_hue_pixelwise self (H W : nat) image (shift saturation : Z) :
  _LUT_CACHE self = _generate_lut_table →
  uint8_image H W 3 image →
  -255 ≤ shift ≤ 255 → -255 ≤ saturation ≤ 255 →
  project_hue_sample shift = (shift * 180) ÷ 255 ∧
  _transform_image_cv2 self image (project_hue_sample shift) saturation =
  Ok (map_pixels
        (fun px =>
           match px with
           | h :: s :: rest =>
               (h + (shift * 180) ÷ 255) mod 180
               :: Z.min 255 (Z.max 0 (s + saturation)) :: rest
           | _ => px
           end) image).
Proof.
  intros Hlut Himg Hshift Hsat.
  destruct (project_hue_sample_quot shift Hshift) as [Hp Hrange].
  split; [done|]. rewrite Hp.
  apply (transform_image_cv2_in_range self H W);
    [exact Hlut | exact Himg | lia | lia].
Qed.

End AddToHueTheorems.

Section AddToHueWraparound.
Context {ext : Externals}.

Lemma AddToHue_init_number (v : Z) (from_cs : string) :
  -255 ≤ v ≤ 255 →
  AddToHue_init (ArgNumber v) from_cs =
  Ok {| value := None; value_hue := Some (Deterministic v);
        value_saturation := None; per_channel := Deterministic 0;
        from_colorspace := from_cs; _LUT_CACHE := _generate_lut_table |}.
Proof.
  intros Hv.
  unfold AddToHue_init, AddToHueAndSaturation_init, _handle_value_arg,
    _handle_value_hue_arg, _handle_value_saturation_arg, handle_discrete_param.
  cbn [from_option].
  rewrite (proj2 (Z.leb_le _ _)) by lia.
  rewrite (proj2 (Z.leb_le _ _)) by lia.
  reflexivity.
Qed.

Lemma map_replicate {A B} (f : A → B) (k : nat) (x : A) :
  map f (replicate k x) = replicate k (f x).
Proof. induction k as [|k IH]; [done|]. cbn [replicate map]. by rewrite IH. Qed.

(** The samples of [AddToHue(value=v)] for a number [v]. *)
Lemma AddToHue_draw_samples (v : Z) (from_cs : string) lut images rs :
  AddToHueAndSaturation_draw_samples
    {| value := None; value_hue := Some (Deterministic v);
       value_saturation := None; per_channel := Deterministic 0;
       from_colorspace := from_cs; _LUT_CACHE := lut |} images rs =
  (_ ← py_index (rng_duplicate rs 2) 0;
   Ok (replicate (Z.to_nat (Z.of_nat (length images) * 1))
         (project_hue_sample (wrap_int32 v)),
       replicate (Z.to_nat (Z.of_nat (length images))) 0)).
Proof.
  unfold AddToHueAndSaturation_draw_samples.
  cbn [value value_hue value_saturation].
  destruct (py_index (rng_duplicate rs 2) 0) as [rs0|e]; [|done].
  result_simpl. unfold draw_samples, Deterministic. cbn [foldr].
  by rewrite !map_replicate.
Qed.

Lemma transform_image_cv2_180 self1 self2 image :
  _LUT_CACHE self1 = _generate_lut_table →
  _LUT_CACHE self2 = _generate_lut_table →
  _transform_image_cv2 self1 image 180 0 = _transform_image_cv2 self2 image 0 0.
Proof.
  intros H1 H2. unfold _transform_image_cv2. rewrite H1, H2.
  destruct (generate_lut_table_row 180) as [-> _]; [lia|].
  destruct (generate_lut_table_row 0) as [-> ->]; [lia|].
  by rewrite lut_row_hue_180.
Qed.

Lemma AddToHue_loop_180 self1 self2 input_dtypes images :
  _LUT_CACHE self1 = _generate_lut_table →
  _LUT_CACHE self2 = _generate_lut_table →
  from_colorspace self1 = from_colorspace self2 →
  ∀ k k' i result_,
    AddToHueAndSaturation_loop self1 input_dtypes i
      (zip (zip images (replicate k 180)) (replicate k' 0)) result_ =
    AddToHueAndSaturation_loop self2 input_dtypes i
      (zip (zip images (replicate k 0)) (replicate k' 0)) result_.
Proof.
  intros H1 H2 Hcs.
  induction images as [|image images IH]; intros k k' i result_; [done|].
  destruct k as [|k]; [done|]. destruct k' as [|k']; [done|].
  cbn [replicate zip_with AddToHueAndSaturation_loop].
  rewrite (transform_image_cv2_180 self1 self2) by done.
  destruct (_transform_image_cv2 self2 image 0 0) as [image_hsv|e]; [|done].
  result_simpl.
  destruct (py_index input_dtypes (Z.of_nat i)) as [dt|e]; [|done].
  result_simpl. rewrite Hcs.
  destruct (change_colorspace_ _ _ _) as [image_rgb|e]; [|done].
  result_simpl. apply IH.
Qed.

(** C6: for every batch of images, [AddToHue] with the constant amount 255
    returns exactly what [AddToHue] with the constant amount 0 returns: the
    amount 255 is projected to 180, and the table rows for 180 and for 0 are
    the same. *)
Theorem add_to_hue_255_equals_0 (from_cs : string) (images : list ndarray)
    (random_state : RNG) :
  (aug ← AddToHue_init (ArgNumber 255) from_cs;
   AddToHueAndSaturation_augment_images aug images random_state) =
  (aug ← AddToHue_init (ArgNumber 0) from_cs;
   AddToHueAndSaturation_augment_images aug images random_state).
Proof.
  rewrite !AddToHue_init_number by lia. result_simpl.
  unfold AddToHueAndSaturation_augment_images. cbn [from_colorspace].
  destruct (change_colorspaces_ _ _ _) as [images_hsv [[]|e]]; [|done].
  result_simpl. rewrite !AddToHue_draw_samples.
  destruct (py_index (rng_duplicate random_state 2) 0) as [rs0|e]; [|done].
  result_simpl.
  change (project_hue_sample (wrap_int32 255)) with 180.
  change (project_hue_sample (wrap_int32 0)) with 0.
  by apply AddToHue_loop_180.
Qed.

End AddToHueWraparound.

(** On the one-pixel image both amounts return the image (the stand-in for
    OpenCV converts RGB to HSV and back without changing the samples). *)
Example add_to_hue_255_runs :
  (aug ← AddToHue_init (ArgNumber 255) CSPACE_RGB;
   AddToHueAndSaturation_augment_images aug [image_1x1] tt)
  = Ok [image_1x1].
Proof. vm_compute. reflexivity. Qed.

(** C5: the samples [[0, 0], [300, 300]] are accepted by [_draw_samples]
    although 300 lies outside [-255, 255]: only the first sample is checked.
    The amounts returned are 211 (hue, projected) and 300 (saturation). *)
Theorem draw_samples_accepts_out_of_range :
  AddToHueAndSaturation_draw_samples add_value_out_of_range
    [image_1x1; image_1x1] tt = Ok ([0; 211], [0; 300]).
Proof. vm_compute. reflexivity. Qed.

(** The failure shows later, when the second image is transformed: row
    [255 + 300] does not exist in the table of the saturation. *)
Lemma out_of_range_fails_at_transformation :
  AddToHueAndSaturation_augment_images add_value_out_of_range
    [image_1x1; image_1x1] tt = Raise IndexError.
Proof. vm_compute. reflexivity. Qed.

(** ** Uniform quantization *)

Lemma uint8_float_round_trip (z : Z) :
  0 ≤ z ≤ 255 → wrap_uint8 (Float.trunc (Float.of_Z z)) = z.
Proof.
  intros Hz.
  assert (Hall : forallb (fun z => wrap_uint8 (Float.trunc (Float.of_Z z)) =? z)
                   (py_range 0 256) = true) by (vm_compute; reflexivity).
  apply Z.eqb_eq, (forallb_py_range _ _ _ Hall). lia.
Qed.

Lemma idempotent_binary32 :
  forallb (idempotent_for Float.binary32) (py_range 2 256) = true.
Proof. vm_compute. reflexivity. Qed.

Lemma idempotent_binary64 :
  forallb (idempotent_for Float.binary64) (py_range 2 256) = true.
Proof. vm_compute. reflexivity. Qed.

Lemma idempotent_at_true (fmt : Float.format) (n v : Z) :
  2 ≤ n < 256 → 0 ≤ v ≤ 255 →
  idempotent_at fmt (Float.of_Z n) v = true.
Proof.
  intros Hn Hv.
  assert (Hall : idempotent_for fmt n = true).
  { destruct fmt.
    - apply (forallb_py_range _ _ _ idempotent_binary32). lia.
    - apply (forallb_py_range _ _ _ idempotent_binary64). lia. }
  apply (forallb_py_range _ _ _ Hall). lia.
Qed.

Section UniformQuantization.
Context {ext : Externals}.

(** A quantized sample is a [uint8] value that quantization leaves alone. *)
Lemma quantize_value_fixed (n v : Z) :
  2 ≤ n < 256 → 0 ≤ v ≤ 255 →
  0 ≤ quantize_value n v ≤ 255 ∧
  quantize_value n (quantize_value n v) = quantize_value n v.
Proof.
  intros Hn Hv.
  pose proof (idempotent_at_true np_array_scalar_format n v Hn Hv) as Hc.
  unfold idempotent_at in Hc. rewrite !andb_true_iff in Hc.
  destruct Hc as [[[Hlo Hhi] E1] E2].
  apply FloatAxioms.Leibniz.eqb_spec in E1, E2.
  apply Z.leb_le in Hlo, Hhi.
  set (c := quantize_float np_array_scalar_format (Float.of_Z n) (Float.of_Z v)) in *.
  set (z := float_index c) in *.
  assert (Hq : quantize_value n v = z).
  { unfold quantize_value. fold c. rewrite <- E1.
    apply uint8_float_round_trip. lia. }
  rewrite Hq. split; [lia|].
  unfold quantize_value. rewrite E1, E2. rewrite <- E1.
  apply uint8_float_round_trip. lia.
Qed.

Lemma map_array_ext (P : Z → Prop) (f g : Z → Z) (a : ndarray) :
  array_Forall P a → (∀ v, P v → f v = g v) → map_array f a = map_array g a.
Proof.
  intros Ha Hfg. destruct a as [d rows|d rows]; cbn [map_array array_Forall] in *;
    f_equal.
  - apply map_ext_in. intros row Hrow. apply map_ext_in. intros v Hv.
    rewrite Forall_forall in Ha. apply list_elem_of_In in Hrow, Hv.
    specialize (Ha _ Hrow). rewrite Forall_forall in Ha. auto.
  - apply map_ext_in. intros row Hrow. apply map_ext_in. intros px Hpx.
    apply map_ext_in. intros v Hv.
    rewrite Forall_forall in Ha. apply list_elem_of_In in Hrow, Hpx, Hv.
    specialize (Ha _ Hrow). rewrite Forall_forall in Ha.
    specialize (Ha _ Hpx). rewrite Forall_forall in Ha. auto.
Qed.

Lemma map_array_compose (f g : Z → Z) (a : ndarray) :
  map_array f (map_array g a) = map_array (fun v => f (g v)) a.
Proof.
  destruct a as [d rows|d rows]; cbn [map_array]; f_equal;
    rewrite map_map; apply map_ext; intros row;
    rewrite map_map; [done|].
  apply map_ext. intros px. by rewrite map_map.
Qed.

Lemma map_array_set_dtype (f : Z → Z) (d : string) (a : ndarray) :
  map_array f (set_dtype d a) = set_dtype d (map_array f a).
Proof. by destruct a. Qed.

Lemma dtype_name_set_dtype (d : string) (a : ndarray) :
  dtype_name (set_dtype d a) = d.
Proof. by destruct a. Qed.

(** The function on a [uint8] array and a number of colours in range. *)
Lemma quantize_colors_uniform_in_range (image : ndarray) (n : Z) :
  dtype_name image = "uint8" → 2 ≤ n ≤ 256 →
  quantize_colors_uniform image n =
  if n =? 256 then Ok image
  else Ok (set_dtype "uint8" (map_array (quantize_value n) image)).
Proof.
  intros Hd Hn. unfold quantize_colors_uniform. rewrite Hd.
  rewrite (proj2 (Z.leb_le 2 n)), (proj2 (Z.leb_le n 256)) by lia.
  result_simpl. cbn [String.eqb Ascii.eqb Bool.eqb andb].
  unfold np_clip. rewrite Z.max_l, Z.min_l by lia. reflexivity.
Qed.

(** C10: uniform quantization is idempotent: for a uint8 image and
    [n_colors] in [2, 256], the function returns an image that it maps to
    itself.  This holds for either format of the arithmetic between the
    float32 array and the float64 scalar [q]. *)
Theorem quantize_colors_uniform_idempotent (image : ndarray) (n_colors : Z) :
  uint8_array image → 2 ≤ n_colors ≤ 256 →
  ∃ out, quantize_colors_uniform image n_colors = Ok out ∧
         quantize_colors_uniform out n_colors = Ok out.
Proof.
  intros [Hd Hval] Hn.
  rewrite (quantize_colors_uniform_in_range image) by done.
  destruct (n_colors =? 256) eqn:H256.
  - exists image. split; [done|].
    rewrite (quantize_colors_uniform_in_range image) by done. by rewrite H256.
  - apply Z.eqb_neq in H256.
    eexists. split; [reflexivity|].
    rewrite quantize_colors_uniform_in_range
      by (done || apply dtype_name_set_dtype).
    rewrite (proj2 (Z.eqb_neq _ _)) by done.
    apply (f_equal Ok). rewrite map_array_set_dtype, map_array_compose.
    rewrite (map_array_ext is_uint8_value _ (quantize_value n_colors) image);
      [by destruct image|done|].
    intros v Hv. apply quantize_value_fixed; [lia|done].
Qed.

End UniformQuantization.

(** ** The number of colours *)

Section NumberOfColors.
Context {ext : Externals}.

Lemma ndim_2_or_3 (image : ndarray) : bool_decide (ndim image ∈ [2; 3]) = true.
Proof.
  apply bool_decide_eq_true_2. destruct image; cbn [ndim].
  - apply list_elem_of_here.
  - apply list_elem_of_further, list_elem_of_here.
Qed.


(** C8 (amended): for a uint8 image with H*W pixels and [n_colors] in
    [2, 256] with [n_colors >= H*W], k-means quantization returns the input
    image unchanged. *)
Theorem kmeans_returns_input (image : ndarray) (n_colors h w : Z) (rest : list Z) :
  dtype_name image = "uint8" → shape image = h :: w :: rest →
  2 ≤ n_colors ≤ 256 → h * w ≤ n_colors →
  quantize_colors_kmeans image n_colors = Ok image.
Proof.
  intros Hd Hshape Hn Hpix.
  unfold quantize_colors_kmeans, quantize_colors_kmeans_with.
  rewrite ndim_2_or_3, Hd, Hshape.
  rewrite (proj2 (Z.leb_le 2 n_colors)), (proj2 (Z.leb_le n_colors 256)) by lia.
  cbn [take foldr]. rewrite Z.mul_1_r.
  rewrite (proj2 (Z.leb_le (h * w) n_colors)) by lia.
  reflexivity.
Qed.


End NumberOfColors.

(** ** The alpha channel *)

Lemma shape_rect3 (H W C : nat) d rows :
  rect3 H W C rows → (0 < H)%nat → (0 < W)%nat →
  shape (Array3 d rows) = [Z.of_nat H; Z.of_nat W; Z.of_nat C].
Proof.
  intros [Hlen Hrows] HH HW. cbn [shape].
  destruct rows as [|row rows]; cbn [length] in *; [lia|].
  apply Forall_cons in Hrows as [[Hrow Hpx] _].
  destruct row as [|px row]; cbn [length] in *; [lia|].
  apply Forall_cons in Hpx as [Hpx _].
  cbn [hd]. cbn [length]. subst. reflexivity.
Qed.

(** Pixels of three samples joined with pixels of one sample, along a row. *)
Lemma zip_pixels_row (row1 : list (list Z)) : ∀ row2 : list (list Z),
  length row1 = length row2 →
  Forall (fun px => length px = 3%nat) row1 →
  Forall (fun px => length px = 1%nat) row2 →
  map (fun px => take (4 - 3) (drop 3 px)) (zip_with app row1 row2) = row2 ∧
  map (fun px => take (3 - 0) (drop 0 px)) (zip_with app row1 row2) = row1 ∧
  Forall (fun px => length px = 4%nat) (zip_with app row1 row2) ∧
  length (zip_with app row1 row2) = length row1.
Proof.
  induction row1 as [|px1 row1 IH]; intros [|px2 row2] Hlen H1 H2;
    try discriminate Hlen; [by repeat split|].
  apply Forall_cons in H1 as [Hp1 H1]. apply Forall_cons in H2 as [Hp2 H2].
  cbn [length] in Hlen.
  destruct (IH row2) as (Ea & Eb & Ec & Ed); [lia|done|done|].
  cbn [zip_with map length]. rewrite Ea, Eb, Ed. repeat split.
  - f_equal. rewrite drop_app_length' by done. apply take_ge. lia.
  - f_equal. change (take 3 (px1 ++ px2) = px1).
    by rewrite take_app_length'.
  - apply Forall_cons. split; [|done]. rewrite length_app. lia.
Qed.

Lemma zip_pixels (H W : nat) (rows1 : list (list (list Z))) :
  ∀ rows2 : list (list (list Z)),
  rect3 H W 3 rows1 → rect3 H W 1 rows2 →
  map (map (fun px => take (4 - 3) (drop 3 px)))
      (zip_with (zip_with app) rows1 rows2) = rows2 ∧
  map (map (fun px => take (3 - 0) (drop 0 px)))
      (zip_with (zip_with app) rows1 rows2) = rows1 ∧
  rect3 H W 4 (zip_with (zip_with app) rows1 rows2).
Proof.
  revert H.
  induction rows1 as [|row1 rows1 IH]; intros H [|row2 rows2] [L1 R1] [L2 R2];
    cbn [length] in *; try (exfalso; lia).
  { repeat split; [done|constructor]. }
  apply Forall_cons in R1 as [[Hw1 Hp1] R1].
  apply Forall_cons in R2 as [[Hw2 Hp2] R2].
  destruct (IH (length rows1) rows2) as (Ea & Eb & [Ec Ed]);
    [by split|split; [lia|done]|].
  destruct (zip_pixels_row row1 row2) as (Fa & Fb & Fc & Fd); [lia|done|done|].
  cbn [zip_with map]. rewrite Ea, Eb, Fa, Fb. repeat split.
  - cbn [length]. lia.
  - apply Forall_cons. split; [|done]. split; [lia|done].
Qed.

Lemma alpha_rows_rect (H W : nat) (rows : list (list (list Z))) :
  rect3 H W 4 rows →
  rect3 H W 1 (map (map (fun px => take (4 - 3) (drop 3 px))) rows).
Proof.
  intros [Hlen Hrows]. split; [by rewrite length_map|].
  apply Forall_forall. intros row' Hrow'.
  apply list_elem_of_In, in_map_iff in Hrow' as (row & <- & Hrow).
  rewrite Forall_forall in Hrows.
  destruct (Hrows row) as [Hw Hpx]; [by apply list_elem_of_In|].
  split; [by rewrite length_map|].
  apply Forall_forall. intros px' Hpx'.
  apply list_elem_of_In, in_map_iff in Hpx' as (px & <- & Hin).
  rewrite Forall_forall in Hpx.
  specialize (Hpx px (proj2 (list_elem_of_In _ _) Hin)).
  rewrite length_take, length_drop. lia.
Qed.

Section AlphaChannel.
Context {ext : Externals}.

Lemma ensure_max_size_small (H W C : nat) image max_size_ interp :
  uint8_image H W C image →
  (∀ m, max_size_ = Some m → Z.max (Z.of_nat H) (Z.of_nat W) ≤ m) →
  _ensure_max_size image max_size_ interp = Ok image.
Proof.
  intros Himg Hmax. unfold _ensure_max_size.
  destruct max_size_ as [m|]; [|done].
  destruct (shape_uint8_image _ _ _ _ Himg) as (-> & _ & _).
  change (py_index [Z.of_nat H; Z.of_nat W; Z.of_nat C] 0) with (Ok (Z.of_nat H)).
  change (py_index [Z.of_nat H; Z.of_nat W; Z.of_nat C] 1) with (Ok (Z.of_nat W)).
  result_simpl.
  rewrite (proj2 (Z.ltb_ge _ _)) by (apply Hmax; done).
  reflexivity.
Qed.

(** C1 (amended): for a uint8 image of four channels that is not
    downscaled ([max_size] is [None], or no side exceeds it) and whose three
    colour planes are quantized to a uint8 image of the same height and
    width, the augmenter returns an image of the same shape whose fourth
    channel is the fourth channel of the input and whose first three
    channels are the quantized planes. *)
Theorem alpha_channel_passthrough (self : ColorQuantization)
    (image : ndarray) (n : Z) (random_state : RNG) (H W : nat)
    (planes quantized : ndarray) :
  uint8_image H W 4 image →
  (∀ m, max_size self = Some m → Z.max (Z.of_nat H) (Z.of_nat W) ≤ m) →
  slice_channels 0 3 image = Ok planes →
  quantize_in_colorspace self planes n random_state = Ok quantized →
  uint8_image H W 3 quantized →
  ∃ out, _augment_single_image self image n random_state = Ok out ∧
         shape out = shape image ∧
         slice_channels 3 4 out = slice_channels 3 4 image ∧
         slice_channels 0 3 out = Ok quantized.
Proof.
  intros Himg Hmax Hplanes Hq Hquant.
  unfold _augment_single_image.
  rewrite (ensure_max_size_small H W 4) by done.
  destruct (shape_uint8_image _ _ _ _ Himg) as (Hshape & Hd & _).
  result_simpl. rewrite Hshape. unfold py_last.
  change (py_index [Z.of_nat H; Z.of_nat W; Z.of_nat 4] (-1)) with (Ok (A:=Z) 4).
  result_simpl.
  rewrite (bool_decide_eq_true_2 (4 ∈ [1; 3; 4]))
    by (do 2 apply list_elem_of_further; apply list_elem_of_here).
  result_simpl. change (4 =? 1) with false. change (4 =? 4) with true.
  cbv iota. rewrite Hplanes.
  destruct image as [d rows|d rows]; [destruct Himg|].
  destruct quantized as [dq rowsq|dq rowsq]; [destruct Hquant|].
  cbn [slice_channels]. result_simpl. rewrite Hq. result_simpl.
  destruct Himg as (-> & HH & HW & Hrect & Hval).
  destruct Hquant as (-> & _ & _ & Hrectq & Hvalq).
  pose proof (alpha_rows_rect H W rows Hrect) as Hralpha.
  destruct (zip_pixels H W rowsq _ Hrectq Hralpha) as (Ea & Eb & Erect).
  unfold concatenate_axis2.
  rewrite (shape_rect3 H W 3), (shape_rect3 H W 1) by done.
  rewrite bool_decide_eq_true_2 by done.
  change (String.eqb "uint8" "uint8") with true. cbv iota. result_simpl.
  rewrite (shape_rect3 H W 4) by done.
  rewrite bool_decide_eq_false_2 by (intros Hne; by apply Hne).
  eexists. split; [reflexivity|].
  rewrite (shape_rect3 H W 4) by done.
  cbn [slice_channels]. rewrite Ea, Eb. done.
Qed.

End AlphaChannel.

(** * Further properties *)

(** ** Validation and results of the converter *)

Section ConverterErrors.
Context {ext : Externals}.

Lemma gate_uint8 (image : ndarray) allowed disallowed :
  dtype_name image = "uint8" → "uint8" ∈ allowed →
  gate_dtypes image allowed disallowed = Ok tt.
Proof.
  intros Hd Ha. unfold gate_dtypes. rewrite Hd.
  by rewrite bool_decide_eq_true_2.
Qed.

(** The conversion from GRAY never returns. *)
Lemma change_colorspace_from_gray_raises (image : ndarray) (to_cs : string) :
  ∃ e, change_colorspace_ image to_cs CSPACE_GRAY = Raise e.
Proof.
  unfold change_colorspace_.
  destruct (gate_dtypes _ _ _) as [[]|e]; [|by eexists].
  result_simpl.
  destruct (bool_decide (to_cs ∈ CSPACE_ALL)); [|by eexists].
  result_simpl.
  destruct (bool_decide (CSPACE_GRAY ∈ CSPACE_ALL)); [|by eexists].
  result_simpl.
  rewrite (bool_decide_eq_false_2 (CSPACE_GRAY ≠ CSPACE_GRAY)) by (intros H; by apply H).
  by eexists.
Qed.

(** X1: the arguments are validated before the test [from == to]: for a
    [uint8] array, an unknown target or source tag, the source GRAY, a rank
    other than 3 and a number of channels other than 3 each raise an
    [AssertionError], also when source and target are the same
    colourspace. *)
Theorem change_colorspace_validation (image : ndarray) (to_cs from_cs : string) :
  dtype_name image = "uint8" →
  to_cs ∉ CSPACE_ALL ∨ from_cs ∉ CSPACE_ALL ∨ from_cs = CSPACE_GRAY
    ∨ ndim image ≠ 3 ∨ shape image !! 2%nat ≠ Some 3 →
  ∃ msg, change_colorspace_ image to_cs from_cs = Raise (AssertionError msg).
Proof.
  intros Hd Hbad. unfold change_colorspace_.
  rewrite gate_uint8 by (done || apply list_elem_of_here).
  result_simpl.
  destruct (decide (to_cs ∈ CSPACE_ALL)) as [Ht|Ht];
    [rewrite (bool_decide_eq_true_2 _ Ht)
    |rewrite (bool_decide_eq_false_2 _ Ht); by eexists].
  result_simpl.
  destruct (decide (from_cs ∈ CSPACE_ALL)) as [Hf|Hf];
    [rewrite (bool_decide_eq_true_2 _ Hf)
    |rewrite (bool_decide_eq_false_2 _ Hf); by eexists].
  result_simpl.
  destruct (decide (from_cs ≠ CSPACE_GRAY)) as [Hg|Hg];
    [rewrite (bool_decide_eq_true_2 _ Hg)
    |rewrite (bool_decide_eq_false_2 _ Hg); by eexists].
  result_simpl.
  destruct (ndim image =? 3) eqn:Hn; [|by eexists].
  result_simpl. apply Z.eqb_eq in Hn.
  destruct (decide (shape image !! 2%nat = Some 3)) as [Hs|Hs];
    [|rewrite (bool_decide_eq_false_2 _ Hs); by eexists].
  exfalso. tauto.
Qed.

(** What a successful conversion returns is of rank 3. *)
Lemma gray_to_3_channels_ndim (a : ndarray) : ndim (gray_to_3_channels a) = 3.
Proof. by destruct a. Qed.

Lemma gray_to_3_channels_dtype (a : ndarray) :
  dtype_name (gray_to_3_channels a) = dtype_name a.
Proof. by destruct a. Qed.

Lemma change_colorspace_Ok_inv (image out : ndarray) (to_cs from_cs : string) :
  dtype_name image = "uint8" →
  change_colorspace_ image to_cs from_cs = Ok out →
  ndim out = 3 ∧ dtype_name out = "uint8" ∧
  to_cs ∈ CSPACE_ALL ∧ from_cs ∈ CSPACE_ALL ∧ from_cs ≠ CSPACE_GRAY ∧
  ndim image = 3 ∧ shape image !! 2%nat = Some 3.
Proof.
  intros Hd. unfold change_colorspace_.
  rewrite gate_uint8 by (done || apply list_elem_of_here).
  result_simpl.
  destruct (decide (to_cs ∈ CSPACE_ALL)) as [Ht|Ht];
    [rewrite (bool_decide_eq_true_2 _ Ht)
    |rewrite (bool_decide_eq_false_2 _ Ht); discriminate].
  result_simpl.
  destruct (decide (from_cs ∈ CSPACE_ALL)) as [Hf|Hf];
    [rewrite (bool_decide_eq_true_2 _ Hf)
    |rewrite (bool_decide_eq_false_2 _ Hf); discriminate].
  result_simpl.
  destruct (decide (from_cs ≠ CSPACE_GRAY)) as [Hg|Hg];
    [rewrite (bool_decide_eq_true_2 _ Hg)
    |rewrite (bool_decide_eq_false_2 _ Hg); discriminate].
  result_simpl.
  destruct (ndim image =? 3) eqn:Hn; [|discriminate].
  result_simpl. apply Z.eqb_eq in Hn.
  destruct (decide (shape image !! 2%nat = Some 3)) as [Hs|Hs];
    [rewrite (bool_decide_eq_true_2 _ Hs)
    |rewrite (bool_decide_eq_false_2 _ Hs); discriminate].
  result_simpl.
  destruct (bool_decide (from_cs = to_cs)).
  { intros [= <-]. done. }
  match goal with |- context [mbind _ ?m] => destruct m as [image_aug|e] end;
    [|discriminate].
  result_simpl.
  destruct (String.eqb (dtype_name image_aug) "uint8") eqn:Hu; [|discriminate].
  result_simpl. intros [= <-]. apply String.eqb_eq in Hu.
  rewrite gray_to_3_channels_ndim, gray_to_3_channels_dtype. done.
Qed.

(** X2: whatever OpenCV returns, a conversion of a [uint8] array that
    succeeds yields an array of rank 3 and dtype [uint8]. *)
Theorem change_colorspace_success (image out : ndarray) (to_cs from_cs : string) :
  dtype_name image = "uint8" →
  change_colorspace_ image to_cs from_cs = Ok out →
  ndim out = 3 ∧ dtype_name out = "uint8".
Proof.
  intros Hd Hok.
  destruct (change_colorspace_Ok_inv _ _ _ _ Hd Hok) as (? & ? & _). done.
Qed.

End ConverterErrors.

Section BatchFacts.
Context {ext : Externals}.

(** X3: [change_colorspaces_] never changes the number of images in the
    list, whether it returns or raises; and when it returns for a batch of
    [uint8] arrays, every image of the list is of rank 3 and dtype
    [uint8]. *)
Theorem change_colorspaces_invariants (images : list ndarray)
    (to_colorspaces from_colorspaces : cspace_arg) :
  Forall (fun image => dtype_name image = "uint8") images →
  length (change_colorspaces_ images to_colorspaces from_colorspaces).1
    = length images
  ∧ ((change_colorspaces_ images to_colorspaces from_colorspaces).2 = Ok tt →
     Forall (fun out => ndim out = 3 ∧ dtype_name out = "uint8")
       (change_colorspaces_ images to_colorspaces from_colorspaces).1).
Proof.
  intros Hd. split; [apply change_colorspaces_length|].
  destruct (change_colorspaces_ _ _ _) as [final r] eqn:Hrun.
  cbn [fst snd]. intros ->.
  apply change_colorspaces_Ok in Hrun as (tos & froms & Ht & Hf & Hall).
  apply Forall_forall. intros out Hout.
  apply list_elem_of_lookup in Hout as [k Hk].
  destruct (Forall2_lookup_r _ _ _ _ _ Hall Hk) as ([[img t] f] & Hg & Hconv).
  apply lookup_zip_with_Some in Hg as ([img' t'] & f' & [= <- <- <-] & Hg & _).
  apply lookup_zip_with_Some in Hg as (img' & t' & [= <- <-] & Himg & _).
  rewrite Forall_forall in Hd.
  destruct (change_colorspace_Ok_inv img out t f) as (? & ? & _); [|done|done].
  apply Hd. by eapply list_elem_of_lookup_2.
Qed.

End BatchFacts.

(** ** [WithColorspace] *)

Section WithColorspaceTheorems.
Context {ext : Externals}.

Lemma change_colorspaces_result_length images t f out :
  change_colorspaces_result images t f = Ok out → length out = length images.
Proof.
  unfold change_colorspaces_result.
  pose proof (change_colorspaces_length images t f) as Hlen.
  destruct (change_colorspaces_ images t f) as [final [[]|e]]; [|discriminate].
  result_simpl. by intros [= <-].
Qed.

(** A non-empty batch cannot be converted from GRAY. *)
Lemma change_colorspaces_from_gray images (to_cs : string) :
  images ≠ [] →
  ∃ e, change_colorspaces_result images (OneCspace to_cs) (OneCspace CSPACE_GRAY)
       = Raise e.
Proof.
  intros Hne. destruct images as [|image images]; [done|].
  destruct (change_colorspace_from_gray_raises image to_cs) as [e He].
  exists e. unfold change_colorspaces_result.
  pose proof (change_colorspaces_first_fails image images to_cs CSPACE_GRAY e He)
    as Hf.
  destruct (change_colorspaces_ _ _ _) as [final res].
  cbn [snd] in Hf. by rewrite Hf.
Qed.

(** X4: [WithColorspace] with the target colourspace GRAY raises for every
    non-empty batch (when the hooks let it run and the children keep the
    number of images): the images are converted to GRAY, and the conversion
    back has GRAY as its source, which [change_colorspace_] rejects. *)
Theorem WithColorspace_gray_raises (from_cs : string)
    (children : list ndarray → result (list ndarray))
    (hooks : option (list ndarray → bool)) (images : list ndarray) :
  _is_propagating images hooks = true →
  images ≠ [] →
  (∀ batch out, children batch = Ok out → length out = length batch) →
  ∃ e, WithColorspace_augment_images CSPACE_GRAY from_cs children hooks images
       = Raise e.
Proof.
  intros Hprop Hne Hchildren. unfold WithColorspace_augment_images.
  rewrite Hprop.
  destruct (change_colorspaces_result images _ _) as [gray|e] eqn:Hto;
    [|by exists e].
  result_simpl.
  destruct (children gray) as [out|e] eqn:Hc; [|by exists e].
  result_simpl.
  apply change_colorspaces_from_gray.
  apply change_colorspaces_result_length in Hto.
  apply Hchildren in Hc.
  intros ->. destruct images; [done|]. cbn [length] in *. lia.
Qed.

(** The batch conversion from a colourspace to itself. *)
Lemma change_colorspaces_same (images : list ndarray) (A : string) :
  Forall uint8_color_image images → A ∈ CSPACE_ALL → A ≠ CSPACE_GRAY →
  change_colorspaces_result images (OneCspace A) (OneCspace A) = Ok images.
Proof.
  intros Himgs HA Hgray. unfold change_colorspaces_result.
  rewrite (change_colorspaces_all_Ok images (OneCspace A) (OneCspace A) images);
    [reflexivity|exact I|exact I|].
  cbn [per_image]. apply Forall2_same_length_lookup_2.
  { rewrite !length_zip_with, !length_replicate. lia. }
  intros k [[img t] f] out Hg Hout.
  apply lookup_zip_with_Some in Hg as ([img' t'] & f' & [= <- <- <-] & Hg & Hf).
  apply lookup_zip_with_Some in Hg as (img' & t' & [= <- <-] & Himg & Ht).
  apply lookup_replicate in Hf as [-> _]. apply lookup_replicate in Ht as [-> _].
  rewrite Himg in Hout. injection Hout as <-.
  unfold converts_to. cbn [fst snd].
  rewrite Forall_forall in Himgs.
  destruct (Himgs img) as (H & W & Hu); [by eapply list_elem_of_lookup_2|].
  rewrite (change_colorspace_checked H W) by done.
  by rewrite bool_decide_eq_true_2.
Qed.

(** X5: [WithColorspace] whose target is its source colourspace (a known one
    other than GRAY) does to a batch of three-channel [uint8] images exactly
    what its children do, provided they return such images. *)
Theorem WithColorspace_same_colorspace (A : string)
    (children : list ndarray → result (list ndarray))
    (hooks : option (list ndarray → bool)) (images : list ndarray) :
  _is_propagating images hooks = true →
  A ∈ CSPACE_ALL → A ≠ CSPACE_GRAY →
  Forall uint8_color_image images →
  (∀ out, children images = Ok out → Forall uint8_color_image out) →
  WithColorspace_augment_images A A children hooks images = children images.
Proof.
  intros Hprop HA Hgray Himgs Hchildren. unfold WithColorspace_augment_images.
  rewrite Hprop, change_colorspaces_same by done. result_simpl.
  destruct (children images) as [out|e] eqn:Hc; [|done].
  result_simpl. apply change_colorspaces_same; auto.
Qed.

End WithColorspaceTheorems.

(** ** The bounds of the lookup tables *)

Lemma py_index_in_range {A} (l : list A) (i : Z) :
  0 ≤ i < Z.of_nat (length l) →
  py_index l i = match l !! Z.to_nat i with Some a => Ok a | None => Raise IndexError end.
Proof.
  intros Hi. unfold py_index.
  rewrite (proj2 (Z.ltb_ge _ _)) by lia.
  rewrite (proj2 (Z.leb_le _ _)) by lia.
  rewrite (proj2 (Z.ltb_lt _ _)) by lia. reflexivity.
Qed.

Lemma py_index_negative {A} (l : list A) (i : Z) :
  - Z.of_nat (length l) ≤ i < 0 →
  py_index l i = py_index l (i + Z.of_nat (length l)).
Proof.
  intros Hi. rewrite (py_index_in_range l (i + _)) by lia.
  unfold py_index.
  rewrite (proj2 (Z.ltb_lt i 0)) by lia.
  rewrite (proj2 (Z.leb_le _ _)) by lia.
  rewrite (proj2 (Z.ltb_lt _ _)) by lia. reflexivity.
Qed.

Lemma py_index_outside {A} (l : list A) (i : Z) :
  i < - Z.of_nat (length l) ∨ Z.of_nat (length l) ≤ i →
  py_index l i = Raise IndexError.
Proof.
  intros Hi. unfold py_index.
  destruct (i <? 0) eqn:Hneg.
  - apply Z.ltb_lt in Hneg.
    rewrite (proj2 (Z.leb_gt _ _)) by lia. reflexivity.
  - apply Z.ltb_ge in Hneg.
    rewrite (proj2 (Z.leb_le _ _)) by lia.
    rewrite (proj2 (Z.ltb_ge _ _)) by lia. reflexivity.
Qed.

Lemma py_index_Ok_or_IndexError {A} (l : list A) (i : Z) :
  (∃ a, py_index l i = Ok a) ∨ py_index l i = Raise IndexError.
Proof.
  unfold py_index. destruct (_ && _); [|by right].
  destruct (l !! _); [left; by eexists|by right].
Qed.

Section TableBounds.
Context {ext : Externals}.

(** X6: an amount outside [-767, 256] for the hue or for the saturation
    makes [_transform_image_cv2] raise an [IndexError], whatever the
    image. *)
Theorem transform_image_cv2_index_error self image (hue saturation : Z) :
  _LUT_CACHE self = _generate_lut_table →
  hue < -767 ∨ 256 < hue ∨ saturation < -767 ∨ 256 < saturation →
  _transform_image_cv2 self image hue saturation = Raise IndexError.
Proof.
  intros Hlut Hout. unfold _transform_image_cv2. rewrite Hlut.
  destruct generate_lut_table_length as [L1 L2].
  destruct (py_index_Ok_or_IndexError _generate_lut_table.1 (255 + hue))
    as [[rh Hh]|Hh]; rewrite Hh; [|reflexivity].
  result_simpl.
  assert (Hin : -767 ≤ hue ≤ 256).
  { destruct (decide (-767 ≤ hue ≤ 256)) as [|Hn]; [done|].
    rewrite py_index_outside in Hh by (rewrite L1; lia). discriminate. }
  rewrite py_index_outside by (rewrite L2; lia). reflexivity.
Qed.

(** X7: an amount in [-767, -256] is not rejected: the index [255 + amount]
    is negative and counts from the end of the table, so that the amount
    acts as the amount increased by 512. *)
Theorem transform_image_cv2_negative_wraps self image (amount other : Z) :
  _LUT_CACHE self = _generate_lut_table →
  -767 ≤ amount ≤ -256 →
  _transform_image_cv2 self image amount other =
    _transform_image_cv2 self image (amount + 512) other
  ∧ _transform_image_cv2 self image other amount =
    _transform_image_cv2 self image other (amount + 512).
Proof.
  intros Hlut Ha. unfold _transform_image_cv2. rewrite Hlut.
  destruct generate_lut_table_length as [L1 L2].
  rewrite (py_index_negative _generate_lut_table.1 (255 + amount))
    by (rewrite L1; lia).
  rewrite (py_index_negative _generate_lut_table.2 (255 + amount))
    by (rewrite L2; lia).
  rewrite L1, L2.
  replace (255 + amount + Z.of_nat 512) with (255 + (amount + 512)) by lia.
  split; reflexivity.
Qed.

End TableBounds.

(** ** The transformation of one image *)

Lemma cv2_LUT_zeros (v : Z) : 0 ≤ v ≤ 255 → cv2_LUT (replicate 256 0) v = 0.
Proof.
  intros Hv. unfold cv2_LUT.
  rewrite lookup_replicate_2 by lia. reflexivity.
Qed.

Lemma map_pixels_compose (f g : list Z → list Z) (a : ndarray) :
  map_pixels f (map_pixels g a) = map_pixels (fun px => f (g px)) a.
Proof.
  destruct a as [d rows|d rows]; [done|]. cbn [map_pixels]. f_equal.
  rewrite map_map. apply map_ext. intros row. by rewrite map_map.
Qed.

(** A function on pixels that keeps the number of samples and the range of
    a [uint8] keeps the image well formed. *)
Lemma map_pixels_uint8_image H W C (f : list Z → list Z) image :
  uint8_image H W C image →
  (∀ px, length px = C → Forall is_uint8_value px →
         length (f px) = C ∧ Forall is_uint8_value (f px)) →
  uint8_image H W C (map_pixels f image).
Proof.
  destruct image as [d rows|d rows]; [done|].
  intros Himg Hf.
  pose proof (uint8_image_pixels _ _ _ _ _ Himg) as Hpx.
  destruct Himg as (-> & HH & HW & [Hlen Hrect] & Hval).
  cbn [map_pixels uint8_image]. repeat split; [done..| | |].
  - by rewrite length_map.
  - apply Forall_forall. intros row' Hrow'.
    apply list_elem_of_In, in_map_iff in Hrow' as (row & <- & Hrow).
    rewrite Forall_forall in Hrect.
    destruct (Hrect row (proj2 (list_elem_of_In _ _) Hrow)) as [Hw _].
    split; [by rewrite length_map|].
    apply Forall_forall. intros px' Hpx'.
    apply list_elem_of_In, in_map_iff in Hpx' as (px & <- & Hin).
    destruct (Hpx row px Hrow Hin) as [Hl Hv]. by apply Hf.
  - apply Forall_forall. intros row' Hrow'.
    apply list_elem_of_In, in_map_iff in Hrow' as (row & <- & Hrow).
    apply Forall_forall. intros px' Hpx'.
    apply list_elem_of_In, in_map_iff in Hpx' as (px & <- & Hin).
    destruct (Hpx row px Hrow Hin) as [Hl Hv]. by apply Hf.
Qed.

Lemma map_pixels_id H W C (f : list Z → list Z) image :
  uint8_image H W C image →
  (∀ px, length px = C → Forall is_uint8_value px → f px = px) →
  map_pixels f image = image.
Proof.
  intros Himg Hf.
  rewrite (map_pixels_ext H W C f (fun px => px)) by done.
  destruct image as [d rows|d rows]; [done|]. cbn [map_pixels]. f_equal.
  rewrite <- (map_id rows) at 2. apply map_ext. intros row. apply map_id.
Qed.

Section TransformImage.
Context {ext : Externals}.

Lemma transform_image_cv2_shift self (H W : nat) image (hue saturation : Z) :
  _LUT_CACHE self = _generate_lut_table →
  uint8_image H W 3 image →
  -255 ≤ hue ≤ 255 → -255 ≤ saturation ≤ 255 →
  _transform_image_cv2 self image hue saturation =
  Ok (map_pixels (shift_pixel hue saturation) image).
Proof. apply transform_image_cv2_in_range. Qed.

Lemma shift_pixel_uint8 (hue saturation : Z) (px : list Z) :
  length px = 3%nat → Forall is_uint8_value px →
  length (shift_pixel hue saturation px) = 3%nat ∧
  Forall is_uint8_value (shift_pixel hue saturation px).
Proof.
  destruct px as [|h [|s rest]]; try done.
  intros Hlen Hval. cbn [shift_pixel]. split; [done|].
  apply Forall_cons in Hval as [Hh Hval]. apply Forall_cons in Hval as [Hs Hval].
  repeat apply Forall_cons_2; [| |done]; unfold is_uint8_value in *.
  - pose proof (Z.mod_pos_bound (h + hue) 180). lia.
  - lia.
Qed.

Lemma shift_image_uint8 H W image (hue saturation : Z) :
  uint8_image H W 3 image →
  uint8_image H W 3 (map_pixels (shift_pixel hue saturation) image).
Proof.
  intros Himg. apply map_pixels_uint8_image; [done|].
  intros px. apply shift_pixel_uint8.
Qed.

Lemma shift_image_hue H W image (hue saturation : Z) :
  uint8_image H W 3 image →
  hue_below_180 (map_pixels (shift_pixel hue saturation) image).
Proof.
  destruct image as [d rows|d rows]; [done|]. intros Himg.
  cbn [map_pixels hue_below_180].
  apply Forall_forall. intros row' Hrow'.
  apply list_elem_of_In, in_map_iff in Hrow' as (row & <- & Hrow).
  apply Forall_forall. intros px' Hpx'.
  apply list_elem_of_In, in_map_iff in Hpx' as (px & <- & Hin).
  destruct (uint8_image_pixels _ _ _ _ _ Himg row px Hrow Hin) as [Hl _].
  destruct px as [|h [|s rest]]; try discriminate Hl. cbn [shift_pixel].
  pose proof (Z.mod_pos_bound (h + hue) 180). lia.
Qed.

(** X8: for amounts in [-255, 255], [_transform_image_cv2] maps a [uint8]
    image of three channels to a [uint8] image of the same shape in which
    every hue is below 180, also where the input held a hue of 180 or more. *)
Theorem transform_image_cv2_valid_hsv self (H W : nat) image (hue saturation : Z) :
  _LUT_CACHE self = _generate_lut_table →
  uint8_image H W 3 image →
  -255 ≤ hue ≤ 255 → -255 ≤ saturation ≤ 255 →
  ∃ out, _transform_image_cv2 self image hue saturation = Ok out ∧
         uint8_image H W 3 out ∧ shape out = shape image ∧ hue_below_180 out.
Proof.
  intros Hlut Himg Hh Hs. eexists. split.
  { apply (transform_image_cv2_shift self H W);
      [exact Hlut|exact Himg|lia|lia]. }
  pose proof (shift_image_uint8 H W image hue saturation Himg) as Hout.
  repeat split; [done| |by apply (shift_image_hue H W)].
  destruct (shape_uint8_image _ _ _ _ Hout) as (-> & _).
  by destruct (shape_uint8_image _ _ _ _ Himg) as (-> & _).
Qed.

(** X9: the two backends agree.  For amounts in [-255, 255] and a [uint8]
    image of three channels, [_transform_image_numpy] returns the array that
    [_transform_image_cv2] returns, as [int16]. *)
Theorem transform_image_backends_agree self (H W : nat) image (hue saturation : Z) :
  _LUT_CACHE self = _generate_lut_table →
  uint8_image H W 3 image →
  -255 ≤ hue ≤ 255 → -255 ≤ saturation ≤ 255 →
  _transform_image_numpy image hue saturation =
  set_dtype "int16" <$> _transform_image_cv2 self image hue saturation.
Proof.
  intros Hlut Himg Hh Hs.
  rewrite (transform_image_cv2_shift self H W);
    [|exact Hlut|exact Himg|lia|lia].
  unfold _transform_image_numpy.
  destruct image as [d rows|d rows]; [destruct Himg|].
  rewrite (uint8_image_two_channels H W 3 d rows) by (exact Himg || lia).
  cbn [fmap result_fmap set_dtype map_pixels]. do 2 f_equal.
  apply map_ext_in. intros row Hrow. apply map_ext_in. intros px Hpx.
  destruct (uint8_image_pixels _ _ _ _ _ Himg row px Hrow Hpx) as [Hl Hv].
  destruct px as [|h [|s rest]]; try discriminate Hl. cbn [shift_pixel].
  apply Forall_cons in Hv as [Hvh Hv]. apply Forall_cons in Hv as [Hvs Hv].
  unfold is_uint8_value in *.
  unfold wrap_int16, np_clip.
  pose proof (Z.mod_pos_bound (h + hue) 180).
  f_equal; [|f_equal].
  - rewrite Z.mod_small by lia. lia.
  - rewrite Z.mod_small by lia. lia.
Qed.

(** X10: amounts add up.  For a [uint8] image of three channels, adding the
    amounts [(a, sa)] and then [(b, sb)] is adding [(a + b, sa + sb)], when
    all six amounts are in [-255, 255] and the two saturation amounts do not
    have opposite signs. *)
Theorem transform_image_cv2_composes self (H W : nat) image (a b sa sb : Z) :
  _LUT_CACHE self = _generate_lut_table →
  uint8_image H W 3 image →
  -255 ≤ a ≤ 255 → -255 ≤ b ≤ 255 → -255 ≤ a + b ≤ 255 →
  -255 ≤ sa ≤ 255 → -255 ≤ sb ≤ 255 → -255 ≤ sa + sb ≤ 255 →
  0 ≤ sa * sb →
  (image1 ← _transform_image_cv2 self image a sa;
   _transform_image_cv2 self image1 b sb) =
  _transform_image_cv2 self image (a + b) (sa + sb).
Proof.
  intros Hlut Himg Ha Hb Hab Hsa Hsb Hsab Hsign.
  rewrite (transform_image_cv2_shift self H W image a sa);
    [|exact Hlut|exact Himg|lia|lia].
  rewrite (transform_image_cv2_shift self H W image (a + b) (sa + sb));
    [|exact Hlut|exact Himg|lia|lia].
  result_simpl.
  rewrite (transform_image_cv2_shift self H W);
    [|exact Hlut|apply shift_image_uint8; exact Himg|lia|lia].
  f_equal. rewrite map_pixels_compose.
  apply (map_pixels_ext H W 3); [done|].
  intros [|h [|s rest]] Hlen Hval; try discriminate Hlen. cbn [shift_pixel].
  apply Forall_cons in Hval as [Hvh Hval]. apply Forall_cons in Hval as [Hvs _].
  unfold is_uint8_value in *.
  f_equal; [|f_equal].
  - rewrite Z.add_mod_idemp_l by lia. f_equal. lia.
  - nia.
Qed.

(** X11: the amounts 0 change nothing in an image whose hues are below 180,
    and an addition to the hue is undone by the opposite addition. *)
Theorem transform_image_cv2_undo self (H W : nat) image (a : Z) :
  _LUT_CACHE self = _generate_lut_table →
  uint8_image H W 3 image → hue_below_180 image →
  -255 ≤ a ≤ 255 →
  _transform_image_cv2 self image 0 0 = Ok image ∧
  (image1 ← _transform_image_cv2 self image a 0;
   _transform_image_cv2 self image1 (- a) 0) = Ok image.
Proof.
  intros Hlut Himg Hhue Ha.
  assert (Hid : ∀ f,
    (∀ h s rest, 0 ≤ h < 180 → 0 ≤ s ≤ 255 → f (h :: s :: rest) = h :: s :: rest) →
    map_pixels f image = image).
  { intros f Hf. destruct image as [d rows|d rows]; [done|].
    cbn [map_pixels]. f_equal.
    rewrite <- (map_id rows) at 2. apply map_ext_in. intros row Hrow.
    rewrite <- (map_id row) at 2. apply map_ext_in. intros px Hpx.
    destruct (uint8_image_pixels _ _ _ _ _ Himg row px Hrow Hpx) as [Hl Hv].
    cbn [hue_below_180] in Hhue. rewrite Forall_forall in Hhue.
    specialize (Hhue row (proj2 (list_elem_of_In _ _) Hrow)).
    rewrite Forall_forall in Hhue.
    specialize (Hhue px (proj2 (list_elem_of_In _ _) Hpx)).
    destruct px as [|h [|s rest]]; try discriminate Hl.
    apply Forall_cons in Hv as [Hvh Hv]. apply Forall_cons in Hv as [Hvs _].
    unfold is_uint8_value in *. apply Hf; lia. }
  split.
  - rewrite (transform_image_cv2_shift self H W);
      [|exact Hlut|exact Himg|lia|lia].
    f_equal. apply Hid. intros h s rest Hh Hs. cbn [shift_pixel].
    rewrite Z.add_0_r, Z.mod_small by lia. f_equal. f_equal. lia.
  - rewrite (transform_image_cv2_shift self H W image);
      [|exact Hlut|exact Himg|lia|lia].
    result_simpl.
    rewrite (transform_image_cv2_shift self H W);
      [|exact Hlut|apply shift_image_uint8; exact Himg|lia|lia].
    f_equal. rewrite map_pixels_compose. apply Hid.
    intros h s rest Hh Hs. cbn [shift_pixel].
    rewrite Z.add_mod_idemp_l by lia.
    replace (h + a + - a) with h by lia. rewrite Z.mod_small by lia.
    f_equal. f_equal. lia.
Qed.

(** X12: the last row of either table is never written by
    [_generate_lut_table] and holds zeros.  The amounts 256 and -256 reach
    it: they set the channel to 0 in every pixel instead of raising. *)
Theorem transform_image_cv2_zero_row self (H W : nat) image (amount other : Z) :
  _LUT_CACHE self = _generate_lut_table →
  uint8_image H W 3 image →
  amount = 256 ∨ amount = -256 → -255 ≤ other ≤ 255 →
  _transform_image_cv2 self image other amount =
    Ok (map_pixels
          (fun px => match px with
                     | h :: s :: rest => (h + other) mod 180 :: 0 :: rest
                     | _ => px
                     end) image)
  ∧ _transform_image_cv2 self image amount other =
    Ok (map_pixels
          (fun px => match px with
                     | h :: s :: rest =>
                         0 :: Z.min 255 (Z.max 0 (s + other)) :: rest
                     | _ => px
                     end) image).
Proof.
  intros Hlut Himg Ha Ho.
  assert (Hrow : py_index _generate_lut_table.1 (255 + amount) = Ok (replicate 256 0)
               ∧ py_index _generate_lut_table.2 (255 + amount) = Ok (replicate 256 0)).
  { destruct generate_lut_table_length as [L1 L2].
    destruct generate_lut_table_last_row as [Z1 Z2].
    destruct Ha as [-> | ->].
    - rewrite (py_index_in_range _generate_lut_table.1 (255 + 256))
        by (rewrite L1; lia).
      rewrite (py_index_in_range _generate_lut_table.2 (255 + 256))
        by (rewrite L2; lia).
      change (Z.to_nat (255 + 256)) with 511%nat. rewrite Z1, Z2.
      split; reflexivity.
    - rewrite (py_index_negative _generate_lut_table.1 (255 + -256))
        by (rewrite L1; lia).
      rewrite (py_index_negative _generate_lut_table.2 (255 + -256))
        by (rewrite L2; lia).
      rewrite L1, L2.
      rewrite (py_index_in_range _generate_lut_table.1 (255 + -256 + Z.of_nat 512))
        by (rewrite L1; lia).
      rewrite (py_index_in_range _generate_lut_table.2 (255 + -256 + Z.of_nat 512))
        by (rewrite L2; lia).
      change (Z.to_nat (255 + -256 + Z.of_nat 512)) with 511%nat.
      rewrite Z1, Z2. split; reflexivity. }
  destruct Hrow as [R1 R2].
  destruct (generate_lut_table_row other Ho) as [O1 O2].
  destruct image as [d rows|d rows]; [destruct Himg|].
  pose proof (uint8_image_two_channels H W 3 d rows Himg ltac:(lia)) as Htwo.
  unfold _transform_image_cv2. rewrite Hlut, R1, R2, O1, O2. result_simpl.
  rewrite Htwo. clear Hlut R1 R2 O1 O2.
  split; f_equal; apply (map_pixels_ext H W 3); try exact Himg;
    intros [|h [|s rest]] Hlen Hval; try (cbn in Hlen; discriminate);
    apply Forall_cons in Hval as [Hvh Hval];
    apply Forall_cons in Hval as [Hvs _];
    rewrite ?cv2_LUT_hue, ?cv2_LUT_saturation, ?cv2_LUT_zeros by assumption;
    reflexivity.
Qed.

End TransformImage.

(** ** The samples of [AddToHue] and [AddToSaturation] *)

Section SingleChannel.
Context {ext : Externals}.

Lemma AddToHueAndSaturation_init_Ok v_arg vh_arg vs_arg pc from_cs self :
  AddToHueAndSaturation_init v_arg vh_arg vs_arg pc from_cs = Ok self →
  _LUT_CACHE self = _generate_lut_table ∧
  (v_arg = None → value self = None) ∧
  (vh_arg = None → value_hue self = None) ∧
  (vs_arg = None → value_saturation self = None).
Proof.
  unfold AddToHueAndSaturation_init.
  destruct (_handle_value_arg _ _ _) as [v|e] eqn:Hv; [|discriminate].
  destruct (_handle_value_hue_arg _) as [vh|e] eqn:Hvh; [|discriminate].
  destruct (_handle_value_saturation_arg _) as [vs|e] eqn:Hvs; [|discriminate].
  result_simpl. intros [= <-]. cbn [_LUT_CACHE value
    value_hue value_saturation].
  split; [reflexivity|]. repeat split; intros ->.
  - cbn in Hv. by injection Hv as <-.
  - cbn in Hvh. by injection Hvh as <-.
  - cbn in Hvs. by injection Hvs as <-.
Qed.

Lemma draw_samples_no_value self images rs hues sats :
  value self = None →
  AddToHueAndSaturation_draw_samples self images rs = Ok (hues, sats) →
  (value_hue self = None → hues = replicate (length images) 0) ∧
  (value_saturation self = None → sats = replicate (length images) 0).
Proof.
  intros Hv. unfold AddToHueAndSaturation_draw_samples. rewrite Hv.
  rewrite Nat2Z.id. intros H.
  split.
  - intros Hh. rewrite Hh in H. revert H. result_simpl.
    destruct (value_saturation self) as [p|].
    + destruct (py_index _ 1) as [rs1|e]; [|discriminate].
      result_simpl. intros [= <- _]. by rewrite map_replicate.
    + result_simpl. intros [= <- _]. by rewrite map_replicate.
  - intros Hs. rewrite Hs in H. revert H.
    destruct (value_hue self) as [p|].
    + destruct (py_index _ 0) as [rs0|e]; [|discriminate].
      result_simpl. by intros [= _ <-].
    + result_simpl. by intros [= _ <-].
Qed.

(** X13: [AddToHue] touches the hue only.  The saturation amounts that it
    draws are all 0, and with the saturation amount 0 the transformation
    leaves the saturation and the third channel of every pixel as they are,
    the hue becoming [(hue + amount) mod 180]. *)
Theorem AddToHue_keeps_saturation v_arg from_cs self images rs hues sats
    (H W : nat) image (amount : Z) :
  AddToHue_init v_arg from_cs = Ok self →
  AddToHueAndSaturation_draw_samples self images rs = Ok (hues, sats) →
  uint8_image H W 3 image → -255 ≤ amount ≤ 255 →
  sats = replicate (length images) 0 ∧
  _transform_image_cv2 self image amount 0 =
    Ok (map_pixels
          (fun px => match px with
                     | h :: rest => (h + amount) mod 180 :: rest
                     | [] => []
                     end) image).
Proof.
  intros Hinit Hdraw Himg Ha.
  apply AddToHueAndSaturation_init_Ok in Hinit as (Hlut & Hv & _ & Hs).
  destruct (draw_samples_no_value _ _ _ _ _ (Hv eq_refl) Hdraw) as [_ Hsats].
  split; [by apply Hsats, Hs|].
  rewrite (transform_image_cv2_shift self H W);
    [|exact Hlut|exact Himg|lia|lia].
  f_equal. apply (map_pixels_ext H W 3); [exact Himg|].
  intros [|h [|s rest]] Hlen Hval; try discriminate Hlen. cbn [shift_pixel].
  apply Forall_cons in Hval as [_ Hval]. apply Forall_cons in Hval as [Hvs _].
  unfold is_uint8_value in Hvs. do 2 f_equal. lia.
Qed.

(** X14: [AddToSaturation] touches the saturation only.  The hue amounts that
    it draws are all 0, and with the hue amount 0 the transformation leaves
    a hue below 180 and the third channel as they are, the saturation
    becoming [saturation + amount] clipped to [0, 255]. *)
Theorem AddToSaturation_keeps_hue v_arg from_cs self images rs hues sats
    (H W : nat) image (amount : Z) :
  AddToSaturation_init v_arg from_cs = Ok self →
  AddToHueAndSaturation_draw_samples self images rs = Ok (hues, sats) →
  uint8_image H W 3 image → hue_below_180 image → -255 ≤ amount ≤ 255 →
  hues = replicate (length images) 0 ∧
  _transform_image_cv2 self image 0 amount =
    Ok (map_pixels
          (fun px => match px with
                     | h :: s :: rest =>
                         h :: Z.min 255 (Z.max 0 (s + amount)) :: rest
                     | _ => px
                     end) image).
Proof.
  intros Hinit Hdraw Himg Hhue Ha.
  apply AddToHueAndSaturation_init_Ok in Hinit as (Hlut & Hv & Hh & _).
  destruct (draw_samples_no_value _ _ _ _ _ (Hv eq_refl) Hdraw) as [Hhues _].
  split; [by apply Hhues, Hh|].
  rewrite (transform_image_cv2_shift self H W);
    [|exact Hlut|exact Himg|lia|lia].
  f_equal.
  destruct image as [d rows|d rows]; [done|]. cbn [map_pixels]. f_equal.
  apply map_ext_in. intros row Hrow. apply map_ext_in. intros px Hpx.
  destruct (uint8_image_pixels _ _ _ _ _ Himg row px Hrow Hpx) as [Hl Hval].
  cbn [hue_below_180] in Hhue. rewrite Forall_forall in Hhue.
  specialize (Hhue row (proj2 (list_elem_of_In _ _) Hrow)).
  rewrite Forall_forall in Hhue.
  specialize (Hhue px (proj2 (list_elem_of_In _ _) Hpx)).
  destruct px as [|h [|s rest]]; try discriminate Hl. cbn [shift_pixel].
  apply Forall_cons in Hval as [Hvh _]. unfold is_uint8_value in Hvh.
  rewrite Z.add_0_r, Z.mod_small by lia. reflexivity.
Qed.

(** X15: with [value] set, [_draw_samples] raises an [IndexError] on an empty
    batch: the range check reads the sample at [0, 0], which an empty batch
    does not have. *)
Theorem draw_samples_empty_batch self p rs :
  value self = Some p →
  AddToHueAndSaturation_draw_samples self [] rs = Raise IndexError.
Proof.
  intros Hv. unfold AddToHueAndSaturation_draw_samples. rewrite Hv.
  destruct (py_index_Ok_or_IndexError (rng_duplicate rs 2) 0) as [[rs0 ->]| ->];
    [|reflexivity].
  result_simpl.
  destruct (py_index_Ok_or_IndexError (rng_duplicate rs 2) 1) as [[rs1 ->]| ->];
    reflexivity.
Qed.

End SingleChannel.

(** ** The palette of the uniform quantization *)

Lemma uniform_check_binary32 :
  forallb (uniform_check Float.binary32) (py_range 2 256) = true.
Proof. vm_compute. reflexivity. Qed.

Lemma uniform_check_binary64 :
  forallb (uniform_check Float.binary64) (py_range 2 256) = true.
Proof. vm_compute. reflexivity. Qed.

Lemma close_from_lookup (n : Z) (l : list Z) : ∀ (v : Z) (k : nat) (x : Z),
  close_from n v l = true → l !! k = Some x →
  2 * n * Z.abs (x - (v + Z.of_nat k)) ≤ 256 + n.
Proof.
  induction l as [|y l IH]; intros v k x Hc Hk; [done|].
  cbn [close_from] in Hc. apply andb_true_iff in Hc as [Hy Hc].
  destruct k as [|k].
  - injection Hk as <-. apply Z.leb_le in Hy. by rewrite Z.add_0_r.
  - cbn [lookup list_lookup] in Hk.
    pose proof (IH (v + 1) k x Hc Hk) as Hx.
    replace (v + Z.of_nat (S k)) with (v + 1 + Z.of_nat k) by lia. done.
Qed.

Lemma sorted_from_lookup (l : list Z) : ∀ (prev : Z) (k : nat) (x : Z),
  sorted_from prev l = true → l !! k = Some x → prev ≤ x.
Proof.
  induction l as [|y l IH]; intros prev k x Hs Hk; [done|].
  cbn [sorted_from] in Hs. apply andb_true_iff in Hs as [Hy Hs].
  apply Z.leb_le in Hy.
  destruct k as [|k].
  - by injection Hk as <-.
  - cbn [lookup list_lookup] in Hk. pose proof (IH y k x Hs Hk). lia.
Qed.

Lemma sorted_from_le (l : list Z) : ∀ (prev : Z) (i j : nat) (x y : Z),
  sorted_from prev l = true → (i ≤ j)%nat →
  l !! i = Some x → l !! j = Some y → x ≤ y.
Proof.
  induction l as [|z l IH]; intros prev i j x y Hs Hij Hi Hj; [done|].
  cbn [sorted_from] in Hs. apply andb_true_iff in Hs as [Hz Hs].
  destruct i as [|i].
  - injection Hi as <-. destruct j as [|j].
    + injection Hj as <-. lia.
    + cbn [lookup list_lookup] in Hj. by apply (sorted_from_lookup l z j y).
  - destruct j as [|j]; [lia|].
    cbn [lookup list_lookup] in Hi, Hj.
    apply (IH z i j x y); [done|lia|done|done].
Qed.

Lemma dedup_adjacent_elem (l : list Z) (x : Z) :
  x ∈ l → x ∈ dedup_adjacent l.
Proof.
  induction l as [|y l IH]; [done|].
  intros Hx. cbn [dedup_adjacent].
  destruct l as [|z l'].
  - done.
  - destruct (y =? z) eqn:Hyz.
    + apply Z.eqb_eq in Hyz. subst z.
      apply IH. apply elem_of_cons in Hx as [->|Hx]; [left|done].
    + apply elem_of_cons in Hx as [->|Hx]; [left|right; by apply IH].
Qed.

Lemma uniform_check_true (fmt : Float.format) (n : Z) :
  2 ≤ n < 256 → uniform_check fmt n = true.
Proof.
  intros Hn. destruct fmt.
  - apply (forallb_py_range _ _ _ uniform_check_binary32). lia.
  - apply (forallb_py_range _ _ _ uniform_check_binary64). lia.
Qed.

Lemma quantized_samples_lookup (fmt : Float.format) (n v : Z) :
  0 ≤ v ≤ 255 →
  map (quantize_value_in fmt n) (py_range 0 256) !! Z.to_nat v
  = Some (quantize_value_in fmt n v).
Proof.
  intros Hv. rewrite list_lookup_fmap, py_range_lookup by lia.
  cbn [fmap option_fmap option_map].
  rewrite Z.add_0_l, Z2Nat.id by lia. reflexivity.
Qed.

Lemma array_Forall_map (P Q : Z → Prop) (f : Z → Z) (d : string) (a : ndarray) :
  array_Forall P a → (∀ v, P v → Q (f v)) →
  array_Forall Q (set_dtype d (map_array f a)).
Proof.
  intros Ha Hf.
  destruct a as [d' rows|d' rows]; cbn [map_array set_dtype array_Forall] in *.
  - apply Forall_fmap. eapply Forall_impl; [exact Ha|].
    intros row Hrow. apply Forall_fmap. eapply Forall_impl; [exact Hrow|].
    intros v Hv. by apply Hf.
  - apply Forall_fmap. eapply Forall_impl; [exact Ha|].
    intros row Hrow. apply Forall_fmap. eapply Forall_impl; [exact Hrow|].
    intros px Hpx. apply Forall_fmap. eapply Forall_impl; [exact Hpx|].
    intros v Hv. by apply Hf.
Qed.

Section UniformPalette.
Context {ext : Externals}.

Lemma quantize_value_in_format (n v : Z) :
  quantize_value n v = quantize_value_in np_array_scalar_format n v.
Proof. reflexivity. Qed.

(** X16: uniform quantization to [n_colors] colours leaves at most [n_colors]
    different sample values.  For a [uint8] array and [n_colors] in
    [2, 256] there is a palette of at most [n_colors] values that holds
    every sample of the result, whichever the image. *)
Theorem quantize_colors_uniform_palette (n_colors : Z) (image : ndarray) :
  2 ≤ n_colors ≤ 256 → uint8_array image →
  ∃ palette out,
    Z.of_nat (length palette) ≤ n_colors ∧
    quantize_colors_uniform image n_colors = Ok out ∧
    array_Forall (fun v => v ∈ palette) out.
Proof.
  intros Hn [Hd Hval].
  rewrite (quantize_colors_uniform_in_range image) by done.
  destruct (n_colors =? 256) eqn:H256.
  - apply Z.eqb_eq in H256. subst n_colors.
    exists (py_range 0 256), image. repeat split.
    + unfold py_range. rewrite length_map, length_seq. lia.
    + destruct image as [d rows|d rows]; cbn [array_Forall] in *;
        repeat (eapply Forall_impl; [eassumption|]; intros);
        apply elem_of_py_range; unfold is_uint8_value in *; lia.
  - apply Z.eqb_neq in H256.
    pose proof (uniform_check_true np_array_scalar_format n_colors ltac:(lia))
      as Hc.
    unfold uniform_check in Hc. rewrite !andb_true_iff in Hc.
    destruct Hc as [_ Hlen]. apply Z.leb_le in Hlen.
    eexists _, _. split; [exact Hlen|]. split; [reflexivity|].
    apply (array_Forall_map is_uint8_value); [done|].
    intros v Hv. apply dedup_adjacent_elem.
    rewrite quantize_value_in_format.
    eapply list_elem_of_lookup_2, quantized_samples_lookup. exact Hv.
Qed.

(** X17: uniform quantization moves a sample by at most half a bin and half a
    unit, and keeps the order of the samples.  For [n_colors] in [2, 255] and
    samples [v <= w] of a [uint8] array, with [q] the quantized sample:
    [2 * n_colors * |q v - v| <= 256 + n_colors], and [q v <= q w]. *)
Theorem quantize_value_close_and_monotone (n_colors v w : Z) :
  2 ≤ n_colors ≤ 255 → 0 ≤ v → v ≤ w → w ≤ 255 →
  2 * n_colors * Z.abs (quantize_value n_colors v - v) ≤ 256 + n_colors ∧
  quantize_value n_colors v ≤ quantize_value n_colors w.
Proof.
  intros Hn Hv Hvw Hw.
  pose proof (uniform_check_true np_array_scalar_format n_colors ltac:(lia))
    as Hc.
  unfold uniform_check in Hc. rewrite !andb_true_iff in Hc.
  destruct Hc as [[Hclose Hsorted] _].
  rewrite !quantize_value_in_format.
  pose proof (quantized_samples_lookup np_array_scalar_format n_colors v
                ltac:(lia)) as Lv.
  pose proof (quantized_samples_lookup np_array_scalar_format n_colors w
                ltac:(lia)) as Lw.
  split.
  - pose proof (close_from_lookup _ _ _ _ _ Hclose Lv) as Hb.
    rewrite Z.add_0_l, Z2Nat.id in Hb by lia. exact Hb.
  - assert (Hle : (Z.to_nat v ≤ Z.to_nat w)%nat) by lia.
    exact (sorted_from_le _ _ _ _ _ _ Hsorted Hle Lv Lw).
Qed.

End UniformPalette.

(** ** The size and the channels of a quantized image *)

Lemma resized_extent_checked :
  forallb resized_extent_check (py_range 2 401) = true.
Proof. vm_compute. reflexivity. Qed.

Lemma resized_extent_bounds (max_size_ size : Z) :
  1 ≤ max_size_ → max_size_ < size → size ≤ 400 →
  (resized_extent max_size_ size size = max_size_
   ∨ resized_extent max_size_ size size = max_size_ - 1)
  ∧ resized_extent max_size_ size 1 = 0.
Proof.
  intros Hm Hs Hb.
  pose proof (forallb_py_range _ _ _ resized_extent_checked size ltac:(lia)) as Hc.
  unfold resized_extent_check in Hc.
  pose proof (forallb_py_range _ _ _ Hc max_size_ ltac:(lia)) as Hc'.
  cbv zeta in Hc'. rewrite andb_true_iff, orb_true_iff, !Z.eqb_eq in Hc'.
  exact Hc'.
Qed.

Section QuantizerEdges.
Context {ext : Externals}.

Lemma resized_extent_128_checked :
  forallb resized_extent_128_check (py_range 129 401) = true.
Proof. vm_compute. reflexivity. Qed.

Lemma resized_extent_128 (size : Z) :
  128 < size → size ≤ 400 →
  resized_extent 128 size size
  = if bool_decide (size ∈ sizes_one_short_128) then 127 else 128.
Proof.
  intros Hs Hb.
  pose proof (forallb_py_range _ _ _ resized_extent_128_checked size ltac:(lia))
    as Hc.
  by apply Z.eqb_eq in Hc.
Qed.

(** X18: when [_ensure_max_size] downscales (the longer side, at most 400
    here, exceeds [max_size]), the size that it asks for is computed in
    floating point and truncated: the longer side becomes [max_size] or
    [max_size - 1]; for the default [max_size = 128] it becomes 127 for the
    longer sides 161, 187, 196, 197, 206, 214, 237, 239, 249, 253, 322,
    347, 374, 389, 392 and 394, and 128 for every other one; a shorter
    side of one pixel becomes 0. *)
Theorem ensure_max_size_extents (image : ndarray) (max_size_ : Z)
    (interp : string) (h w : Z) (rest : list Z) :
  shape image = h :: w :: rest →
  1 ≤ max_size_ → max_size_ < Z.max h w → Z.max h w ≤ 400 →
  ∃ new_height new_width,
    _ensure_max_size image (Some max_size_) interp =
      imresize_single_image image (new_height, new_width) interp
    ∧ (w ≤ h →
       (new_height = max_size_ ∨ new_height = max_size_ - 1)
       ∧ (max_size_ = 128 →
          new_height
          = if bool_decide (h ∈ sizes_one_short_128) then 127 else 128)
       ∧ (w = 1 → new_width = 0))
    ∧ (h ≤ w →
       (new_width = max_size_ ∨ new_width = max_size_ - 1)
       ∧ (max_size_ = 128 →
          new_width
          = if bool_decide (w ∈ sizes_one_short_128) then 127 else 128)
       ∧ (h = 1 → new_height = 0)).
Proof.
  intros Hshape Hm Hlt Hb.
  exists (resized_extent max_size_ (Z.max h w) h),
         (resized_extent max_size_ (Z.max h w) w).
  split.
  - unfold _ensure_max_size. rewrite Hshape.
    rewrite !py_index_in_range by (cbn [length]; lia).
    change (Z.to_nat 0) with 0%nat. change (Z.to_nat 1) with 1%nat.
    cbn [lookup list_lookup]. result_simpl.
    rewrite (proj2 (Z.ltb_lt _ _)) by lia. reflexivity.
  - split; intros Hle.
    + rewrite Z.max_l in * by lia.
      destruct (resized_extent_bounds max_size_ h) as [Hl H1]; [lia..|].
      split; [exact Hl|]. split; [|by intros ->].
      intros ->. apply resized_extent_128; lia.
    + rewrite Z.max_r in * by lia.
      destruct (resized_extent_bounds max_size_ w) as [Hl H1]; [lia..|].
      split; [exact Hl|]. split; [|by intros ->].
      intros ->. apply resized_extent_128; lia.
Qed.

(** X19: a rank-2 image is judged by its width, which [image.shape[-1]]
    takes for the number of channels: [_augment_single_image] rejects an
    image of shape (H, W) unless W is 1, 3 or 4, and for W = 4 (without
    downscaling) the slice of the alpha channel raises an [IndexError]. *)
Theorem augment_single_image_rank2 (self : ColorQuantization) (d : string)
    (rows : list (list Z)) (n : Z) (random_state : RNG) :
  let w := Z.of_nat (length (hd [] rows)) in
  w ≠ 1 → w ≠ 3 → (w = 4 → max_size self = None) →
  _augment_single_image self (Array2 d rows) n random_state =
  Raise (if w =? 4 then IndexError
         else AssertionError "Expected image with 1, 3 or 4 channels").
Proof.
  intros w H1 H3 H4.
  assert (Hshape : shape (Array2 d rows) = [Z.of_nat (length rows); w])
    by reflexivity.
  assert (Hlast : py_index [Z.of_nat (length rows); w] (-1) = Ok w)
    by reflexivity.
  clearbody w.
  unfold _augment_single_image, py_last. rewrite Hshape, Hlast. result_simpl.
  destruct (w =? 4) eqn:Hw.
  - apply Z.eqb_eq in Hw. subst w.
    rewrite (bool_decide_eq_true_2 (4 ∈ [1; 3; 4]))
      by (do 2 apply list_elem_of_further; apply list_elem_of_here).
    result_simpl. rewrite (H4 eq_refl). cbn [_ensure_max_size]. result_simpl.
    rewrite Hshape, Hlast. reflexivity.
  - apply Z.eqb_neq in Hw.
    rewrite bool_decide_eq_false_2; [reflexivity|].
    rewrite !elem_of_cons, elem_of_nil. tauto.
Qed.

(** The second augmenter cannot be built for the working colourspace GRAY. *)
Lemma colorspace_augmenters_gray (self : ColorQuantization) (random_state : RNG) :
  q_to_colorspace self = Some (ToCspace CSPACE_GRAY) →
  ∃ e, colorspace_augmenters self random_state = Raise e.
Proof.
  intros Hto. unfold colorspace_augmenters. rewrite Hto.
  destruct (ChangeColorspace_init _ _ _) as [cs|e] eqn:Hcs; [|by eexists].
  result_simpl.
  assert (Hparam : cc_to_colorspace cs = Deterministic CSPACE_GRAY).
  { revert Hcs. unfold ChangeColorspace_init.
    destruct (bool_decide (CSPACE_GRAY ∈ CSPACE_ALL)); [|discriminate].
    result_simpl.
    destruct (bool_decide (q_from_colorspace self ∈ CSPACE_ALL)); [|discriminate].
    result_simpl.
    destruct (bool_decide (q_from_colorspace self ≠ CSPACE_GRAY)); [|discriminate].
    result_simpl. by intros [= <-]. }
  unfold ChangeColorspace_draw_samples. rewrite Hparam.
  destruct (py_index _ 0) as [rs0|e]; [|by eexists]. result_simpl.
  destruct (py_index _ 1) as [rs1|e]; [|by eexists]. result_simpl.
  change (py_index (draw_samples (Deterministic CSPACE_GRAY) [1] rs1) 0)
    with (Ok (A:=string) CSPACE_GRAY).
  result_simpl. unfold ChangeColorspace_init.
  destruct (bool_decide (q_from_colorspace self ∈ CSPACE_ALL)); [|by eexists].
  result_simpl.
  destruct (bool_decide (CSPACE_GRAY ∈ CSPACE_ALL)); [|by eexists].
  result_simpl.
  rewrite (bool_decide_eq_false_2 (CSPACE_GRAY ≠ CSPACE_GRAY))
    by (intros Hn; by apply Hn).
  by eexists.
Qed.

(** X20: a colour quantizer cannot work in the colourspace GRAY.  With
    [to_colorspace=GRAY] (and no downscaling), [_augment_single_image]
    raises for every image that has more than one channel: the augmenter
    that is to convert back would have GRAY as its source colourspace, which
    the constructor of [ChangeColorspace] rejects. *)
Theorem quantization_in_gray_raises (self : ColorQuantization)
    (image : ndarray) (n : Z) (random_state : RNG) :
  q_to_colorspace self = Some (ToCspace CSPACE_GRAY) →
  max_size self = None →
  py_last (shape image) ≠ Ok 1 →
  ∃ e, _augment_single_image self image n random_state = Raise e.
Proof.
  intros Hto Hmax Hch. unfold _augment_single_image. rewrite Hmax.
  cbn [_ensure_max_size].
  destruct (py_last (shape image)) as [channels|e] eqn:Hlast; [|by eexists].
  result_simpl.
  destruct (bool_decide (channels ∈ [1; 3; 4])); [|by eexists].
  result_simpl. rewrite Hlast. result_simpl.
  destruct (channels =? 1) eqn:H1.
  { apply Z.eqb_eq in H1. by subst. }
  assert (Hq : ∀ img, ∃ e, quantize_in_colorspace self img n random_state = Raise e).
  { intros img. unfold quantize_in_colorspace.
    destruct (colorspace_augmenters_gray self random_state Hto) as [e ->].
    by eexists. }
  destruct (channels =? 4).
  - destruct (slice_channels 3 4 image) as [alpha|e]; [|by eexists].
    result_simpl.
    destruct (slice_channels 0 3 image) as [planes|e]; [|by eexists].
    result_simpl. destruct (Hq planes) as [e ->]. by eexists.
  - result_simpl. destruct (Hq image) as [e ->]. by eexists.
Qed.

End QuantizerEdges.

(** ** [ChangeColorspace] without a change *)

Lemma py_index_lookup {A} (l : list A) (i : nat) (x : A) :
  l !! i = Some x → py_index l (Z.of_nat i) = Ok x.
Proof.
  intros Hi. pose proof (lookup_lt_Some _ _ _ Hi).
  rewrite py_index_in_range by lia. by rewrite Nat2Z.id, Hi.
Qed.

Section ChangeColorspaceNoChange.
Context {ext : Externals}.

Lemma ChangeColorspace_loop_no_change self alphas to_colorspaces images idx :
  ∀ result_,
  (∀ i, i ∈ idx → ∃ alpha t image,
     alphas !! i = Some alpha ∧ to_colorspaces !! i = Some t ∧
     images !! i = Some image ∧ t ∈ CSPACE_ALL ∧
     (PrimFloat.leb alpha (cc_eps self) = true ∨ cc_from_colorspace self = t)) →
  ChangeColorspace_loop self alphas to_colorspaces images idx result_ = Ok result_.
Proof.
  induction idx as [|i idx IH]; intros result_ Hall; [done|].
  destruct (Hall i) as (alpha & t & image & Ha & Ht & Hi & Hin & Hskip); [left|].
  cbn [ChangeColorspace_loop].
  rewrite (py_index_lookup _ _ _ Ha), (py_index_lookup _ _ _ Ht),
    (py_index_lookup _ _ _ Hi).
  result_simpl. rewrite (bool_decide_eq_true_2 _ Hin). result_simpl.
  assert (Hcond : PrimFloat.leb alpha (cc_eps self)
                  || bool_decide (cc_from_colorspace self = t) = true).
  { destruct Hskip as [-> | Heq]; [done|].
    rewrite (bool_decide_eq_true_2 _ Heq). apply orb_true_r. }
  rewrite Hcond. apply IH. intros j Hj. apply Hall. by right.
Qed.

(** X21: [ChangeColorspace._augment_images] returns the batch as it is when
    for every image the sampled [alpha] is at most [eps = 0.001] or the
    sampled target is the source colourspace: no image is converted or
    checked.  In particular [Grayscale] with its default [alpha=0] changes
    nothing. *)
Theorem ChangeColorspace_no_change (self : ChangeColorspace)
    (images : list ndarray) (random_state : RNG)
    (alphas : list float) (to_colorspaces : list string) :
  ChangeColorspace_draw_samples self (Z.of_nat (length images)) random_state
    = Ok (alphas, to_colorspaces) →
  length alphas = length images →
  Forall (fun t => t ∈ CSPACE_ALL) to_colorspaces →
  Forall2 (fun alpha t => PrimFloat.leb alpha (cc_eps self) = true
                          ∨ cc_from_colorspace self = t)
    alphas to_colorspaces →
  ChangeColorspace_augment_images self images random_state = Ok images.
Proof.
  intros Hdraw Hlen Hvalid Hskip. unfold ChangeColorspace_augment_images.
  rewrite Hdraw. result_simpl.
  apply ChangeColorspace_loop_no_change.
  intros i Hi. apply elem_of_seq in Hi.
  destruct (lookup_lt_is_Some_2 images i) as [image Himg]; [lia|].
  destruct (lookup_lt_is_Some_2 alphas i) as [alpha Ha]; [lia|].
  destruct (Forall2_lookup_l _ _ _ _ _ Hskip Ha) as (t & Ht & Hs).
  exists alpha, t, image. repeat split; [done..| |done].
  rewrite Forall_forall in Hvalid. apply Hvalid.
  by eapply list_elem_of_lookup_2.
Qed.

End ChangeColorspaceNoChange.

(** ** [WithHueAndSaturation] *)

Lemma hue_round_trip_checked :
  forallb hue_round_trip_check (py_range 0 180) = true.
Proof. vm_compute. reflexivity. Qed.

Lemma hue_projection_round_trip (h : Z) :
  0 ≤ h < 180 →
  hue_from_255 (hue_to_255 h) = if h mod 12 =? 0 then h else h - 1.
Proof.
  intros Hh. apply Z.eqb_eq.
  apply (forallb_py_range _ _ _ hue_round_trip_checked). lia.
Qed.

Lemma zip_with_map_same {A B C D} (f : B → C → D) (g : A → B) (h : A → C)
    (l : list A) :
  zip_with f (map g l) (map h l) = map (fun x => f (g x) (h x)) l.
Proof. induction l as [|x l IH]; [done|]. cbn [map zip_with]. by rewrite IH. Qed.

Lemma shape_plane (d : string) {A} (g : list A → list Z) (rows : list (list A)) :
  (∀ row, length (g row) = length row) →
  shape (Array2 d (map g rows)) =
  [Z.of_nat (length rows); Z.of_nat (length (hd [] rows))].
Proof.
  intros Hg. cbn [shape]. rewrite length_map.
  destruct rows as [|row rows]; [done|]. cbn [map hd]. by rewrite Hg.
Qed.

Lemma mapM_Ok {A B} (f : A → result B) (l : list A) (k : list B) :
  Forall2 (fun x y => f x = Ok y) l k → mapM f l = Ok k.
Proof.
  induction 1 as [|x y l k Hxy _ IH]; [done|].
  cbn [mapM]. rewrite Hxy. result_simpl. rewrite IH. reflexivity.
Qed.

Lemma channel_uint8_image (H W C : nat) (k : nat) d rows :
  uint8_image H W C (Array3 d rows) → (k < C)%nat →
  channel k (Array3 d rows) =
  Ok (Array2 d (map (map (fun px => default 0 (px !! k))) rows)).
Proof.
  intros Himg Hk.
  destruct (shape_uint8_image _ _ _ _ Himg) as (Hshape & _).
  unfold channel. rewrite Hshape. cbn [lookup list_lookup default].
  rewrite bool_decide_eq_true_2 by (unfold id; lia). reflexivity.
Qed.

Lemma hue_and_sat_of_uint8_image (H W : nat) d rows :
  uint8_image H W 3 (Array3 d rows) →
  hue_and_sat_of (Array3 d rows) =
  Ok (Array3 "int16" (map (map hue_and_sat_pixel) rows)).
Proof.
  intros Himg. unfold hue_and_sat_of.
  assert (Himg16 : astype "int16" (Array3 d rows) = Array3 "int16" rows)
    by reflexivity.
  rewrite Himg16.
  assert (Hch : ∀ k, (k < 3)%nat →
    channel k (Array3 "int16" rows) =
    Ok (Array2 "int16" (map (map (fun px => default 0 (px !! k))) rows))).
  { intros k Hk.
    destruct (shape_uint8_image _ _ _ _ Himg) as (Hshape & _).
    unfold channel. change (shape (Array3 "int16" rows)) with (shape (Array3 d rows)).
    rewrite Hshape. cbn [lookup list_lookup default].
    rewrite bool_decide_eq_true_2 by (unfold id; lia). reflexivity. }
  rewrite !Hch by lia. result_simpl.
  cbn [map_array set_dtype]. unfold np_stack_last2.
  rewrite !map_map.
  rewrite !shape_plane by (intros; by rewrite !length_map).
  rewrite bool_decide_eq_true_2 by reflexivity.
  change (String.eqb "int16" "int16") with true. cbv iota.
  do 2 f_equal. rewrite zip_with_map_same. apply map_ext. intros row.
  rewrite map_map. rewrite zip_with_map_same. reflexivity.
Qed.

Lemma map_map2 {A B C} (f : B → C) (g : A → B) (rows : list (list A)) :
  map (map f) (map (map g) rows) = map (map (fun x => f (g x))) rows.
Proof. rewrite map_map. apply map_ext. intros row. apply map_map. Qed.

Lemma zip_with_map2_same {A B C D} (f : B → C → D) (g : A → B) (h : A → C)
    (rows : list (list A)) :
  zip_with (zip_with f) (map (map g) rows) (map (map h) rows) =
  map (map (fun x => f (g x) (h x))) rows.
Proof.
  rewrite zip_with_map_same. apply map_ext. intros row.
  apply zip_with_map_same.
Qed.

Lemma rect3_map (H W C C' : nat) (g : list Z → list Z) rows :
  rect3 H W C rows → (∀ px, length (g px) = C') →
  rect3 H W C' (map (map g) rows).
Proof.
  intros [Hlen Hrows] Hg. split; [by rewrite length_map|].
  apply Forall_fmap. eapply Forall_impl; [exact Hrows|].
  intros row [Hw _]. cbn. split; [by rewrite length_map|].
  apply Forall_fmap, Forall_forall. intros px _. apply Hg.
Qed.

Lemma np_clip_array_uint8 (a : ndarray) :
  array_Forall is_uint8_value a → np_clip_array a 0 255 = a.
Proof.
  intros Ha. unfold np_clip_array.
  rewrite (map_array_ext is_uint8_value _ (fun v => v) a Ha).
  - destruct a as [d rows|d rows]; cbn [map_array]; f_equal.
    + rewrite <- (map_id rows) at 2. apply map_ext. intros row. apply map_id.
    + rewrite <- (map_id rows) at 2. apply map_ext. intros row.
      rewrite <- (map_id row) at 2. apply map_ext. intros px. apply map_id.
  - intros v Hv. unfold np_clip, is_uint8_value in *. lia.
Qed.

Section WithHueAndSaturationTheorems.
Context {ext : Externals}.
Variable iadt_clip_ : ndarray → Z → Z → ndarray.
Hypothesis clip_uint8 :
  ∀ a, array_Forall is_uint8_value a → iadt_clip_ a 0 255 = a.

Lemma hsv_of_hue_and_sat_unchanged (H W : nat) images_hsv (i : nat) d rows :
  images_hsv !! i = Some (Array3 d rows) →
  uint8_image H W 3 (Array3 d rows) →
  hsv_of_hue_and_sat iadt_clip_ images_hsv i
    (Array3 "int16" (map (map hue_and_sat_pixel) rows)) =
  Ok (map_pixels project_pixel (Array3 d rows)).
Proof.
  intros Hi Himg.
  pose proof (uint8_image_pixels _ _ _ _ _ Himg) as Hpx.
  pose proof Himg as (Hd & HH & HW & Hrect & Hval).
  unfold hsv_of_hue_and_sat.
  assert (Hch : ∀ k, (k < 2)%nat →
    channel k (Array3 "int16" (map (map hue_and_sat_pixel) rows)) =
    Ok (Array2 "int16"
          (map (map (fun px => default 0 (hue_and_sat_pixel px !! k))) rows))).
  { intros k Hk. unfold channel.
    rewrite (shape_rect3 H W 2) by (done || by apply (rect3_map H W 3)).
    cbn [lookup list_lookup default].
    rewrite bool_decide_eq_true_2 by (unfold id; lia).
    by rewrite map_map2. }
  rewrite !Hch by lia. result_simpl.
  rewrite clip_uint8.
  2:{ cbn [array_Forall]. apply Forall_fmap, Forall_forall. intros row Hrow.
      apply Forall_fmap, Forall_forall. intros px Hin.
      apply list_elem_of_In in Hrow, Hin.
      destruct (Hpx row px Hrow Hin) as [Hl Hv].
      destruct px as [|h [|s rest]]; try discriminate Hl.
      apply Forall_cons in Hv as [_ Hv]. apply Forall_cons in Hv as [Hs _].
      exact Hs. }
  rewrite (py_index_lookup _ _ _ Hi). result_simpl.
  rewrite (channel_uint8_image H W 3) by (done || lia). result_simpl.
  cbn [map_array set_dtype astype String.eqb Ascii.eqb Bool.eqb].
  unfold np_stack_last3.
  rewrite !map_map2.
  rewrite !shape_plane by (intros; by rewrite !length_map).
  rewrite bool_decide_eq_true_2 by done.
  subst d. change (String.eqb "uint8" "uint8") with true.
  cbn [andb]. cbv iota.
  rewrite !zip_with_map2_same. cbn [map_pixels]. do 2 f_equal.
  apply map_ext_in. intros row Hrow. apply map_ext_in. intros px Hin.
  destruct (Hpx row px Hrow Hin) as [Hl Hv].
  destruct px as [|h [|s [|v [|? ?]]]]; try discriminate Hl.
  apply Forall_cons in Hv as [_ Hv]. apply Forall_cons in Hv as [Hs _].
  unfold is_uint8_value in Hs.
  cbn [hue_and_sat_pixel project_pixel lookup list_lookup default app].
  unfold id, wrap_uint8. by rewrite Z.mod_small by lia.
Qed.

Lemma WithHueAndSaturation_project_unchanged (rest : list ndarray) :
  ∀ pre : list ndarray,
  Forall uint8_color_image rest →
  ∀ hs, Forall2 (fun image out => hue_and_sat_of image = Ok out) rest hs →
  WithHueAndSaturation_project iadt_clip_ (pre ++ rest) (length pre) hs =
  Ok (map (map_pixels project_pixel) rest).
Proof.
  induction rest as [|image rest IH]; intros pre Himgs hs Hhs.
  - by apply Forall2_nil_inv_l in Hhs as ->.
  - apply Forall2_cons_inv_l in Hhs as (out & hs' & Hout & Hhs & ->).
    apply Forall_cons in Himgs as [(H & W & Himg) Himgs].
    destruct image as [d rows|d rows]; [destruct Himg|].
    rewrite (hue_and_sat_of_uint8_image H W) in Hout by done.
    injection Hout as <-.
    cbn [WithHueAndSaturation_project].
    rewrite (hsv_of_hue_and_sat_unchanged H W (pre ++ Array3 d rows :: rest)
               (length pre) d rows); [|by apply list_lookup_middle|done].
    result_simpl.
    specialize (IH (pre ++ [Array3 d rows]) Himgs hs' Hhs).
    rewrite <- (assoc_L app), length_app in IH. cbn [app length] in IH.
    replace (length pre + 1)%nat with (S (length pre)) in IH by lia.
    rewrite IH. reflexivity.
Qed.

Lemma hue_and_sat_uint8_images (images_hsv : list ndarray) :
  Forall uint8_color_image images_hsv →
  ∃ hs, mapM hue_and_sat_of images_hsv = Ok hs ∧
        Forall2 (fun image out => hue_and_sat_of image = Ok out) images_hsv hs.
Proof.
  induction 1 as [|image images (H & W & Himg) _ (hs & Hm & Hall)].
  - exists []. split; [done|constructor].
  - destruct image as [d rows|d rows]; [destruct Himg|].
    eexists (_ :: hs). split.
    + cbn [mapM]. rewrite (hue_and_sat_of_uint8_image H W) by done.
      result_simpl. rewrite Hm. reflexivity.
    + constructor; [|done]. by apply (hue_and_sat_of_uint8_image H W).
Qed.

(** X22: [WithHueAndSaturation] is not transparent.  With children that
    return their input, a batch whose HSV images are three-channel [uint8]
    images with hues below 180 comes back as the conversion from HSV of
    images in which every hue that is not a multiple of 12 is one less: the
    projection of the hue to [0, 255] and back, in [float32] with
    truncation, loses one unit.  Saturation and value are not changed. *)
Theorem WithHueAndSaturation_without_children (from_cs : string)
    (hooks : option (list ndarray → bool)) (images images_hsv : list ndarray) :
  _is_propagating images hooks = true →
  change_colorspaces_result images (OneCspace CSPACE_HSV) (OneCspace from_cs)
    = Ok images_hsv →
  Forall uint8_color_image images_hsv → Forall hue_below_180 images_hsv →
  WithHueAndSaturation_augment_images iadt_clip_ from_cs (fun batch => Ok batch)
    hooks images =
  change_colorspaces_result (map (map_pixels hue_round_trip) images_hsv)
    (OneCspace from_cs) (OneCspace CSPACE_HSV).
Proof.
  intros Hprop Hhsv Himgs Hhue. unfold WithHueAndSaturation_augment_images.
  rewrite Hprop, Hhsv. result_simpl.
  destruct (hue_and_sat_uint8_images images_hsv Himgs) as (hs & -> & Hall).
  result_simpl.
  pose proof (WithHueAndSaturation_project_unchanged images_hsv [] Himgs hs Hall)
    as Hproj.
  cbn [app length] in Hproj. rewrite Hproj. result_simpl.
  replace (map (map_pixels project_pixel) images_hsv)
    with (map (map_pixels hue_round_trip) images_hsv); [reflexivity|].
  apply map_ext_in. intros image Hin. apply list_elem_of_In in Hin.
  rewrite Forall_forall in Himgs, Hhue.
  destruct (Himgs image Hin) as (H & W & Himg). specialize (Hhue image Hin).
  destruct image as [d rows|d rows]; [done|]. cbn [map_pixels]. f_equal.
  apply map_ext_in. intros row Hrow. apply map_ext_in. intros px Hpx.
  destruct (uint8_image_pixels _ _ _ _ _ Himg row px Hrow Hpx) as [Hl Hv].
  cbn [hue_below_180] in Hhue. rewrite Forall_forall in Hhue.
  specialize (Hhue row (proj2 (list_elem_of_In _ _) Hrow)).
  rewrite Forall_forall in Hhue.
  specialize (Hhue px (proj2 (list_elem_of_In _ _) Hpx)).
  destruct px as [|h rest]; [done|]. cbn [hue_round_trip project_pixel].
  apply Forall_cons in Hv as [Hh _]. unfold is_uint8_value in Hh.
  by rewrite hue_projection_round_trip by lia.
Qed.

End WithHueAndSaturationTheorems.

(** ** [AddToHue] on images that are in HSV *)

Lemma cspace_HSV_in : CSPACE_HSV ∈ CSPACE_ALL.
Proof.
  unfold CSPACE_ALL. rewrite !elem_of_union, !elem_of_singleton. auto 20.
Qed.

Lemma astype_uint8_image (H W C : nat) (a : ndarray) :
  uint8_image H W C a → astype "uint8" a = a.
Proof.
  intros Himg. unfold astype. cbn [String.eqb Ascii.eqb Bool.eqb].
  destruct a as [d rows|d rows]; [destruct Himg|].
  pose proof (uint8_image_pixels _ _ _ _ _ Himg) as Hpx.
  destruct Himg as (-> & _). cbn [map_array set_dtype]. f_equal.
  rewrite <- (map_id rows) at 2. apply map_ext_in. intros row Hrow.
  rewrite <- (map_id row) at 2. apply map_ext_in. intros px Hin.
  destruct (Hpx row px Hrow Hin) as [_ Hv].
  rewrite <- (map_id px) at 2. apply map_ext_in. intros v Hv'.
  rewrite Forall_forall in Hv. apply list_elem_of_In in Hv'.
  specialize (Hv v Hv'). unfold is_uint8_value in Hv. unfold wrap_uint8.
  apply Z.mod_small. lia.
Qed.

Lemma dtype_names_uint8 (images : list ndarray) :
  Forall uint8_color_image images →
  map dtype_name images = replicate (length images) "uint8".
Proof.
  induction 1 as [|image images (H & W & Himg) _ IH]; [done|].
  cbn [map length replicate]. rewrite IH.
  by destruct (shape_uint8_image _ _ _ _ Himg) as (_ & -> & _).
Qed.

Section AddToHueInHSV.
Context {ext : Externals}.

Lemma change_colorspaces_same_pair (images : list ndarray) (A : string) :
  Forall uint8_color_image images → A ∈ CSPACE_ALL → A ≠ CSPACE_GRAY →
  change_colorspaces_ images (OneCspace A) (OneCspace A) = (images, Ok tt).
Proof.
  intros Himgs HA Hgray.
  pose proof (change_colorspaces_same images A Himgs HA Hgray) as Hres.
  pose proof (change_colorspaces_length images (OneCspace A) (OneCspace A)) as Hlen.
  unfold change_colorspaces_result in Hres.
  destruct (change_colorspaces_ images (OneCspace A) (OneCspace A))
    as [final [[]|e]]; [|discriminate].
  cbn in Hres. by injection Hres as ->.
Qed.

Lemma AddToHueAndSaturation_loop_hsv self (hue : Z) (N : nat) (imgs : list ndarray) :
  _LUT_CACHE self = _generate_lut_table →
  from_colorspace self = CSPACE_HSV →
  -255 ≤ hue ≤ 255 →
  ∀ (pre : list ndarray) (k k' : nat),
  Forall uint8_color_image imgs →
  (length pre + length imgs ≤ N)%nat →
  (length imgs ≤ k)%nat → (length imgs ≤ k')%nat →
  AddToHueAndSaturation_loop self (replicate N "uint8") (length pre)
    (zip (zip imgs (replicate k hue)) (replicate k' 0)) (pre ++ imgs) =
  Ok (pre ++ map (map_pixels (shift_pixel hue 0)) imgs).
Proof.
  intros Hlut Hfrom Hhue.
  induction imgs as [|image imgs IH]; intros pre k k' Himgs HN Hk Hk'.
  { reflexivity. }
  apply Forall_cons in Himgs as [(H & W & Himg) Himgs].
  cbn [length] in HN, Hk, Hk'.
  destruct k as [|k]; [lia|]. destruct k' as [|k']; [lia|].
  cbn [replicate zip_with AddToHueAndSaturation_loop].
  rewrite (transform_image_cv2_shift self H W);
    [|exact Hlut|exact Himg|lia|lia].
  result_simpl.
  rewrite (py_index_lookup (replicate N "uint8") (length pre) "uint8")
    by (apply lookup_replicate_2; lia).
  result_simpl.
  pose proof (shift_image_uint8 H W image hue 0 Himg) as Himg'.
  rewrite (astype_uint8_image H W 3) by exact Himg'.
  rewrite Hfrom.
  rewrite (change_colorspace_checked H W);
    [|exact Himg'|exact cspace_HSV_in|exact cspace_HSV_in|discriminate].
  rewrite bool_decide_eq_true_2 by reflexivity. result_simpl.
  rewrite insert_app_r_alt by lia. rewrite Nat.sub_diag.
  cbn [insert list_insert].
  specialize (IH (pre ++ [map_pixels (shift_pixel hue 0) image]) k k' Himgs).
  rewrite length_app in IH. cbn [length] in IH.
  rewrite <- !(assoc_L app) in IH. cbn [app] in IH.
  replace (length pre + 1)%nat with (S (length pre)) in IH by lia.
  rewrite IH by lia. reflexivity.
Qed.

(** X23: on images that are in HSV already, [AddToHue] with a constant amount
    [v] in [-255, 255] is the rotation of the hue by the projected amount.
    For a batch of three-channel [uint8] images and [from_colorspace=HSV],
    the whole augmenter (conversion to HSV, sampling, lookup tables, cast,
    conversion back) returns the batch in which every hue [h] is
    [(h + (v * 180) ÷ 255) mod 180] and nothing else is changed. *)
Theorem AddToHue_on_hsv_images (v : Z) (images : list ndarray)
    (random_state : RNG) :
  -255 ≤ v ≤ 255 →
  Forall uint8_color_image images →
  rng_duplicate random_state 2 ≠ [] →
  (aug ← AddToHue_init (ArgNumber v) CSPACE_HSV;
   AddToHueAndSaturation_augment_images aug images random_state) =
  Ok (map (map_pixels
             (fun px => match px with
                        | h :: rest => (h + (v * 180) ÷ 255) mod 180 :: rest
                        | [] => []
                        end)) images).
Proof.
  intros Hv Himgs Hrs.
  rewrite AddToHue_init_number by exact Hv. result_simpl.
  unfold AddToHueAndSaturation_augment_images. cbn [from_colorspace].
  rewrite change_colorspaces_same_pair;
    [|exact Himgs|exact cspace_HSV_in|discriminate].
  result_simpl. rewrite AddToHue_draw_samples.
  destruct (rng_duplicate random_state 2) as [|rs0 rss] eqn:Hdup; [done|].
  change (py_index (rs0 :: rss) 0) with (py_index (rs0 :: rss) (Z.of_nat 0)).
  rewrite (py_index_lookup (rs0 :: rss) 0 rs0) by reflexivity.
  result_simpl.
  assert (Hw : wrap_int32 v = v).
  { unfold wrap_int32. rewrite Z.mod_small by lia. lia. }
  rewrite Hw. destruct (project_hue_sample_quot v Hv) as [-> Hrange].
  rewrite dtype_names_uint8 by exact Himgs.
  pose proof (AddToHueAndSaturation_loop_hsv
    {| value := None; value_hue := Some (Deterministic v);
       value_saturation := None; per_channel := Deterministic 0;
       from_colorspace := CSPACE_HSV; _LUT_CACHE := _generate_lut_table |}
    ((v * 180) ÷ 255) (length images) images eq_refl eq_refl ltac:(lia) []
    (Z.to_nat (Z.of_nat (length images) * 1))
    (Z.to_nat (Z.of_nat (length images))) Himgs) as Hloop.
  cbn [app length] in Hloop. rewrite Hloop by lia.
  f_equal. apply map_ext_in. intros image Hin. apply list_elem_of_In in Hin.
  rewrite Forall_forall in Himgs. destruct (Himgs image Hin) as (H & W & Himg).
  apply (map_pixels_ext H W 3); [exact Himg|].
  intros [|h [|s rest]] Hlen Hval; try discriminate Hlen. cbn [shift_pixel].
  apply Forall_cons in Hval as [_ Hval]. apply Forall_cons in Hval as [Hs _].
  unfold is_uint8_value in Hs. do 2 f_equal. lia.
Qed.

End AddToHueInHSV.

(** ** The projection of [WithHueAndSaturation] *)










Section Projection.
Context {ext : Externals}.
Variable iadt_clip_ : ndarray → Z → Z → ndarray.
Hypothesis clip_is_np_clip : ∀ a lo hi, iadt_clip_ a lo hi = np_clip_array a lo hi.


End Projection.

(** * The theorems at concrete inputs *)

Ltac solve_uint8_image :=
  unfold uint8_image, uint8_array, array_Forall, rect3, is_uint8_value;
  cbn [dtype_name length];
  repeat first [ reflexivity | lia | split | constructor ].

Lemma image_1x1_uint8 : uint8_image 1 1 3 image_1x1.
Proof. solve_uint8_image. Qed.

Lemma image_2x2_alpha_uint8 : uint8_image 2 2 4 image_2x2_alpha.
Proof. solve_uint8_image. Qed.

Lemma cspace_HSV_valid : CSPACE_HSV ∈ CSPACE_ALL.
Proof.
  unfold CSPACE_ALL. rewrite !elem_of_union, !elem_of_singleton. auto 20.
Qed.

Lemma cspace_Lab_valid : CSPACE_Lab ∈ CSPACE_ALL.
Proof.
  unfold CSPACE_ALL. rewrite !elem_of_union, !elem_of_singleton. auto 20.
Qed.

Lemma example_table_complete (key : string * string) (code : option string) :
  _CSPACE_OPENCV_CONV_VARS !! key = Some code → is_Some code.
Proof.
  intros Hk. destruct (conv_vars_lookup key) as [Hl _]. rewrite Hl in Hk.
  destruct (conv_vars_refs !! key) as [r|] eqn:Hr; [|discriminate].
  injection Hk as <-.
  apply elem_of_list_to_map_2, list_elem_of_In in Hr.
  assert (Hall : forallb (fun e => match eval_cv2_ref e.2 with
                                   | Some _ => true | None => false end)
                   conv_vars_entries = true) by (vm_compute; reflexivity).
  rewrite forallb_forall in Hall. specialize (Hall _ Hr). cbn [snd] in Hall.
  destruct (eval_cv2_ref r); [eauto|discriminate].
Qed.

Lemma cvtColor_example_uint8 (img : ndarray) (code : string) :
  dtype_name img = "uint8" → dtype_name (cvtColor_example img code) = "uint8".
Proof.
  intros Hd. unfold cvtColor_example.
  destruct (bool_decide _); [|done]. by destruct img.
Qed.

(** C1, at the 2x2 image with [max_size=None] and two colours. *)
Lemma alpha_channel_passthrough_witness :
  ∃ out,
    _augment_single_image (uniform_quantizer [2] None) image_2x2_alpha 2 tt = Ok out ∧
    shape out = shape image_2x2_alpha ∧
    slice_channels 3 4 out = slice_channels 3 4 image_2x2_alpha ∧
    slice_channels 0 3 out =
      Ok (Array3 "uint8" [[[64; 64; 64]; [64; 64; 64]]; [[64; 64; 64]; [64; 64; 64]]]).
Proof.
  apply (alpha_channel_passthrough (uniform_quantizer [2] None) image_2x2_alpha
           2 tt 2 2
           (Array3 "uint8" [[[1; 2; 3]; [4; 5; 6]]; [[7; 8; 9]; [10; 11; 12]]])).
  - exact image_2x2_alpha_uint8.
  - intros m Hm. discriminate Hm.
  - reflexivity.
  - vm_compute. reflexivity.
  - solve_uint8_image.
Defined.

(** C1, the claim as stated fails: with [max_size=1] the 2x2 image is
    brought to 1x1 before the alpha channel is split off and brought back
    to 2x2 at the end; the alpha values 10, 20, 30, 40 come out as 10
    everywhere. *)
Lemma alpha_channel_resampled :
  _augment_single_image (uniform_quantizer [2] (Some 1)) image_2x2_alpha 2 tt =
    Ok (Array3 "uint8"
          [[[64; 64; 64; 10]; [64; 64; 64; 10]];
           [[64; 64; 64; 10]; [64; 64; 64; 10]]])
  ∧ slice_channels 3 4
      (Array3 "uint8"
         [[[64; 64; 64; 10]; [64; 64; 64; 10]];
          [[64; 64; 64; 10]; [64; 64; 64; 10]]])
    ≠ slice_channels 3 4 image_2x2_alpha.
Proof. split; [vm_compute; reflexivity|]. vm_compute. discriminate. Qed.

(** C2, at the one-pixel image and the tag HSV. *)
Lemma change_colorspace_identity_witness :
  change_colorspace_ image_1x1 CSPACE_HSV CSPACE_HSV = Ok image_1x1.
Proof.
  apply (change_colorspace_identity 1 1).
  - exact image_1x1_uint8.
  - exact cspace_HSV_valid.
  - discriminate.
Defined.

(** C2, the claim as stated fails for GRAY: the conversion from GRAY to
    GRAY is rejected by the assertion on the source colourspace. *)
Lemma change_colorspace_gray_to_gray_fails :
  change_colorspace_ image_1x1 CSPACE_GRAY CSPACE_GRAY =
  Raise (AssertionError
    "Cannot convert from grayscale to another colorspace as colors cannot be recovered.").
Proof. vm_compute. reflexivity. Qed.

(** C3, at the one-pixel image and the amount 17. *)
Lemma add_to_hue_pixelwise_witness :
  project_hue_sample 17 = (17 * 180) ÷ 255 ∧
  _transform_image_cv2 add_value_out_of_range image_1x1 (project_hue_sample 17) 0 =
  Ok (map_pixels
        (fun px =>
           match px with
           | h :: s :: rest =>
               (h + (17 * 180) ÷ 255) mod 180
               :: Z.min 255 (Z.max 0 (s + 0)) :: rest
           | _ => px
           end) image_1x1).
Proof.
  apply (add_to_hue_pixelwise add_value_out_of_range 1 1).
  - reflexivity.
  - exact image_1x1_uint8.
  - lia.
  - lia.
Defined.

(** C3, the claim as stated fails: for the hue 2 and the amount 0 the
    augmenter leaves the hue at 2, whereas the equation of the
    specification, with the hue projected to [0, 255] and back, gives 1. *)
Lemma add_to_hue_is_not_the_spec_equation :
  _transform_image_cv2 add_value_out_of_range (Array3 "uint8" [[[2; 50; 7]]])
    (project_hue_sample 0) 0 = Ok (Array3 "uint8" [[[2; 50; 7]]])
  ∧ spec_hue_add 2 0 = 1.
Proof.
  split; [|vm_compute; reflexivity].
  change (project_hue_sample 0) with 0.
  rewrite (transform_image_cv2_in_range add_value_out_of_range 1 1);
    [reflexivity|reflexivity|solve_uint8_image|lia|lia].
Qed.


(** C7, at the one-pixel image, from HSV to Lab (no direct entry). *)
Lemma change_colorspace_routing_witness :
  match _CSPACE_OPENCV_CONV_VARS !! (CSPACE_HSV, CSPACE_Lab) with
  | Some code =>
      ∃ from2to_var, code = Some from2to_var ∧
        change_colorspace_ image_1x1 CSPACE_Lab CSPACE_HSV =
        Ok (gray_to_3_channels (cv2_cvtColor image_1x1 from2to_var))
  | None =>
      ∃ from2rgb_var rgb2to_var,
        _CSPACE_OPENCV_CONV_VARS !! (CSPACE_HSV, CSPACE_RGB) = Some (Some from2rgb_var) ∧
        _CSPACE_OPENCV_CONV_VARS !! (CSPACE_RGB, CSPACE_Lab) = Some (Some rgb2to_var) ∧
        change_colorspace_ image_1x1 CSPACE_Lab CSPACE_HSV =
        Ok (gray_to_3_channels
              (cv2_cvtColor (cv2_cvtColor image_1x1 from2rgb_var) rgb2to_var))
  end.
Proof.
  apply (change_colorspace_routing 1 1).
  - exact image_1x1_uint8.
  - exact cspace_HSV_valid.
  - exact cspace_Lab_valid.
  - discriminate.
  - discriminate.
  - exact example_table_complete.
  - exact cvtColor_example_uint8.
Defined.

(** C8, at the one-pixel image and two colours. *)
Lemma kmeans_returns_input_witness :
  quantize_colors_kmeans image_1x1 2 = Ok image_1x1.
Proof.
  apply (kmeans_returns_input image_1x1 2 1 1 [3]).
  - reflexivity.
  - reflexivity.
  - lia.
  - lia.
Defined.

(** C8, the claim as stated fails: 300 colours for one pixel are rejected
    by the range assertion although [300 >= H*W]. *)
Lemma kmeans_rejects_300_colors :
  quantize_colors_kmeans image_1x1 300 =
  Raise (AssertionError "Expected n_colors to be in the discrete interval [2..256].").
Proof. vm_compute. reflexivity. Qed.



(** The store after that call: the array of the second image holds the
    result of the first leg. *)
Example failed_conversion_keeps_first_leg :
  Store.change_colorspaces_ (ext:=inplace_externals) [0%nat; 1%nat]
    (ListOfCspaces [CSPACE_BGR; CSPACE_Lab]) (OneCspace CSPACE_HSV)
    (Store.fresh_arrays [image_10_20_30; image_1_2_3])
  = (Store.fresh_arrays [Array3 "uint8" [[[30; 20; 10]]];
                         Array3 "uint8" [[[3; 2; 1]]]],
     [0%nat; 1%nat], Raise TypeError).
Proof. vm_compute. reflexivity. Qed.

(** C10, at the one-pixel image and three colours. *)
Lemma quantize_colors_uniform_idempotent_witness :
  ∃ out, quantize_colors_uniform image_1x1 3 = Ok out ∧
         quantize_colors_uniform out 3 = Ok out.
Proof.
  apply (quantize_colors_uniform_idempotent image_1x1 3).
  - solve_uint8_image.
  - lia.
Defined.

(** ** The further properties at concrete inputs *)

Lemma cspace_GRAY_valid : CSPACE_GRAY ∈ CSPACE_ALL.
Proof.
  unfold CSPACE_ALL. rewrite !elem_of_union, !elem_of_singleton. auto 20.
Qed.

Lemma image_1x1_color : Forall uint8_color_image [image_1x1].
Proof. repeat constructor. exists 1%nat, 1%nat. exact image_1x1_uint8. Qed.

Lemma image_1x1_hue : Forall hue_below_180 [image_1x1].
Proof. repeat constructor. Qed.

(** [Grayscale()] is the augmenter [grayscale_default]. *)
Example Grayscale_default :
  Grayscale_init (Deterministic 0%float) CSPACE_RGB tt = Ok grayscale_default.
Proof. vm_compute. reflexivity. Qed.

(** With the default [max_size=128], a side of 161 pixels becomes 127 and a
    side of one pixel vanishes. *)
Example resized_extent_161 :
  resized_extent 128 161 161 = 127 ∧ resized_extent 128 161 1 = 0.
Proof. split; vm_compute; reflexivity. Qed.

(** X1, at an image of four channels and the conversion from RGB to RGB. *)
Lemma change_colorspace_validation_witness :
  ∃ msg, change_colorspace_ (Array3 "uint8" [[[1; 2; 3; 4]]]) CSPACE_RGB CSPACE_RGB
         = Raise (AssertionError msg).
Proof.
  apply change_colorspace_validation.
  - reflexivity.
  - do 4 right. intros Heq. vm_compute in Heq. discriminate Heq.
Defined.

(** X2, at the one-pixel image, from RGB to HSV. *)
Lemma change_colorspace_success_witness :
  ndim image_1x1 = 3 ∧ dtype_name image_1x1 = "uint8".
Proof.
  apply (change_colorspace_success image_1x1 image_1x1 CSPACE_HSV CSPACE_RGB).
  - reflexivity.
  - vm_compute. reflexivity.
Defined.

(** X3, at the batch of the one-pixel image, from RGB to HSV. *)
Lemma change_colorspaces_invariants_witness :
  length (change_colorspaces_ [image_1x1] (OneCspace CSPACE_HSV)
            (OneCspace CSPACE_RGB)).1 = length [image_1x1]
  ∧ ((change_colorspaces_ [image_1x1] (OneCspace CSPACE_HSV)
        (OneCspace CSPACE_RGB)).2 = Ok tt →
     Forall (fun out => ndim out = 3 ∧ dtype_name out = "uint8")
       (change_colorspaces_ [image_1x1] (OneCspace CSPACE_HSV)
          (OneCspace CSPACE_RGB)).1).
Proof.
  apply change_colorspaces_invariants. repeat constructor.
Defined.

(** X4, at the batch of the one-pixel image, with children that return their
    input. *)
Lemma WithColorspace_gray_raises_witness :
  ∃ e, WithColorspace_augment_images CSPACE_GRAY CSPACE_RGB
         (fun batch => Ok batch) None [image_1x1] = Raise e.
Proof.
  apply WithColorspace_gray_raises.
  - reflexivity.
  - discriminate.
  - intros batch out [= <-]. reflexivity.
Defined.

(** X5, at the batch of the one-pixel image and the colourspace HSV. *)
Lemma WithColorspace_same_colorspace_witness :
  WithColorspace_augment_images CSPACE_HSV CSPACE_HSV
    (fun batch => Ok batch) None [image_1x1] = Ok [image_1x1].
Proof.
  apply (WithColorspace_same_colorspace CSPACE_HSV (fun batch => Ok batch)).
  - reflexivity.
  - exact cspace_HSV_valid.
  - discriminate.
  - exact image_1x1_color.
  - intros out [= <-]. exact image_1x1_color.
Defined.

(** X6, at the saturation amount 300. *)
Lemma transform_image_cv2_index_error_witness :
  _transform_image_cv2 add_value_out_of_range image_1x1 0 300 = Raise IndexError.
Proof.
  apply transform_image_cv2_index_error.
  - reflexivity.
  - do 3 right. lia.
Defined.

(** X7, at the amount -300, which acts as the amount 212. *)
Lemma transform_image_cv2_negative_wraps_witness :
  _transform_image_cv2 add_value_out_of_range image_1x1 (-300) 0 =
    _transform_image_cv2 add_value_out_of_range image_1x1 (-300 + 512) 0
  ∧ _transform_image_cv2 add_value_out_of_range image_1x1 0 (-300) =
    _transform_image_cv2 add_value_out_of_range image_1x1 0 (-300 + 512).
Proof.
  apply transform_image_cv2_negative_wraps.
  - reflexivity.
  - lia.
Defined.

(** X8, at the one-pixel image. *)
Lemma transform_image_cv2_valid_hsv_witness :
  ∃ out, _transform_image_cv2 add_value_out_of_range image_1x1 100 (-100) = Ok out ∧
         uint8_image 1 1 3 out ∧ shape out = shape image_1x1 ∧ hue_below_180 out.
Proof.
  apply transform_image_cv2_valid_hsv.
  - reflexivity.
  - exact image_1x1_uint8.
  - lia.
  - lia.
Defined.

(** X9, at the one-pixel image. *)
Lemma transform_image_backends_agree_witness :
  _transform_image_numpy image_1x1 100 (-100) =
  set_dtype "int16" <$> _transform_image_cv2 add_value_out_of_range image_1x1 100 (-100).
Proof.
  apply (transform_image_backends_agree add_value_out_of_range 1 1).
  - reflexivity.
  - exact image_1x1_uint8.
  - lia.
  - lia.
Defined.

(** X10, at the one-pixel image: 100 and then 90 to the hue, 200 and then 30
    to the saturation. *)
Lemma transform_image_cv2_composes_witness :
  (image1 ← _transform_image_cv2 add_value_out_of_range image_1x1 100 200;
   _transform_image_cv2 add_value_out_of_range image1 90 30) =
  _transform_image_cv2 add_value_out_of_range image_1x1 (100 + 90) (200 + 30).
Proof.
  apply (transform_image_cv2_composes add_value_out_of_range 1 1); try lia.
  - reflexivity.
  - exact image_1x1_uint8.
Defined.

(** X11, at the one-pixel image and the amount 100. *)
Lemma transform_image_cv2_undo_witness :
  _transform_image_cv2 add_value_out_of_range image_1x1 0 0 = Ok image_1x1 ∧
  (image1 ← _transform_image_cv2 add_value_out_of_range image_1x1 100 0;
   _transform_image_cv2 add_value_out_of_range image1 (Z.opp 100) 0) = Ok image_1x1.
Proof.
  apply (transform_image_cv2_undo add_value_out_of_range 1 1 image_1x1 100).
  - reflexivity.
  - exact image_1x1_uint8.
  - repeat constructor.
  - lia.
Defined.

(** X12, at the one-pixel image and the amount 256. *)
Lemma transform_image_cv2_zero_row_witness :
  _transform_image_cv2 add_value_out_of_range image_1x1 10 256 =
    Ok (map_pixels
          (fun px => match px with
                     | h :: s :: rest => (h + 10) mod 180 :: 0 :: rest
                     | _ => px
                     end) image_1x1)
  ∧ _transform_image_cv2 add_value_out_of_range image_1x1 256 10 =
    Ok (map_pixels
          (fun px => match px with
                     | h :: s :: rest =>
                         0 :: Z.min 255 (Z.max 0 (s + 10)) :: rest
                     | _ => px
                     end) image_1x1).
Proof.
  apply (transform_image_cv2_zero_row add_value_out_of_range 1 1).
  - reflexivity.
  - exact image_1x1_uint8.
  - left. reflexivity.
  - lia.
Defined.

(** X13, at [AddToHue(10)] and the batch of the one-pixel image. *)
Lemma AddToHue_keeps_saturation_witness :
  [0] = replicate (length [image_1x1]) 0 ∧
  _transform_image_cv2
    {| value := None; value_hue := Some (Deterministic 10);
       value_saturation := None; per_channel := Deterministic 0;
       from_colorspace := CSPACE_RGB; _LUT_CACHE := _generate_lut_table |}
    image_1x1 7 0 =
    Ok (map_pixels
          (fun px => match px with
                     | h :: rest => (h + 7) mod 180 :: rest
                     | [] => []
                     end) image_1x1).
Proof.
  apply (AddToHue_keeps_saturation (ext:=example_externals) (ArgNumber 10) CSPACE_RGB _ [image_1x1] tt [7] [0] 1 1).
  - apply AddToHue_init_number. lia.
  - reflexivity.
  - exact image_1x1_uint8.
  - lia.
Defined.

(** X14, at [AddToSaturation(10)] and the batch of the one-pixel image. *)
Lemma AddToSaturation_keeps_hue_witness :
  [0] = replicate (length [image_1x1]) 0 ∧
  _transform_image_cv2
    {| value := None; value_hue := None;
       value_saturation := Some (Deterministic 10); per_channel := Deterministic 0;
       from_colorspace := CSPACE_RGB; _LUT_CACHE := _generate_lut_table |}
    image_1x1 0 10 =
    Ok (map_pixels
          (fun px => match px with
                     | h :: s :: rest =>
                         h :: Z.min 255 (Z.max 0 (s + 10)) :: rest
                     | _ => px
                     end) image_1x1).
Proof.
  apply (AddToSaturation_keeps_hue (ext:=example_externals) (ArgNumber 10) CSPACE_RGB _ [image_1x1] tt [0] [10] 1 1).
  - reflexivity.
  - reflexivity.
  - exact image_1x1_uint8.
  - repeat constructor.
  - lia.
Defined.

(** X15, at the augmenter of C5. *)
Lemma draw_samples_empty_batch_witness :
  AddToHueAndSaturation_draw_samples add_value_out_of_range [] tt = Raise IndexError.
Proof.
  apply (draw_samples_empty_batch (ext:=example_externals) add_value_out_of_range (samples_of [0; 0; 300; 300])).
  reflexivity.
Defined.

(** X16, at the one-pixel image and three colours. *)
Lemma quantize_colors_uniform_palette_witness :
  ∃ palette out,
    Z.of_nat (length palette) ≤ 3 ∧
    quantize_colors_uniform image_1x1 3 = Ok out ∧
    array_Forall (fun v => v ∈ palette) out.
Proof.
  apply quantize_colors_uniform_palette.
  - lia.
  - solve_uint8_image.
Defined.

(** X17, at three colours and the samples 10 and 200. *)
Lemma quantize_value_close_and_monotone_witness :
  2 * 3 * Z.abs (quantize_value 3 10 - 10) ≤ 256 + 3 ∧
  quantize_value 3 10 ≤ quantize_value 3 200.
Proof.
  apply quantize_value_close_and_monotone; lia.
Defined.

(** X18, at the column of 161 pixels and [max_size=128]: the size asked
    for is 127 by 0. *)
Lemma ensure_max_size_extents_witness :
  _ensure_max_size image_161x1 (Some 128) "linear" =
  imresize_single_image image_161x1 (127, 0) "linear".
Proof.
  destruct (ensure_max_size_extents (ext:=example_externals) image_161x1 128
              "linear" 161 1 [3]) as (new_height & new_width & Heq & Hh & _).
  - vm_compute. reflexivity.
  - lia.
  - lia.
  - lia.
  - destruct Hh as (_ & H128 & H1); [lia|].
    rewrite Heq, (H128 eq_refl), (H1 eq_refl). reflexivity.
Defined.

(** X19, at a rank-2 image of width 2. *)
Lemma augment_single_image_rank2_witness :
  _augment_single_image (uniform_quantizer [2] None)
    (Array2 "uint8" [[1; 2]; [3; 4]]) 2 tt =
  Raise (AssertionError "Expected image with 1, 3 or 4 channels").
Proof.
  apply (augment_single_image_rank2 (ext:=example_externals) (uniform_quantizer [2] None) "uint8"
           [[1; 2]; [3; 4]] 2 tt).
  - discriminate.
  - discriminate.
  - discriminate.
Defined.

(** X20, at the one-pixel image. *)
Lemma quantization_in_gray_raises_witness :
  ∃ e, _augment_single_image gray_quantizer image_1x1 2 tt = Raise e.
Proof.
  apply quantization_in_gray_raises.
  - reflexivity.
  - reflexivity.
  - discriminate.
Defined.

(** X21, at [Grayscale()] and the batch of the one-pixel image. *)
Lemma ChangeColorspace_no_change_witness :
  ChangeColorspace_augment_images grayscale_default [image_1x1] tt = Ok [image_1x1].
Proof.
  apply (ChangeColorspace_no_change (ext:=example_externals) grayscale_default [image_1x1] tt
           [0%float] [CSPACE_GRAY]).
  - reflexivity.
  - reflexivity.
  - constructor; [exact cspace_GRAY_valid | constructor].
  - constructor; [left; reflexivity | constructor].
Defined.

(** X22, at the batch of the one-pixel image, taken as HSV: the hue 100
    comes back as 99. *)
Lemma WithHueAndSaturation_without_children_witness :
  WithHueAndSaturation_augment_images np_clip_array CSPACE_HSV
    (fun batch => Ok batch) None [image_1x1] =
  Ok [Array3 "uint8" [[[99; 50; 7]]]].
Proof.
  rewrite (WithHueAndSaturation_without_children (ext:=example_externals) np_clip_array
             np_clip_array_uint8 CSPACE_HSV None [image_1x1] [image_1x1]).
  - vm_compute. reflexivity.
  - reflexivity.
  - vm_compute. reflexivity.
  - exact image_1x1_color.
  - exact image_1x1_hue.
Defined.

(** X23, at the batch of the one-pixel image and the amount 17, which is
    projected to 12: the hue 100 becomes 112. *)
Lemma AddToHue_on_hsv_images_witness :
  (aug ← AddToHue_init (ArgNumber 17) CSPACE_HSV;
   AddToHueAndSaturation_augment_images aug [image_1x1] tt) =
  Ok [Array3 "uint8" [[[112; 50; 7]]]].
Proof.
  rewrite (AddToHue_on_hsv_images (ext:=example_externals) 17 [image_1x1] tt).
  - reflexivity.
  - lia.
  - exact image_1x1_color.
  - discriminate.
Defined.

